(** * Logo Downloader Pro: the search core of [logo_downloader.py]

    A shallow embedding of the cache store ([Database]), the scorer
    ([LogoSearchWorker.add_result]), the worker dispatch
    ([LogoSearchWorker.run] and the [search_*] adapters), the search
    orchestrator ([LogoSearchManager]) and the domain generator
    ([LogoSearchManager.generate_company_domains]).

    Conventions of the embedding:
    - a Python [str] is a [string]: the text in UTF-8.  The character tables
      ([str.lower], [str.isalnum], the regex classes [\w] and [\s],
      [str.split]) are Python's tables for ASCII text ([PyStr.isascii]);
      Python's tables for other text are those of Unicode and are not
      modelled, so what is proved of the classes is proved of ASCII text;
    - Python integers are [Z]; a score is a [Q], because one adapter divides
      its heuristic score by ten with true division: the fraction [n # 1]
      is the int [n], a fraction with another denominator is a float, and
      the sums and the quotient by ten of the program keep the two apart as
      Python does;
    - [None] is [None]: optional attributes are [option] values;
    - signals are appended to an explicit trace, in emission order;
    - [CURRENT_TIMESTAMP] and [datetime('now')] read a clock that is passed
      in as a number of seconds since 1970-01-01 00:00:00 UTC;
    - SQLite stores 64-bit integers: [sqlite3] raises [OverflowError] when
      it is to bind another one, and no handler of [Database] catches it
      (they name [sqlite3.Error]). *)

From Stdlib Require Import Bool Ascii String List ZArith QArith Lia DecimalString.
From Stdlib Require Import Permutation Sorted.
Import ListNotations.

Open Scope string_scope.
Open Scope Z_scope.

(* ================================================================== *)
(** * Python strings *)
(* ================================================================== *)

Module PyStr.

Definition code (c : ascii) : nat := nat_of_ascii c.

Definition between (lo hi n : nat) : bool :=
  Nat.leb lo n && Nat.leb n hi.

Definition isupper (c : ascii) : bool := between 65 90 (code c).
Definition islower (c : ascii) : bool := between 97 122 (code c).
Definition isdigit (c : ascii) : bool := between 48 57 (code c).


(** [c.isalnum()] *)
Definition isalnum (c : ascii) : bool := isupper c || islower c || isdigit c.

(** the regex class [\w]: alphanumerics and the underscore *)
Definition isword (c : ascii) : bool := isalnum c || Nat.eqb (code c) 95.

(** [c.isspace()], also the regex class [\s] and the separators of
    [str.split()]: TAB, LF, VT, FF, CR, FS, GS, RS, US and the space *)
Definition isspace (c : ascii) : bool :=
  between 9 13 (code c) || between 28 32 (code c).

Definition lower_char (c : ascii) : ascii :=
  if isupper c then ascii_of_nat (code c + 32) else c.

(** [s.lower()] *)
Fixpoint lower (s : string) : string :=
  match s with
  | EmptyString => EmptyString
  | String c s' => String (lower_char c) (lower s')
  end.

(** [''.join(c for c in s if keep(c))] *)
Fixpoint filter (keep : ascii -> bool) (s : string) : string :=
  match s with
  | EmptyString => EmptyString
  | String c s' => if keep c then String c (filter keep s') else filter keep s'
  end.

(** [s.startswith(p)] *)
Definition startswith (s p : string) : bool := String.prefix p s.

(** [s.endswith(suffix)] *)
Definition endswith (s suffix : string) : bool :=
  let n := String.length s in
  let k := String.length suffix in
  Nat.leb k n && String.eqb (String.substring (n - k) k s) suffix.

(** [s[:-k]] for [k > 0] *)
Definition drop_last (k : nat) (s : string) : string :=
  String.substring 0 (String.length s - k) s.

(** [needle in s] *)
Fixpoint contains (needle s : string) : bool :=
  match s with
  | EmptyString => String.eqb needle EmptyString
  | String _ s' => String.prefix needle s || contains needle s'
  end.

(** [s.split()], on runs of white space; [word] is the word being read,
    in reverse *)
Fixpoint split_aux (word : list ascii) (s : string) : list string :=
  let flush (rest : list string) :=
    match word with
    | [] => rest
    | _ => string_of_list_ascii (rev word) :: rest
    end in
  match s with
  | EmptyString => flush []
  | String c s' =>
      if isspace c then flush (split_aux [] s') else split_aux (c :: word) s'
  end.

Definition split (s : string) : list string := split_aux [] s.

(** [sep.join(parts)] *)
Fixpoint join (sep : string) (parts : list string) : string :=
  match parts with
  | [] => EmptyString
  | [p] => p
  | p :: rest => p ++ sep ++ join sep rest
  end.

(** [s.replace(old, new)] for a one-character [old] *)
Fixpoint replace_char (old : ascii) (new : string) (s : string) : string :=
  match s with
  | EmptyString => EmptyString
  | String c s' =>
      if Ascii.eqb c old then new ++ replace_char old new s'
      else String c (replace_char old new s')
  end.

(** [s.rstrip('/')] and the like *)
Definition rstrip_char (c : ascii) (s : string) : string :=
  let fix go (r : list ascii) :=
    match r with
    | x :: r' => if Ascii.eqb x c then go r' else r
    | [] => []
    end in
  string_of_list_ascii (rev (go (rev (list_ascii_of_string s)))).

(** [s[0]]; the words of [split] are never empty ([split_words_nonempty]),
    which is the only place the program indexes a string *)
Definition first_char (s : string) : string :=
  match s with
  | EmptyString => EmptyString
  | String c _ => String c EmptyString
  end.

(** [list(set(l))]: the distinct elements (Python leaves their order
    unspecified; the theorems below speak of membership only) *)
Definition list_set (l : list string) : list string :=
  nodup string_dec l.

End PyStr.

(* ================================================================== *)
(** * Domain generator *)
(* ================================================================== *)

Definition legal_suffixes : list string :=
  [" inc"; " corp"; " llc"; " ltd"; " limited"; " gmbh"; " co"; " company";
   " corporation"].

(** the loop over [legal_suffixes]: each suffix, in order, is cut off the
    name as it stands when its turn comes *)
Definition strip_legal_suffixes (clean_name : string) : string :=
  fold_left
    (fun name suffix =>
       if PyStr.endswith name suffix
       then PyStr.drop_last (String.length suffix) name
       else name)
    legal_suffixes clean_name.

(** [re.sub(r'[^\w\s]', '', clean_name)] *)
Definition remove_special (s : string) : string :=
  PyStr.filter (fun c => PyStr.isword c || PyStr.isspace c) s.

(** [clean_name] as it stands after the regex substitution *)
Definition clean_company_name (company_name : string) : string :=
  remove_special (strip_legal_suffixes (PyStr.lower company_name)).

Definition name_parts_of (company_name : string) : list string :=
  PyStr.split (clean_company_name company_name).

(** the list [domains] of base names *)
Definition base_names (name_parts : list string) : list string :=
  let initials_and_last :=
    PyStr.join "" (map PyStr.first_char (removelast name_parts))
    ++ last name_parts "" in
  let acronym := PyStr.join "" (map PyStr.first_char name_parts) in
  ([PyStr.join "" name_parts; PyStr.join "-" name_parts]
   ++ (if Nat.ltb 1 (List.length name_parts) then [initials_and_last] else [])
   ++ (if Nat.ltb 1 (List.length name_parts) then [acronym] else []))%list.

Definition add_tlds (domains : list string) : list string :=
  flat_map
    (fun domain =>
       [domain ++ ".com"; domain ++ ".org"; domain ++ ".io"; domain ++ ".co";
        domain ++ ".net"])
    domains.

(** the [if]/[elif] chain of well-known companies *)
Definition special_cases (clean_name : string) : list string :=
  if PyStr.contains "google" clean_name then ["google.com"]
  else if PyStr.contains "microsoft" clean_name then ["microsoft.com"]
  else if PyStr.contains "amazon" clean_name then ["amazon.com"]
  else if PyStr.contains "facebook" clean_name
          || PyStr.contains "meta" clean_name
       then ["facebook.com"; "meta.com"]
  else if PyStr.contains "apple" clean_name then ["apple.com"]
  else [].

(** the list [result] before [list(set(result))] *)
Definition domain_candidates (company_name : string) : list string :=
  let clean_name := clean_company_name company_name in
  (add_tlds (base_names (PyStr.split clean_name))
   ++ [company_name]
   ++ special_cases clean_name)%list.

Definition generate_company_domains (company_name : string) : list string :=
  PyStr.list_set (domain_candidates company_name).

(* ================================================================== *)
(** * Data model *)
(* ================================================================== *)

(** An entry of [LOGO_SOURCES]. *)
Record Source := {
  name : string;
  priority : Z;
  base_quality : Z;
  enabled : bool
}.

Definition LOGO_SOURCES : list Source :=
  [ {| name := "SimpleIcons"; priority := 5; base_quality := 80; enabled := true |};
    {| name := "Brandfetch"; priority := 10; base_quality := 90; enabled := true |};
    {| name := "Clearbit"; priority := 8; base_quality := 75; enabled := true |};
    {| name := "Wikipedia"; priority := 7; base_quality := 85; enabled := true |};
    {| name := "BrandDB"; priority := 6; base_quality := 70; enabled := true |};
    {| name := "CompanyWebsite"; priority := 9; base_quality := 85; enabled := true |};
    {| name := "SocialMedia"; priority := 4; base_quality := 75; enabled := true |};
    {| name := "GoogleSearch"; priority := 3; base_quality := 65; enabled := true |};
    {| name := "BingSearch"; priority := 2; base_quality := 60; enabled := true |};
    {| name := "DuckDuckGo"; priority := 1; base_quality := 60; enabled := true |};
    {| name := "VectorDB"; priority := 5; base_quality := 80; enabled := true |} ].

(** The [settings] mapping handed to the manager and to its workers: the keys
    the search core reads with [settings.get(key, default)]; a key that is
    absent is [None].  (The keys that only configure the HTTP session:
    [timeout], [proxy_enabled], [proxy_url], [user_agent_rotation], are part
    of the network, see [World] below.) *)
Record Settings := {
  concurrent_searches : option Z;
  cache_expiry_days : option Z;
  max_results : option Z;
  search_all_sources : option bool;
  download_png : option bool;
  download_svg : option bool;
  brandfetch_api_key : option string;
  google_api_key : option string;
  google_cx : option string;
  bing_api_key : option string
}.

(** [settings.get(key, default)] *)
Definition get {A} (entry : option A) (default : A) : A :=
  match entry with
  | Some v => v
  | None => default
  end.

(** the manager is given the settings with no key of its own set: every
    [get] answers its default *)
Definition no_settings : Settings :=
  {| concurrent_searches := None; cache_expiry_days := None;
     max_results := None; search_all_sources := None;
     download_png := None; download_svg := None;
     brandfetch_api_key := None; google_api_key := None;
     google_cx := None; bing_api_key := None |}.

(** [LogoResult].  The attributes [id] (a random [uuid4]) and [pixmap] (the
    display cache of the GUI) are read by no operation of the search core
    and are left out. *)
Record LogoResult := {
  company_name : string;
  image_data : option string;
  image_url : option string;
  source : option string;
  format_type : option string;
  width : option Z;
  height : option Z;
  file_path : option string;
  score : Q;
  metadata : list (string * string)
}.

Definition set_score (r : LogoResult) (s : Q) : LogoResult :=
  {| company_name := company_name r; image_data := image_data r;
     image_url := image_url r; source := source r;
     format_type := format_type r; width := width r; height := height r;
     file_path := file_path r; score := s; metadata := metadata r |}.

(** [d[key] = value] on a dict kept as an association list: the value of an
    existing key is overwritten in place, a new key goes last *)
Fixpoint dict_set (d : list (string * string)) (key value : string)
  : list (string * string) :=
  match d with
  | [] => [(key, value)]
  | (k, v) :: d' =>
      if String.eqb k key then (key, value) :: d'
      else (k, v) :: dict_set d' key value
  end.

Definition set_metadata (r : LogoResult) (key value : string) : LogoResult :=
  {| company_name := company_name r; image_data := image_data r;
     image_url := image_url r; source := source r;
     format_type := format_type r; width := width r; height := height r;
     file_path := file_path r; score := score r;
     metadata := dict_set (metadata r) key value |}.

(* ================================================================== *)
(** * Database *)
(* ================================================================== *)

Module Database.

(** a row of [logo_cache] *)
Record CacheRow := {
  c_id : Z;
  c_company_name : string;
  c_source : string;
  c_format_type : string;
  c_image_data : option string;
  c_image_url : option string;
  c_width : option Z;
  c_height : option Z;
  c_score : Q;
  c_timestamp : Z
}.

(** a row of [search_history] *)
Record HistoryRow := {
  h_id : Z;
  h_company_name : string;
  h_timestamp : Z;
  h_results_count : Z
}.

(** a row of [favorites] *)
Record FavoriteRow := {
  f_id : Z;
  f_company_name : string;
  f_image_data : option string;
  f_format_type : string;
  f_timestamp : Z
}.

(** The three tables, each with the counter [AUTOINCREMENT] keeps for it:
    the largest id the table ever held. *)
Record t := {
  logo_cache : list CacheRow;
  search_history : list HistoryRow;
  favorites : list FavoriteRow;
  seq_logo_cache : Z;
  seq_search_history : Z;
  seq_favorites : Z
}.

(** [init_db] on a new file: [CREATE TABLE IF NOT EXISTS], three times *)
Definition init_db : t :=
  {| logo_cache := []; search_history := []; favorites := [];
     seq_logo_cache := 0; seq_search_history := 0; seq_favorites := 0 |}.

Definition seconds_per_day : Z := 86400.

(** the first and the last moment of SQLite's calendar, in seconds since
    1970: noon of -4713-11-24 (Julian day 0) and the last second of
    9999-12-31 *)
Definition first_second : Z := -210866760000.
Definition last_second : Z := 253402300799.

(** the number of days a [days] modifier must stay below: the length of the
    calendar *)
Definition day_limit : Z := 5373485.

(** [datetime('now', '-N days')], with [N] the decimal text of
    [max_age_days] (the argument is [f"-{max_age_days} days"], a string, so
    any integer is bound): the moment [N] days before now, or NULL
    ([None]).  It is NULL when the modifier is rejected, as it is for a
    negative [N], when it reads [--N days], and for an [N] of [day_limit]
    or more; and it is NULL when the moment is not in the calendar, as it
    is for an [N] above some 2.46 million in the present. *)
Definition cutoff (now max_age_days : Z) : option Z :=
  let moment := now - max_age_days * seconds_per_day in
  if (0 <=? max_age_days) && (max_age_days <? day_limit)
     && (first_second <=? moment) && (moment <=? last_second)
  then Some moment
  else None.

(** [datetime(timestamp) > datetime('now', '-N days')]: no row passes a
    comparison with NULL *)
Definition younger_than (now max_age_days timestamp : Z) : bool :=
  match cutoff now max_age_days with
  | Some moment => moment <? timestamp
  | None => false
  end.

(** [datetime(timestamp) < datetime('now', '-N days')] *)
Definition older_than (now max_age_days timestamp : Z) : bool :=
  match cutoff now max_age_days with
  | Some moment => timestamp <? moment
  | None => false
  end.

(** the integers [sqlite3] binds: from [-2^63] to [2^63 - 1] *)
Definition int64 (z : Z) : bool :=
  (-9223372036854775808 <=? z) && (z <=? 9223372036854775807).

(** What a method that binds a number hands back: the value it returns, or
    the [OverflowError] of a Python int outside [int64], which leaves the
    method. *)
Inductive answer (A : Type) : Type :=
| Answer (a : A)
| OverflowError.

Arguments Answer {A} a.
Arguments OverflowError {A}.

(** [width] and [height]: [None] is bound as NULL *)
Definition binds_int (v : option Z) : bool :=
  match v with
  | Some z => int64 z
  | None => true
  end.

(** [score]: an int must be in [int64], a float always binds *)
Definition binds_number (q : Q) : bool :=
  negb (Pos.eqb (Qden q) 1) || int64 (Qnum q).

(** the column [score] is declared [INTEGER]: a float that is a whole
    number strictly between the ends of [int64] is stored, and read back,
    as the int of that value; every other number is stored as it is *)
Definition stored_score (q : Q) : Q :=
  let whole := Qnum q / Zpos (Qden q) in
  if (Qnum q mod Zpos (Qden q) =? 0)
     && (-9223372036854775808 <? whole) && (whole <? 9223372036854775807)
  then whole # 1
  else q.

(** the parameters of [add_to_cache] are bound before the statement runs *)
Definition binds (logo_result : LogoResult) : bool :=
  binds_int (width logo_result) && binds_int (height logo_result)
  && binds_number (score logo_result).

(** the columns of [UNIQUE(company_name, source, format_type)] *)
Definition same_key (company src fmt : string) (row : CacheRow) : bool :=
  String.eqb (c_company_name row) company
  && String.eqb (c_source row) src
  && String.eqb (c_format_type row) fmt.

Definition with_logo_cache (db : t) (rows : list CacheRow) (seq : Z) : t :=
  {| logo_cache := rows; search_history := search_history db;
     favorites := favorites db; seq_logo_cache := seq;
     seq_search_history := seq_search_history db;
     seq_favorites := seq_favorites db |}.

(** [add_to_cache]: [INSERT OR REPLACE].  A width, height or score that
    does not bind raises [OverflowError] and nothing is written.  A [None]
    in a [NOT NULL] column makes the statement fail
    ([sqlite3.IntegrityError]): nothing is written and the method answers
    [False].  Otherwise the rows in conflict on the unique key are deleted
    and the new row is inserted, with the next id and the clock's time. *)
Definition add_to_cache (now : Z) (db : t) (logo_result : LogoResult)
  : t * answer bool :=
  if negb (binds logo_result) then (db, OverflowError) else
  match source logo_result, format_type logo_result with
  | Some src, Some fmt =>
      let company := company_name logo_result in
      let kept :=
        List.filter (fun row => negb (same_key company src fmt row))
          (logo_cache db) in
      let row :=
        {| c_id := seq_logo_cache db + 1;
           c_company_name := company;
           c_source := src;
           c_format_type := fmt;
           c_image_data := image_data logo_result;
           c_image_url := image_url logo_result;
           c_width := width logo_result;
           c_height := height logo_result;
           c_score := stored_score (score logo_result);
           c_timestamp := now |} in
      (with_logo_cache db (kept ++ [row]) (seq_logo_cache db + 1),
       Answer true)
  | _, _ => (db, Answer false)
  end.

(** [ORDER BY score DESC], as an insertion sort that keeps rows of equal
    score in table order (SQL leaves the order of such rows open, and
    nothing here depends on it) *)
Fixpoint insert_by_score (row : CacheRow) (sorted : list CacheRow)
  : list CacheRow :=
  match sorted with
  | [] => [row]
  | r :: rest =>
      if Qle_bool (c_score row) (c_score r)
      then r :: insert_by_score row rest
      else row :: sorted
  end.

Definition order_by_score_desc (rows : list CacheRow) : list CacheRow :=
  fold_left (fun sorted row => insert_by_score row sorted) rows [].

Definition result_of_row (row : CacheRow) : LogoResult :=
  {| company_name := c_company_name row;
     image_data := c_image_data row;
     image_url := c_image_url row;
     source := Some (c_source row);
     format_type := Some (c_format_type row);
     width := c_width row;
     height := c_height row;
     file_path := None;
     score := c_score row;
     metadata := [] |}.

(** [get_from_cache] *)
Definition get_from_cache (now : Z) (db : t) (company : string)
    (max_age_days : Z) : list LogoResult :=
  map result_of_row
    (order_by_score_desc
       (List.filter
          (fun row =>
             String.eqb (c_company_name row) company
             && younger_than now max_age_days (c_timestamp row))
          (logo_cache db))).

(** the statement of [add_to_history], run with a count that is bound:
    [INSERT OR REPLACE] on [UNIQUE(company_name)] *)
Definition record_search (now : Z) (db : t) (company : string)
    (results_count : Z) : t :=
  let kept :=
    List.filter (fun row => negb (String.eqb (h_company_name row) company))
      (search_history db) in
  let row :=
    {| h_id := seq_search_history db + 1; h_company_name := company;
       h_timestamp := now; h_results_count := results_count |} in
  {| logo_cache := logo_cache db;
     search_history := kept ++ [row];
     favorites := favorites db;
     seq_logo_cache := seq_logo_cache db;
     seq_search_history := seq_search_history db + 1;
     seq_favorites := seq_favorites db |}.

(** [add_to_history]: a count that does not bind raises [OverflowError]
    and nothing is written *)
Definition add_to_history (now : Z) (db : t) (company : string)
    (results_count : Z) : t * answer bool :=
  if int64 results_count
  then (record_search now db company results_count, Answer true)
  else (db, OverflowError).

(** [add_to_favorites]: [INSERT OR REPLACE] on [UNIQUE(company_name)];
    [format_type] is [NOT NULL] *)
Definition add_to_favorites (now : Z) (db : t) (logo_result : LogoResult)
  : t * bool :=
  match format_type logo_result with
  | Some fmt =>
      let company := company_name logo_result in
      let kept :=
        List.filter
          (fun row => negb (String.eqb (f_company_name row) company))
          (favorites db) in
      let row :=
        {| f_id := seq_favorites db + 1; f_company_name := company;
           f_image_data := image_data logo_result; f_format_type := fmt;
           f_timestamp := now |} in
      ({| logo_cache := logo_cache db;
          search_history := search_history db;
          favorites := kept ++ [row];
          seq_logo_cache := seq_logo_cache db;
          seq_search_history := seq_search_history db;
          seq_favorites := seq_favorites db + 1 |}, true)
  | None => (db, false)
  end.

(** [clear_cache(max_age_days)]: with an age, the rows older than it are
    deleted; without, all of them *)
Definition clear_cache (now : Z) (db : t) (max_age_days : option Z)
  : t * bool :=
  match max_age_days with
  | Some days =>
      (with_logo_cache db
         (List.filter
            (fun row => negb (older_than now days (c_timestamp row)))
            (logo_cache db))
         (seq_logo_cache db), true)
  | None => (with_logo_cache db [] (seq_logo_cache db), true)
  end.

(** [ORDER BY timestamp DESC], as an insertion sort that keeps rows of equal
    time in table order *)
Fixpoint insert_by_time {A} (time : A -> Z) (row : A) (sorted : list A)
  : list A :=
  match sorted with
  | [] => [row]
  | r :: rest =>
      if time row <=? time r
      then r :: insert_by_time time row rest
      else row :: sorted
  end.

Definition order_by_time_desc {A} (time : A -> Z) (rows : list A) : list A :=
  fold_left (fun sorted row => insert_by_time time row sorted) rows [].

(** [LIMIT ?]: a negative limit is no limit *)
Definition limit_to {A} (limit : Z) (rows : list A) : list A :=
  if limit <? 0 then rows else firstn (Z.to_nat limit) rows.

(** [get_history]: the triples (company_name, timestamp, results_count); a
    limit that does not bind raises [OverflowError] *)
Definition get_history (db : t) (limit : Z)
  : answer (list (string * Z * Z)) :=
  if int64 limit then
    Answer
      (map (fun row =>
              (h_company_name row, h_timestamp row, h_results_count row))
         (limit_to limit (order_by_time_desc h_timestamp (search_history db))))
  else OverflowError.

(** [LogoResult(company_name=..., image_data=..., format_type=...)], the
    other attributes at their defaults *)
Definition favorite_of_row (row : FavoriteRow) : LogoResult :=
  {| company_name := f_company_name row;
     image_data := f_image_data row;
     image_url := None;
     source := None;
     format_type := Some (f_format_type row);
     width := None;
     height := None;
     file_path := None;
     score := 0;
     metadata := [] |}.

(** [get_favorites] *)
Definition get_favorites (db : t) : list LogoResult :=
  map favorite_of_row (order_by_time_desc f_timestamp (favorites db)).

(** [remove_from_favorites]: [DELETE FROM favorites WHERE company_name = ?] *)
Definition remove_from_favorites (db : t) (company : string) : t * bool :=
  ({| logo_cache := logo_cache db;
      search_history := search_history db;
      favorites :=
        List.filter (fun row => negb (String.eqb (f_company_name row) company))
          (favorites db);
      seq_logo_cache := seq_logo_cache db;
      seq_search_history := seq_search_history db;
      seq_favorites := seq_favorites db |}, true).

End Database.

(* ================================================================== *)
(** * The world outside: network and parsing libraries *)
(* ================================================================== *)

(** A value as [json.loads] builds it. *)
#[warnings="-register-all"] Inductive pyval :=
| PNone
| PBool (b : bool)
| PInt (z : Z)
| PFloat (q : Q)
| PStr (s : string)
| PList (l : list pyval)
| PDict (d : list (string * pyval)).

(** An attribute of a parsed HTML tag: a string, or a list of strings for
    the multi-valued attributes ([class]). *)
Inductive attr :=
| AStr (s : string)
| AList (l : list string).

Definition Tag := list (string * attr).

(** What [requests] hands back. *)
Record Response := {
  status_code : Z;
  content : string
}.

(** The libraries the adapters call, as they answer during one run of a
    worker.  [http_get headers url] is [session.get(url, headers=...)]:
    [None] when [requests] raises (time-out, refused connection, invalid
    URL).  [json_of body] is [response.json()], [None] when it raises.
    [find_all_img body] is [BeautifulSoup(response.text,
    'html.parser').find_all('img')].  [tldextract domain] is the pair
    [(parsed.domain, parsed.suffix)].  [quote] is [urllib.parse.quote],
    [int_of_str] is [int(s)] on a string ([None] for [ValueError]) and
    [now_iso] is [datetime.now().isoformat()]. *)
Record World := {
  http_get : list (string * string) -> string -> option Response;
  json_of : string -> option pyval;
  find_all_img : string -> list Tag;
  tldextract : string -> string * string;
  quote : string -> string;
  int_of_str : string -> option Z;
  str_of : pyval -> string;
  now_iso : string
}.

(* ================================================================== *)
(** * Python control flow: signals, exceptions, early return *)
(* ================================================================== *)

Module Py.

(** How a block of statements ends: it runs to its end, it executes
    [return b], or it raises an [Exception] whose text is [msg]. *)
Inductive completion (A : Type) :=
| Normal (a : A)
| Returns (b : bool)
| Raises (msg : string).
Arguments Normal {A} a.
Arguments Returns {A} b.
Arguments Raises {A} msg.

Section WithSignal.

Variable Signal : Type.

(** A block of statements of a method, started with a value of the
    method's local variable [success]: the signals it emits, oldest
    first, the value of [success] it leaves, and how it ends.  A signal
    that has been emitted is out of the method's hands. *)
Definition M (A : Type) : Type :=
  bool -> list Signal * bool * completion A.

Definition ret {A} (a : A) : M A := fun s => ([], s, Normal a).

Definition bind {A B} (m : M A) (k : A -> M B) : M B :=
  fun s =>
    match m s with
    | (out, s', Normal a) =>
        match k a s' with
        | (out', s'', c) => ((out ++ out')%list, s'', c)
        end
    | (out, s', Returns b) => (out, s', Returns b)
    | (out, s', Raises msg) => (out, s', Raises msg)
    end.

Definition raise {A} (msg : string) : M A := fun s => ([], s, Raises msg).

Definition return_ {A} (b : bool) : M A := fun s => ([], s, Returns b).

Definition emit (x : Signal) : M unit := fun s => ([x], s, Normal tt).

(** [success = b] *)
Definition set_success (b : bool) : M unit := fun _ => ([], b, Normal tt).

Definition get_success : M bool := fun s => ([], s, Normal s).

(** [try: body / except Exception as e: handler(str(e))]: what the body
    emitted and assigned before it raised stays *)
Definition try_with (body : M unit) (handler : string -> M unit)
  : M unit :=
  fun s =>
    match body s with
    | (out, s', Raises msg) =>
        match handler msg s' with
        | (out', s'', c) => ((out ++ out')%list, s'', c)
        end
    | other => other
    end.

(** [try: body / except Exception: (log)] *)
Definition try_ (body : M unit) : M unit :=
  try_with body (fun _ => ret tt).

(** [try: body / except cls: pass]: only the exception [cls] is
    dropped *)
Definition try_only (cls : string) (body : M unit) : M unit :=
  try_with body
    (fun msg => if String.eqb msg cls then ret tt else raise msg).

(** [try: x = body / except cls: pass], with [x = default] before it *)
Definition try_default {A} (cls : string) (body : M A) (default : A)
  : M A :=
  fun s =>
    match body s with
    | (out, s', Raises msg) =>
        if String.eqb msg cls then (out, s', Normal default)
        else (out, s', Raises msg)
    | other => other
    end.

Definition when (b : bool) (body : M unit) : M unit :=
  if b then body else ret tt.

(** [for x in l: body] *)
Fixpoint for_ {A} (l : list A) (body : A -> M unit) : M unit :=
  match l with
  | [] => ret tt
  | x :: l' => bind (body x) (fun _ => for_ l' body)
  end.

(** [[x for x in l if keep(x)]] *)
Fixpoint filter_m {A} (keep : A -> M bool) (l : list A) : M (list A) :=
  match l with
  | [] => ret []
  | x :: l' =>
      bind (keep x) (fun b =>
      bind (filter_m keep l') (fun rest =>
      ret (if b then x :: rest else rest)))
  end.

(** an [option] answered by a library: [None] is the exception *)
Definition or_raise {A} (msg : string) (o : option A) : M A :=
  match o with
  | Some a => ret a
  | None => raise msg
  end.

(** What the caller of a method sees. *)
Inductive outcome :=
| Returned (signals : list Signal) (value : bool)
| Raised (signals : list Signal) (msg : string).

(** the call of a method whose body ends in [return value]: the method
    starts with locals of its own *)
Definition call (body : M bool) : outcome :=
  match body false with
  | (out, _, Normal b) => Returned out b
  | (out, _, Returns b) => Returned out b
  | (out, _, Raises msg) => Raised out msg
  end.

(** a call as a statement of the caller *)
Definition invoke (body : M bool) : M bool :=
  fun s =>
    match call body with
    | Returned out b => (out, s, Normal b)
    | Raised out msg => (out, s, Raises msg)
    end.

(** the signals of a block *)
Definition signals {A} (m : M A) : list Signal := fst (fst (m false)).

End WithSignal.

Arguments ret {Signal A} a.
Arguments bind {Signal A B} m k.
Arguments raise {Signal A} msg.
Arguments return_ {Signal A} b.
Arguments emit {Signal} x.
Arguments set_success {Signal} b.
Arguments get_success {Signal}.
Arguments try_ {Signal} body.
Arguments try_only {Signal} cls body.
Arguments try_with {Signal} body handler.
Arguments try_default {Signal A} cls body default.
Arguments when {Signal} b body.
Arguments for_ {Signal A} l body.
Arguments filter_m {Signal A} keep l.
Arguments or_raise {Signal A} msg o.
Arguments Returned {Signal} signals value.
Arguments Raised {Signal} signals msg.
Arguments call {Signal} body.
Arguments invoke {Signal} body.
Arguments signals {Signal A} m.

(** ** The operators of Python on parsed JSON *)

(** [bool(v)] *)
Definition truthy (v : pyval) : bool :=
  match v with
  | PNone => false
  | PBool b => b
  | PInt z => negb (z =? 0)
  | PFloat q => negb (Qeq_bool q 0)
  | PStr s => negb (String.eqb s "")
  | PList l => match l with [] => false | _ => true end
  | PDict d => match d with [] => false | _ => true end
  end.

Fixpoint lookup (d : list (string * pyval)) (key : string) : option pyval :=
  match d with
  | [] => None
  | (k, v) :: d' => if String.eqb k key then Some v else lookup d' key
  end.

Definition chars (s : string) : list pyval :=
  map (fun c => PStr (String c "")) (list_ascii_of_string s).

(** [v == s] for a string literal [s] *)
Definition eq_str (v : pyval) (s : string) : bool :=
  match v with
  | PStr s' => String.eqb s' s
  | _ => false
  end.

(** the index [i] of a sequence of length [n], counted from the end when
    negative *)
Definition index_of (n : nat) (i : Z) : option nat :=
  if (0 <=? i) && (i <? Z.of_nat n) then Some (Z.to_nat i)
  else if (i <? 0) && (- Z.of_nat n <=? i) then Some (Z.to_nat (Z.of_nat n + i))
  else None.

Definition int_of_key (key : pyval) : option Z :=
  match key with
  | PInt z => Some z
  | PBool b => Some (if b then 1 else 0)
  | _ => None
  end.

Section Operators.

Variable Signal : Type.

(** [v.get(key, default)]: a method of dicts only *)
Definition get (v : pyval) (key : string) (default : pyval) : M Signal pyval :=
  match v with
  | PDict d =>
      ret (match lookup d key with Some x => x | None => default end)
  | _ => raise "AttributeError"
  end.

(** [v[key]] *)
Definition getitem (v key : pyval) : M Signal pyval :=
  match v, key with
  | PDict d, PStr k => or_raise "KeyError" (lookup d k)
  | PDict _, (PList _ | PDict _) => raise "TypeError"
  | PDict _, _ => raise "KeyError"
  | PList l, _ =>
      match int_of_key key with
      | Some i =>
          match index_of (List.length l) i with
          | Some n => or_raise "IndexError" (nth_error l n)
          | None => raise "IndexError"
          end
      | None => raise "TypeError"
      end
  | PStr s, _ =>
      match int_of_key key with
      | Some i =>
          match index_of (String.length s) i with
          | Some n => or_raise "IndexError" (nth_error (chars s) n)
          | None => raise "IndexError"
          end
      | None => raise "TypeError"
      end
  | _, _ => raise "TypeError"
  end.

(** [s in v] for a string literal [s] *)
Definition in_ (s : string) (v : pyval) : M Signal bool :=
  match v with
  | PDict d => ret (match lookup d s with Some _ => true | None => false end)
  | PList l => ret (existsb (fun x => eq_str x s) l)
  | PStr t => ret (PyStr.contains s t)
  | _ => raise "TypeError"
  end.

(** [len(v)] *)
Definition len (v : pyval) : M Signal Z :=
  match v with
  | PStr s => ret (Z.of_nat (String.length s))
  | PList l => ret (Z.of_nat (List.length l))
  | PDict d => ret (Z.of_nat (List.length d))
  | _ => raise "TypeError"
  end.

(** the values [for x in v] runs through *)
Definition iter (v : pyval) : M Signal (list pyval) :=
  match v with
  | PStr s => ret (chars s)
  | PList l => ret l
  | PDict d => ret (map (fun kv => PStr (fst kv)) d)
  | _ => raise "TypeError"
  end.

(** [v[:n]] *)
Definition slice_to (n : nat) (v : pyval) : M Signal pyval :=
  match v with
  | PStr s => ret (PStr (String.substring 0 n s))
  | PList l => ret (PList (firstn n l))
  | _ => raise "TypeError"
  end.

(** a value used where a [str] is needed: as the URL of a request, as
    the argument of [quote], as the receiver of [.lower()] *)
Definition as_str (msg : string) (v : pyval) : M Signal string :=
  match v with
  | PStr s => ret s
  | _ => raise msg
  end.

End Operators.

Arguments get {Signal} v key default.
Arguments getitem {Signal} v key.
Arguments in_ {Signal} s v.
Arguments len {Signal} v.
Arguments iter {Signal} v.
Arguments slice_to {Signal} n v.
Arguments as_str {Signal} msg v.

End Py.

(* ================================================================== *)
(** * LogoSearchWorker *)
(* ================================================================== *)

Module LogoSearchWorker.

Inductive Signal :=
| progress_update (message : string)
| search_result (result : LogoResult)
| search_complete (source_name : string) (success : bool).

(** the attributes set by [__init__]; the [requests] session it prepares
    (proxy, user agent) is the [World]'s *)
Record t := {
  w_source : Source;
  w_company_name : string;
  w_domains : list string;
  w_settings : Settings
}.

Definition M := Py.M Signal.

Notation "x <- m ;; k" := (Py.bind m (fun x => k))
  (at level 61, m at next level, right associativity).
Notation "m ;;; k" := (Py.bind m (fun _ => k))
  (at level 61, right associativity).

(** the pictographs of the progress messages, as their UTF-8 bytes *)
Definition bytes (l : list nat) : string :=
  string_of_list_ascii (map ascii_of_nat l).
Definition CHECK_MARK : string := bytes [226; 156; 133]%nat.
Definition CROSS_MARK : string := bytes [226; 157; 140]%nat.
Definition WARNING_SIGN : string := bytes [226; 154; 160; 239; 184; 143]%nat.

(** [LogoResult(company_name=..., image_data=..., image_url=...,
    source=..., format_type=..., score=...)] *)
Definition new_result (company data url src fmt : string) (s : Q)
  : LogoResult :=
  {| company_name := company; image_data := Some data;
     image_url := Some url; source := Some src; format_type := Some fmt;
     width := None; height := None; file_path := None; score := s;
     metadata := [] |}.

(** the object [add_result] emits: the result with its score raised by the
    base quality of the worker's source, by ten more for an SVG, and with
    the two metadata entries set *)
Definition scored (self : t) (found_time : string) (result : LogoResult)
  : LogoResult :=
  let result :=
    set_score result
      (score result + inject_Z (base_quality (w_source self)))%Q in
  let result :=
    match format_type result with
    | Some fmt =>
        if String.eqb fmt "svg"
        then set_score result (score result + 10)%Q
        else result
    | None => result
    end in
  let result := set_metadata result "source" (name (w_source self)) in
  set_metadata result "found_time" found_time.

Definition add_result (w : World) (self : t) (result : LogoResult) : M unit :=
  Py.emit (search_result (scored self (now_iso w) result)).

Definition session_get (w : World) (headers : list (string * string))
    (url : string) : M Response :=
  Py.or_raise "RequestException" (http_get w headers url).

(** [response.json()] *)
Definition json (w : World) (response : Response) : M pyval :=
  Py.or_raise "JSONDecodeError" (json_of w (content response)).

Definition ok (response : Response) : bool := status_code response =? 200.

(** a value interpolated in an f-string *)
Definition format (w : World) (v : pyval) : string :=
  match v with
  | PStr s => s
  | _ => str_of w v
  end.

(** [format_type = 'png'], unless the URL ends in [.svg], [.jpg] or
    [.jpeg] *)
Definition format_of_url (url : string) : string :=
  if PyStr.endswith (PyStr.lower url) ".svg" then "svg"
  else if PyStr.endswith (PyStr.lower url) ".jpg"
          || PyStr.endswith (PyStr.lower url) ".jpeg" then "jpg"
  else "png".

(** ** SimpleIcons *)

Definition search_simpleicons (w : World) (self : t) : M bool :=
  let lowered := PyStr.lower (w_company_name self) in
  let variations :=
    [ PyStr.replace_char " " "" lowered;
      PyStr.replace_char " " "-" lowered;
      PyStr.join "" (map PyStr.first_char (PyStr.split lowered)) ] in
  Py.set_success false ;;;
  Py.for_ variations (fun slug =>
    let slug :=
      PyStr.filter (fun c => PyStr.isalnum c || Ascii.eqb c "-") slug in
    let url :=
      "https://cdn.jsdelivr.net/npm/simple-icons@v9/icons/" ++ slug
      ++ ".svg" in
    Py.try_ (
      response <- session_get w [] url ;;
      Py.when (ok response) (
        add_result w self
          (new_result (w_company_name self) (content response) url
             "SimpleIcons" "svg" 10) ;;;
        Py.emit (progress_update
                   (CHECK_MARK ++ " Found logo in Simple Icons repository")) ;;;
        Py.set_success true))) ;;;
  Py.get_success.

(** ** Brandfetch *)

(** one of the two loops over [formats]: [for fmt in formats: if
    fmt.get('format') == kind and fmt.get('src') and
    self.settings.get('download_<kind>', True): ...] *)
Definition fetch_format (w : World) (self : t) (kind : string)
    (wanted : bool) (base : Q) (message : string) (fmt : pyval) : M unit :=
  declared <- Py.get fmt "format" PNone ;;
  src <- (if Py.eq_str declared kind then Py.get fmt "src" PNone
          else Py.ret PNone) ;;
  Py.when (Py.eq_str declared kind && Py.truthy src && wanted) (
    url <- Py.as_str "MissingSchema" src ;;
    response <- session_get w [] url ;;
    Py.when (ok response) (
      add_result w self
        (new_result (w_company_name self) (content response) url
           "Brandfetch" kind base) ;;;
      Py.emit (progress_update message) ;;;
      Py.set_success true)).

(** the handling of [brand_data], which the method spells out twice: with
    the scores 15 and 20 under an API key, 10 and 15 without *)
Definition process_brand_data (w : World) (self : t) (png_score svg_score : Q)
    (origin : string) (brand_data : pyval) : M unit :=
  logos <- Py.get brand_data "logos" (PList []) ;;
  count <- (if Py.truthy logos then Py.len logos else Py.ret 0) ;;
  Py.when (Py.truthy logos && (0 <? count)) (
    each_logo <- Py.iter logos ;;
    Py.for_ each_logo (fun logo =>
      kind <- Py.get logo "type" PNone ;;
      formats <- (if Py.eq_str kind "logo" then Py.get logo "formats" PNone
                  else Py.ret PNone) ;;
      Py.when (Py.eq_str kind "logo" && Py.truthy formats) (
        each_format <- Py.iter formats ;;
        Py.for_ each_format
          (fetch_format w self "png"
             (get (download_png (w_settings self)) true) png_score
             (CHECK_MARK ++ " Found PNG logo from " ++ origin)) ;;;
        Py.for_ each_format
          (fetch_format w self "svg"
             (get (download_svg (w_settings self)) true) svg_score
             (CHECK_MARK ++ " Found SVG logo from " ++ origin))))).

Definition search_brandfetch (w : World) (self : t) : M bool :=
  Py.set_success false ;;;
  let api_key := get (brandfetch_api_key (w_settings self)) "" in
  (if negb (String.eqb api_key "") then
     let headers := [("Authorization", "Bearer " ++ api_key)] in
     Py.for_ (firstn 3 (w_domains self)) (fun domain =>
       Py.try_ (
         let (parsed_domain, parsed_suffix) := tldextract w domain in
         Py.when (negb (String.eqb parsed_domain "")
                  && negb (String.eqb parsed_suffix "")) (
           let clean_domain := parsed_domain ++ "." ++ parsed_suffix in
           let brand_url :=
             "https://api.brandfetch.io/v2/brands/" ++ clean_domain in
           brand_response <- session_get w headers brand_url ;;
           Py.when (ok brand_response) (
             brand_data <- json w brand_response ;;
             process_brand_data w self 15 20 "Brandfetch API" brand_data))))
   else
     Py.for_ (firstn 3 (w_domains self)) (fun domain =>
       Py.try_ (
         let search_url :=
           "https://api.brandfetch.io/v2/search/" ++ quote w domain in
         response <- session_get w [] search_url ;;
         Py.when (ok response) (
           data <- json w response ;;
           count <- (if Py.truthy data then Py.len data else Py.ret 0) ;;
           Py.when (Py.truthy data && (0 <? count)) (
             first <- Py.getitem data (PInt 0) ;;
             found_domain <- Py.get first "domain" PNone ;;
             Py.when (Py.truthy found_domain) (
               let brand_url :=
                 "https://api.brandfetch.io/v2/brands/"
                 ++ format w found_domain in
               brand_response <- session_get w [] brand_url ;;
               Py.when (ok brand_response) (
                 brand_data <- json w brand_response ;;
                 process_brand_data w self 10 15 "Brandfetch"
                   brand_data))))))) ;;;
  Py.get_success.

(** ** Clearbit *)

Definition search_clearbit (w : World) (self : t) : M bool :=
  Py.set_success false ;;;
  Py.for_ (w_domains self) (fun domain =>
    Py.try_ (
      let (parsed_domain, parsed_suffix) := tldextract w domain in
      Py.when (negb (String.eqb parsed_domain "")
               && negb (String.eqb parsed_suffix "")) (
        let clean_domain := parsed_domain ++ "." ++ parsed_suffix in
        let url := "https://logo.clearbit.com/" ++ clean_domain ++ "?size=512" in
        response <- session_get w [] url ;;
        Py.when (ok response) (
          add_result w self
            (new_result (w_company_name self) (content response) url
               "Clearbit" "png" 5) ;;;
          Py.emit (progress_update
                     (CHECK_MARK ++ " Found logo from Clearbit ("
                      ++ clean_domain ++ ")")) ;;;
          Py.set_success true)))) ;;;
  Py.get_success.

(** ** Wikipedia *)

Definition api : string := "https://en.wikipedia.org/w/api.php?action=query".

(** [key in v and len(v[key]) > 0] *)
Definition has_nonempty (key : string) (v : pyval) : M bool :=
  present <- Py.in_ key v ;;
  if present then
    inner <- Py.getitem v (PStr key) ;;
    count <- Py.len inner ;;
    Py.ret (0 <? count)
  else Py.ret false.

(** [img['title'].lower()] contains [logo] or [icon] *)
Definition is_logo_image (img : pyval) : M bool :=
  title <- Py.getitem img (PStr "title") ;;
  title <- Py.as_str "AttributeError" title ;;
  Py.ret (PyStr.contains "logo" (PyStr.lower title)
          || PyStr.contains "icon" (PyStr.lower title)).

Definition search_wikipedia (w : World) (self : t) : M bool :=
  Py.try_ (
    let search_url :=
      api ++ "&list=search&srsearch=" ++ quote w (w_company_name self)
      ++ "&format=json" in
    search_response <- session_get w [] search_url ;;
    Py.when (ok search_response) (
      search_data <- json w search_response ;;
      has_query <- Py.in_ "query" search_data ;;
      found <- (if has_query then
                  query <- Py.getitem search_data (PStr "query") ;;
                  has_nonempty "search" query
                else Py.ret false) ;;
      Py.when found (
        query <- Py.getitem search_data (PStr "query") ;;
        hits <- Py.getitem query (PStr "search") ;;
        hit <- Py.getitem hits (PInt 0) ;;
        page_title <- Py.getitem hit (PStr "title") ;;
        page_title <- Py.as_str "TypeError" page_title ;;
        let page_url :=
          api ++ "&prop=images&titles=" ++ quote w page_title
          ++ "&format=json" in
        page_response <- session_get w [] page_url ;;
        Py.when (ok page_response) (
          page_data <- json w page_response ;;
          query <- Py.get page_data "query" (PDict []) ;;
          pages <- Py.get query "pages" (PDict []) ;;
          page_ids <- Py.iter pages ;;
          Py.for_ page_ids (fun page_id =>
            page <- Py.getitem pages page_id ;;
            has_images <- Py.in_ "images" page ;;
            Py.when has_images (
              images <- Py.getitem page (PStr "images") ;;
              images <- Py.iter images ;;
              logo_images <- Py.filter_m is_logo_image images ;;
              match logo_images with
              | [] => Py.ret tt
              | first_logo :: _ =>
                  image_title <- Py.getitem first_logo (PStr "title") ;;
                  image_title <- Py.as_str "TypeError" image_title ;;
                  let img_url :=
                    api ++ "&prop=imageinfo&iiprop=url&titles="
                    ++ quote w image_title ++ "&format=json" in
                  img_response <- session_get w [] img_url ;;
                  Py.when (ok img_response) (
                    img_data <- json w img_response ;;
                    query <- Py.get img_data "query" (PDict []) ;;
                    img_pages <- Py.get query "pages" (PDict []) ;;
                    img_page_ids <- Py.iter img_pages ;;
                    Py.for_ img_page_ids (fun img_page_id =>
                      img_page <- Py.getitem img_pages img_page_id ;;
                      has_info <- has_nonempty "imageinfo" img_page ;;
                      Py.when has_info (
                        infos <- Py.getitem img_page (PStr "imageinfo") ;;
                        info <- Py.getitem infos (PInt 0) ;;
                        image_url <- Py.getitem info (PStr "url") ;;
                        image_url <- Py.as_str "MissingSchema" image_url ;;
                        img_content_response <- session_get w [] image_url ;;
                        Py.when (ok img_content_response) (
                          add_result w self
                            (new_result (w_company_name self)
                               (content img_content_response) image_url
                               "Wikipedia" (format_of_url image_url) 10) ;;;
                          Py.emit (progress_update
                                     (CHECK_MARK
                                      ++ " Found logo from Wikipedia")) ;;;
                          Py.return_ true))))
              end)))))) ;;;
  Py.ret false.

(** ** The placeholders *)

Definition search_branddb (w : World) (self : t) : M bool := Py.ret false.

Definition search_socialmedia (w : World) (self : t) : M bool := Py.ret false.

Definition search_vectordb (w : World) (self : t) : M bool := Py.ret false.

(** ** CompanyWebsite *)

(** [img.get(key, default)] *)
Fixpoint tag_get (img : Tag) (key : string) (default : attr) : attr :=
  match img with
  | [] => default
  | (k, v) :: img' => if String.eqb k key then v else tag_get img' key default
  end.

Definition attr_truthy (a : attr) : bool :=
  match a with
  | AStr s => negb (String.eqb s "")
  | AList l => match l with [] => false | _ => true end
  end.

(** ['logo' in a.lower()]: a list has no [lower] *)
Definition mentions_logo (a : attr) : M bool :=
  match a with
  | AStr s => Py.ret (PyStr.contains "logo" (PyStr.lower s))
  | AList _ => Py.raise "AttributeError"
  end.

(** [int(a)] *)
Definition to_int (w : World) (a : attr) : M Z :=
  match a with
  | AStr s => Py.or_raise "ValueError" (int_of_str w s)
  | AList _ => Py.raise "TypeError"
  end.

(** the heuristic score of one [<img>] *)
Definition img_score (w : World) (img : Tag) : M Z :=
  let img_class :=
    match tag_get img "class" (AList []) with
    | AList l => AStr (PyStr.join " " l)
    | AStr s => AStr s
    end in
  by_class <- mentions_logo img_class ;;
  by_id <- mentions_logo (tag_get img "id" (AStr "")) ;;
  by_alt <- mentions_logo (tag_get img "alt" (AStr "")) ;;
  by_src <- mentions_logo (tag_get img "src" (AStr "")) ;;
  let width := tag_get img "width" (AStr "") in
  let height := tag_get img "height" (AStr "") in
  let score :=
    (if by_class then 20 else 0) + (if by_id then 20 else 0)
    + (if by_alt then 15 else 0) + (if by_src then 10 else 0) in
  if attr_truthy width && attr_truthy height then
    in_window <-
      Py.try_default "ValueError"
        (wd <- to_int w width ;;
         ht <- to_int w height ;;
         Py.ret ((20 <=? wd) && (wd <=? 400) && (20 <=? ht) && (ht <=? 200)))
        false ;;
    Py.ret (if in_window then score + 10 else score)
  else Py.ret score.

(** the scan of [soup.find_all('img')] that fills [logo_candidates] *)
Fixpoint collect_candidates (w : World) (imgs : list Tag)
  : M (list (Tag * Z)) :=
  match imgs with
  | [] => Py.ret []
  | img :: imgs' =>
      s <- img_score w img ;;
      rest <- collect_candidates w imgs' ;;
      Py.ret (if 20 <=? s then (img, s) :: rest else rest)
  end.

(** [logo_candidates.sort(key=lambda x: x[1], reverse=True)]: descending,
    candidates of equal score in their order of discovery *)
Fixpoint insert_candidate (c : Tag * Z) (sorted : list (Tag * Z))
  : list (Tag * Z) :=
  match sorted with
  | [] => [c]
  | d :: rest =>
      if snd c <=? snd d then d :: insert_candidate c rest
      else c :: sorted
  end.

Definition sort_candidates (l : list (Tag * Z)) : list (Tag * Z) :=
  fold_left (fun sorted c => insert_candidate c sorted) l [].

(** the absolute form of [src] under [domain] *)
Definition absolute (domain src : string) : string :=
  if PyStr.startswith src "http" then src
  else if PyStr.startswith src "//" then "https:" ++ src
  else if PyStr.startswith src "/" then PyStr.rstrip_char "/" domain ++ src
  else PyStr.rstrip_char "/" domain ++ "/" ++ src.

Definition search_companywebsite (w : World) (self : t) : M bool :=
  Py.set_success false ;;;
  Py.for_ (firstn 3 (w_domains self)) (fun domain =>
    Py.try_ (
      let domain :=
        if negb (PyStr.startswith domain "http") then "https://" ++ domain
        else domain in
      response <- session_get w [] domain ;;
      Py.when (ok response) (
        logo_candidates <-
          collect_candidates w (find_all_img w (content response)) ;;
        Py.for_ (firstn 3 (sort_candidates logo_candidates))
          (fun candidate =>
             let (img, score) := candidate : Tag * Z in
             let src := tag_get img "src" (AStr "") in
             Py.when (attr_truthy src) (
               src <- match src with
                      | AStr s => Py.ret s
                      | AList _ => Py.raise "AttributeError"
                      end ;;
               let src := absolute domain src in
               Py.try_ (
                 img_response <- session_get w [] src ;;
                 Py.when (ok img_response) (
                   add_result w self
                     (new_result (w_company_name self)
                        (content img_response) src "CompanyWebsite"
                        (format_of_url src) (inject_Z score / 10)%Q) ;;;
                   Py.emit (progress_update
                              (CHECK_MARK
                               ++ " Found logo on company website")) ;;;
                   Py.set_success true))))))) ;;;
  Py.get_success.

(** ** GoogleSearch, BingSearch, DuckDuckGo *)

(** the body of [for item in items:] that the three search adapters
    share: [image_url = item.get(key)]; [continue] when it is falsy;
    otherwise the download, in a [try] of its own *)
Definition download_item (w : World) (self : t) (key source_name : string)
    (message : string) (item : pyval) : M unit :=
  image_url <- Py.get item key PNone ;;
  Py.when (Py.truthy image_url) (
    Py.try_ (
      image_url <- Py.as_str "MissingSchema" image_url ;;
      img_response <- session_get w [] image_url ;;
      Py.when (ok img_response) (
        add_result w self
          (new_result (w_company_name self) (content img_response)
             image_url source_name (format_of_url image_url) 5) ;;;
        Py.emit (progress_update message) ;;;
        Py.set_success true))).

Definition search_googlesearch (w : World) (self : t) : M bool :=
  let api_key := get (google_api_key (w_settings self)) "" in
  let cx := get (google_cx (w_settings self)) "" in
  if String.eqb api_key "" || String.eqb cx "" then
    Py.emit (progress_update
               (WARNING_SIGN ++ " Google Search API key or CX not configured")) ;;;
    Py.ret false
  else
    Py.try_ (
      let query :=
        w_company_name self ++ " logo filetype:png OR filetype:svg" in
      let url :=
        "https://www.googleapis.com/customsearch/v1?q=" ++ quote w query
        ++ "&key=" ++ api_key ++ "&cx=" ++ cx ++ "&searchType=image&num=5" in
      response <- session_get w [] url ;;
      Py.when (ok response) (
        data <- json w response ;;
        items <- Py.get data "items" (PList []) ;;
        Py.when (Py.truthy items) (
          Py.set_success false ;;;
          each_item <- Py.iter items ;;
          Py.for_ each_item
            (download_item w self "link" "GoogleSearch"
               (CHECK_MARK ++ " Found logo from Google Search")) ;;;
          success <- Py.get_success ;;
          Py.return_ success))) ;;;
    Py.ret false.

Definition search_bingsearch (w : World) (self : t) : M bool :=
  let api_key := get (bing_api_key (w_settings self)) "" in
  if String.eqb api_key "" then
    Py.emit (progress_update
               (WARNING_SIGN ++ " Bing Search API key not configured")) ;;;
    Py.ret false
  else
    Py.try_ (
      let query :=
        w_company_name self ++ " logo filetype:png OR filetype:svg" in
      let url :=
        "https://api.bing.microsoft.com/v7.0/images/search?q="
        ++ quote w query ++ "&count=5" in
      let headers := [("Ocp-Apim-Subscription-Key", api_key)] in
      response <- session_get w headers url ;;
      Py.when (ok response) (
        data <- json w response ;;
        items <- Py.get data "value" (PList []) ;;
        Py.when (Py.truthy items) (
          Py.set_success false ;;;
          each_item <- Py.iter items ;;
          Py.for_ each_item
            (download_item w self "contentUrl" "BingSearch"
               (CHECK_MARK ++ " Found logo from Bing Search")) ;;;
          success <- Py.get_success ;;
          Py.return_ success))) ;;;
    Py.ret false.

Definition search_duckduckgo (w : World) (self : t) : M bool :=
  let search_term :=
    w_company_name self ++ " official logo"
    ++ (if get (download_svg (w_settings self)) true then " filetype:svg"
        else if get (download_png (w_settings self)) true then " filetype:png"
        else "") in
  Py.try_ (
    let url :=
      "https://duckduckgo.com/i.js?q=" ++ quote w search_term ++ "&o=json" in
    response <- session_get w [] url ;;
    Py.when (ok response) (
      Py.try_only "JSONDecodeError" (
        data <- json w response ;;
        found <- has_nonempty "results" data ;;
        Py.when found (
          Py.set_success false ;;;
          results <- Py.getitem data (PStr "results") ;;
          top <- Py.slice_to 5 results ;;
          each_result <- Py.iter top ;;
          Py.for_ each_result
            (download_item w self "image" "DuckDuckGo"
               (CHECK_MARK ++ " Found logo from DuckDuckGo search")) ;;;
          success <- Py.get_success ;;
          Py.return_ success)))) ;;;
  Py.ret false.

(** ** Dispatch *)

Definition Method : Type := World -> t -> M bool.

(** the callable attributes of a worker whose name starts with
    [search_] *)
Definition search_methods : list (string * Method) :=
  [ ("search_simpleicons", search_simpleicons);
    ("search_brandfetch", search_brandfetch);
    ("search_clearbit", search_clearbit);
    ("search_wikipedia", search_wikipedia);
    ("search_branddb", search_branddb);
    ("search_companywebsite", search_companywebsite);
    ("search_socialmedia", search_socialmedia);
    ("search_googlesearch", search_googlesearch);
    ("search_bingsearch", search_bingsearch);
    ("search_duckduckgo", search_duckduckgo);
    ("search_vectordb", search_vectordb) ].

(** [getattr(self, method_name)], when [hasattr] and [callable] agree *)
Fixpoint getattr (methods : list (string * Method)) (method_name : string)
  : option Method :=
  match methods with
  | [] => None
  | (n, m) :: methods' =>
      if String.eqb n method_name then Some m else getattr methods' method_name
  end.

(** [run], over the methods a worker class defines *)
Definition run_with (methods : list (string * Method)) (w : World)
    (self : t) : M unit :=
  let source_name := name (w_source self) in
  Py.emit (progress_update ("Searching " ++ source_name ++ "...")) ;;;
  Py.try_with
    (let method_name := "search_" ++ PyStr.lower source_name in
     match getattr methods method_name with
     | Some search_method =>
         success <- Py.invoke (search_method w self) ;;
         Py.emit (search_complete source_name success)
     | None =>
         Py.emit (progress_update
                    (CROSS_MARK ++ " Search method not implemented for "
                     ++ source_name)) ;;;
         Py.emit (search_complete source_name false)
     end)
    (fun e =>
       Py.emit (progress_update
                  (CROSS_MARK ++ " Error searching " ++ source_name ++ ": "
                   ++ e)) ;;;
       Py.emit (search_complete source_name false)).

Definition run (w : World) (self : t) : M unit :=
  run_with search_methods w self.

End LogoSearchWorker.

(* ================================================================== *)
(** * LogoSearchManager *)
(* ================================================================== *)

Module LogoSearchManager.

Inductive Signal :=
| progress_update (message : string)
| search_result (result : LogoResult)
| search_complete (success : bool) (results : list LogoResult).

(** The life of a worker thread, as the manager can tell: [Running] from
    [start()] on ([isRunning()] is true); [Terminated] once the manager has
    called [terminate()] on it; [Finished] once its [search_complete] has
    been handled.  Signals a worker sent before it was terminated may
    still be waiting in the manager's event queue. *)
Inductive ThreadState := Running | Terminated | Finished.

Record Thread := {
  worker : LogoSearchWorker.t;
  state : ThreadState
}.

Record t := {
  m_company_name : string;
  m_settings : Settings;
  db : Database.t;
  results : list LogoResult;
  workers : list Thread;
  completed_sources : list string;
  active_workers : Z;
  max_concurrent : Z;
  search_queue : list Source;
  m_domains : list string;
  (** the signals the manager has emitted, oldest first *)
  emitted : list Signal
}.

(** [__init__] *)
Definition init (company : string) (settings : Settings) (database : Database.t)
  : t :=
  {| m_company_name := company;
     m_settings := settings;
     db := database;
     results := [];
     workers := [];
     completed_sources := [];
     active_workers := 0;
     max_concurrent := get (concurrent_searches settings) 3;
     search_queue := [];
     m_domains := generate_company_domains company;
     emitted := [] |}.

Definition emit (s : Signal) (m : t) : t :=
  {| m_company_name := m_company_name m; m_settings := m_settings m;
     db := db m; results := results m; workers := workers m;
     completed_sources := completed_sources m;
     active_workers := active_workers m; max_concurrent := max_concurrent m;
     search_queue := search_queue m; m_domains := m_domains m;
     emitted := emitted m ++ [s] |}.

Definition with_results (m : t) (rs : list LogoResult) : t :=
  {| m_company_name := m_company_name m; m_settings := m_settings m;
     db := db m; results := rs; workers := workers m;
     completed_sources := completed_sources m;
     active_workers := active_workers m; max_concurrent := max_concurrent m;
     search_queue := search_queue m; m_domains := m_domains m;
     emitted := emitted m |}.

Definition with_db (m : t) (database : Database.t) : t :=
  {| m_company_name := m_company_name m; m_settings := m_settings m;
     db := database; results := results m; workers := workers m;
     completed_sources := completed_sources m;
     active_workers := active_workers m; max_concurrent := max_concurrent m;
     search_queue := search_queue m; m_domains := m_domains m;
     emitted := emitted m |}.

Definition with_workers (m : t) (ws : list Thread) (active : Z) : t :=
  {| m_company_name := m_company_name m; m_settings := m_settings m;
     db := db m; results := results m; workers := ws;
     completed_sources := completed_sources m;
     active_workers := active; max_concurrent := max_concurrent m;
     search_queue := search_queue m; m_domains := m_domains m;
     emitted := emitted m |}.

Definition with_queue (m : t) (queue : list Source) : t :=
  {| m_company_name := m_company_name m; m_settings := m_settings m;
     db := db m; results := results m; workers := workers m;
     completed_sources := completed_sources m;
     active_workers := active_workers m; max_concurrent := max_concurrent m;
     search_queue := queue; m_domains := m_domains m;
     emitted := emitted m |}.

Definition with_completed (m : t) (done : list string) : t :=
  {| m_company_name := m_company_name m; m_settings := m_settings m;
     db := db m; results := results m; workers := workers m;
     completed_sources := done;
     active_workers := active_workers m; max_concurrent := max_concurrent m;
     search_queue := search_queue m; m_domains := m_domains m;
     emitted := emitted m |}.

(** [start_worker]: a worker for [source] is created, connected, counted
    and started *)
Definition start_worker (m : t) (source : Source) : t :=
  let w :=
    {| LogoSearchWorker.w_source := source;
       LogoSearchWorker.w_company_name := m_company_name m;
       LogoSearchWorker.w_domains := m_domains m;
       LogoSearchWorker.w_settings := m_settings m |} in
  with_workers m (workers m ++ [{| worker := w; state := Running |}])
    (active_workers m + 1).

(** the loop of [start_workers], by recursion on the queue it drains *)
Fixpoint start_workers_from (queue : list Source) (m : t) : t :=
  match queue with
  | [] => with_queue m []
  | source :: rest =>
      if active_workers m <? max_concurrent m
      then start_workers_from rest (start_worker (with_queue m rest) source)
      else with_queue m queue
  end.

Definition start_workers (m : t) : t := start_workers_from (search_queue m) m.

(** [len(l)] *)
Definition len {A} (l : list A) : Z := Z.of_nat (List.length l).

Definition decimal (n : Z) : string :=
  NilZero.string_of_int (Z.to_int n).

(** the test before each of the two early exits *)
Definition enough (m : t) (count : Z) : bool :=
  (get (max_results (m_settings m)) 10 <=? count)
  && negb (get (search_all_sources (m_settings m)) true).

(** [self.results.append(result); self.search_result.emit(result)], for
    each cached result *)
Definition replay (m : t) (cache_results : list LogoResult) : t :=
  fold_left
    (fun m result =>
       emit (search_result result) (with_results m (results m ++ [result])))
    cache_results m.

(** [start_search]; [registry] is the module's list [LOGO_SOURCES] as it
    stands when the search starts *)
Definition start_search (registry : list Source) (now : Z) (m : t) : t :=
  let cache_results :=
    Database.get_from_cache now (db m) (m_company_name m)
      (get (cache_expiry_days (m_settings m)) 30) in
  let queue_up (m : t) :=
    start_workers
      (with_queue m (search_queue m ++ List.filter enabled registry)) in
  match cache_results with
  | [] => queue_up m
  | _ =>
      let m :=
        emit (progress_update
                ("Found " ++ decimal (len cache_results) ++ " logos in cache"))
          m in
      let m := replay m cache_results in
      if enough m (len cache_results)
      then emit (search_complete true (results m)) m
      else queue_up m
  end.

(** [worker.isRunning()] *)
Definition is_running (th : Thread) : bool :=
  match state th with
  | Running => true
  | _ => false
  end.

(** [worker.terminate()] on every worker that [isRunning()] *)
Definition terminate_running (ws : list Thread) : list Thread :=
  map (fun th =>
         if is_running th
         then {| worker := worker th; state := Terminated |}
         else th)
    ws.

(** [handle_search_result] *)
Definition handle_search_result (now : Z) (m : t) (result : LogoResult) : t :=
  let m := with_results m (results m ++ [result]) in
  let m := with_db m (fst (Database.add_to_cache now (db m) result)) in
  let m := emit (search_result result) m in
  if enough m (len (results m)) then
    let m := with_workers m (terminate_running (workers m)) (active_workers m) in
    emit (search_complete true (results m)) m
  else m.

(** [set.add] *)
Definition set_add (x : string) (s : list string) : list string :=
  if existsb (String.eqb x) s then s else s ++ [x].

(** [handle_search_complete].  The count it hands to [add_to_history] is
    the length of a list, which is at most [sys.maxsize] and binds: the call
    is the statement. *)
Definition handle_search_complete (now : Z) (m : t) (source_name : string)
    (success : bool) : t :=
  let m := with_completed m (set_add source_name (completed_sources m)) in
  let m := with_workers m (workers m) (active_workers m - 1) in
  let m := start_workers m in
  if (active_workers m =? 0)
     && match search_queue m with [] => true | _ => false end
  then
    let m :=
      with_db m
        (Database.record_search now (db m) (m_company_name m)
           (len (results m))) in
    emit (search_complete (0 <? len (results m)) (results m)) m
  else m.

(** ** The signals that reach the manager

    The workers' signals are handled one at a time, in the manager's
    thread.  A worker that has been started and whose completion has not
    been handled yet may deliver a result or its completion. *)

Inductive Event :=
| Result (i : nat) (result : LogoResult)
| Complete (i : nat) (success : bool).

Definition pending (th : Thread) : bool :=
  match state th with
  | Finished => false
  | _ => true
  end.

Fixpoint finish (i : nat) (ws : list Thread) : list Thread :=
  match ws, i with
  | [], _ => []
  | th :: ws', O => {| worker := worker th; state := Finished |} :: ws'
  | th :: ws', S i' => th :: finish i' ws'
  end.

(** the manager's reaction to an event at time [now]; [None] when the
    event cannot occur *)
Definition deliver (now : Z) (m : t) (e : Event) : option t :=
  match e with
  | Result i result =>
      match nth_error (workers m) i with
      | Some th =>
          if pending th then Some (handle_search_result now m result)
          else None
      | None => None
      end
  | Complete i success =>
      match nth_error (workers m) i with
      | Some th =>
          if pending th then
            Some (handle_search_complete now
                    (with_workers m (finish i (workers m)) (active_workers m))
                    (name (LogoSearchWorker.w_source (worker th))) success)
          else None
      | None => None
      end
  end.

(** the states of a manager created as [m0] *)
Inductive reachable (registry : list Source) (m0 : t) : t -> Prop :=
| reach_init : reachable registry m0 m0
| reach_start now : reachable registry m0 (start_search registry now m0)
| reach_deliver now e m m' :
    reachable registry m0 m ->
    deliver now m e = Some m' ->
    reachable registry m0 m'.

(** the workers whose thread runs *)
Definition running (m : t) : list Thread :=
  List.filter is_running (workers m).

Definition is_complete (s : Signal) : bool :=
  match s with
  | search_complete _ _ => true
  | _ => false
  end.

(** the completion events emitted so far *)
Definition completions (m : t) : list Signal :=
  List.filter is_complete (emitted m).

(** the History Entries of the manager's company *)
Definition history_entries (m : t) : list Database.HistoryRow :=
  List.filter
    (fun row => String.eqb (Database.h_company_name row) (m_company_name m))
    (Database.search_history (db m)).

End LogoSearchManager.

(* ================================================================== *)
(** * Vocabulary of the properties *)
(* ================================================================== *)

(** [result.format_type == 'svg'] *)
Definition is_svg (r : LogoResult) : bool :=
  match format_type r with
  | Some fmt => String.eqb fmt "svg"
  | None => false
  end.

(** a world in which every request is answered [200] with the body
    [body] and no body parses as JSON or holds an image tag *)
Definition serving (body : string) : World :=
  {| http_get := fun _ _ => Some {| status_code := 200; content := body |};
     json_of := fun _ => None;
     find_all_img := fun _ => [];
     tldextract := fun domain => (domain, "com");
     quote := fun s => s;
     int_of_str := fun _ => None;
     str_of := fun _ => "";
     now_iso := "2024-01-01T00:00:00" |}.

(** a worker for [source], searching for [Acme] with no settings *)
Definition worker_for (source : Source) : LogoSearchWorker.t :=
  {| LogoSearchWorker.w_source := source;
     LogoSearchWorker.w_company_name := "Acme";
     LogoSearchWorker.w_domains := generate_company_domains "Acme";
     LogoSearchWorker.w_settings := no_settings |}.

(** the completion signals and the candidates among a worker's signals *)
Definition is_completion (s : LogoSearchWorker.Signal) : bool :=
  match s with
  | LogoSearchWorker.search_complete _ _ => true
  | _ => false
  end.

Definition is_candidate (s : LogoSearchWorker.Signal) : bool :=
  match s with
  | LogoSearchWorker.search_result _ => true
  | _ => false
  end.

(** a block that emits no completion signal, however it is started *)
Definition quiet {A} (m : LogoSearchWorker.M A) : Prop :=
  forall s, List.filter is_completion (fst (fst (m s))) = [].

(** a worker class whose method for the source [Acme] emits a candidate and
    then raises *)
Definition failing_methods : list (string * LogoSearchWorker.Method) :=
  [("search_acme",
    fun w self =>
      Py.bind
        (LogoSearchWorker.add_result w self
           (LogoSearchWorker.new_result "Acme" "data" "u" "Acme" "png" 5))
        (fun _ => Py.raise "boom"))].

Definition acme_source : Source :=
  {| name := "Acme"; priority := 1; base_quality := 50; enabled := true |}.

(** the three progress messages of [run] *)
Definition searching (source_name : string) : LogoSearchWorker.Signal :=
  LogoSearchWorker.progress_update ("Searching " ++ source_name ++ "...").

Definition error_report (source_name e : string) : LogoSearchWorker.Signal :=
  LogoSearchWorker.progress_update
    (LogoSearchWorker.CROSS_MARK ++ " Error searching " ++ source_name ++ ": "
     ++ e).

Definition not_implemented (source_name : string) : LogoSearchWorker.Signal :=
  LogoSearchWorker.progress_update
    (LogoSearchWorker.CROSS_MARK ++ " Search method not implemented for "
     ++ source_name).

(** the name [run] looks up for a source *)
Definition method_name_of (source : Source) : string :=
  "search_" ++ PyStr.lower (name source).

(** what ties the manager's counter to its threads: [active_workers] counts
    the workers whose completion has not been handled, and it is at most
    [bound], the configured number of concurrent searches *)
Definition counted (bound : Z) (m : LogoSearchManager.t) : Prop :=
  LogoSearchManager.max_concurrent m = bound
  /\ LogoSearchManager.active_workers m
     = Z.of_nat
         (List.length
            (List.filter LogoSearchManager.pending (LogoSearchManager.workers m)))
  /\ LogoSearchManager.active_workers m <= bound.

(** the settings of a search that stops at the first result *)
Definition first_result_only : Settings :=
  {| concurrent_searches := Some 2; cache_expiry_days := None;
     max_results := Some 1; search_all_sources := Some false;
     download_png := None; download_svg := None;
     brandfetch_api_key := None; google_api_key := None;
     google_cx := None; bing_api_key := None |}.

(** two candidates for [Acme], as the SimpleIcons and the Brandfetch adapter
    emit them *)
Definition acme_logo : LogoResult :=
  LogoSearchWorker.scored
    (worker_for {| name := "SimpleIcons"; priority := 5; base_quality := 80;
                   enabled := true |})
    "2024-01-01T00:00:00"
    (LogoSearchWorker.new_result "Acme" "<svg/>"
       "https://cdn.jsdelivr.net/npm/simple-icons@v9/icons/acme.svg"
       "SimpleIcons" "svg" 10).

Definition acme_brand : LogoResult :=
  LogoSearchWorker.scored
    (worker_for {| name := "Brandfetch"; priority := 10; base_quality := 90;
                   enabled := true |})
    "2024-01-01T00:00:01"
    (LogoSearchWorker.new_result "Acme" "png-bytes"
       "https://asset.brandfetch.io/acme.png" "Brandfetch" "png" 10).

(** a store whose cache holds [acme_logo], written at time 50 *)
Definition warm_db : Database.t :=
  fst (Database.add_to_cache 50 Database.init_db acme_logo).

(** the registry with every source switched off *)
Definition all_disabled : list Source :=
  map (fun s => {| name := name s; priority := priority s;
                   base_quality := base_quality s; enabled := false |})
    LOGO_SOURCES.

(** settings with every API key present *)
Definition keyed_settings : Settings :=
  {| concurrent_searches := None; cache_expiry_days := None;
     max_results := None; search_all_sources := None;
     download_png := None; download_svg := None;
     brandfetch_api_key := Some "bf-key"; google_api_key := Some "g-key";
     google_cx := Some "g-cx"; bing_api_key := Some "b-key" |}.

Definition keyed_worker (source : Source) : LogoSearchWorker.t :=
  {| LogoSearchWorker.w_source := source;
     LogoSearchWorker.w_company_name := "Acme";
     LogoSearchWorker.w_domains := ["acme.com"];
     LogoSearchWorker.w_settings := keyed_settings |}.

(** A world in which every service knows a logo of Acme.  Every request is
    answered [200] and the body names the URL asked for; the JSON documents
    are told apart by that URL. *)
Definition logo_everywhere : World :=
  let link (key : string) :=
    PList [PDict [(key, PStr "https://static.acme.com/logo.png")]] in
  {| http_get := fun _ url => Some {| status_code := 200; content := url |};
     json_of := fun body =>
       if PyStr.contains "brandfetch.io/v2/brands/" body then
         Some (PDict
                 [("logos",
                   PList [PDict [("type", PStr "logo");
                                 ("formats",
                                  PList [PDict [("format", PStr "png");
                                                ("src",
                                                 PStr "https://static.acme.com/logo.png")]])]])])
       else if PyStr.contains "list=search" body then
         Some (PDict [("query",
                       PDict [("search", PList [PDict [("title", PStr "Acme")]])])])
       else if PyStr.contains "prop=images" body then
         Some (PDict [("query",
                       PDict [("pages",
                               PDict [("42",
                                       PDict [("images",
                                               PList [PDict [("title",
                                                              PStr "File:Acme logo.svg")]])])])])])
       else if PyStr.contains "prop=imageinfo" body then
         Some (PDict [("query",
                       PDict [("pages",
                               PDict [("-1",
                                       PDict [("imageinfo", link "url")])])])])
       else if PyStr.contains "googleapis.com" body then
         Some (PDict [("items", link "link")])
       else if PyStr.contains "bing.microsoft.com" body then
         Some (PDict [("value", link "contentUrl")])
       else if PyStr.contains "duckduckgo.com" body then
         Some (PDict [("results", link "image")])
       else None;
     find_all_img := fun _ =>
       [[("class", AList ["site-logo"]); ("src", AStr "/img/logo.svg")]];
     tldextract := fun _ => ("acme", "com");
     quote := fun s => s;
     int_of_str := fun _ => None;
     str_of := fun _ => "";
     now_iso := "2024-01-01T00:00:00" |}.

(** a source whose adapter is a placeholder: its search method returns
    [False] and emits no candidate, whatever the world and the worker *)
Definition placeholder (source : Source) : Prop :=
  exists method,
    LogoSearchWorker.getattr LogoSearchWorker.search_methods
      (method_name_of source) = Some method
    /\ forall w self,
         exists out,
           Py.call (method w self) = Py.Returned out false
           /\ List.filter is_candidate out = [].

(** the value and the number of candidates of a source's adapter in the
    world [logo_everywhere] *)
Definition finds_logo (source : Source) : option (bool * nat) :=
  match LogoSearchWorker.getattr LogoSearchWorker.search_methods
          (method_name_of source) with
  | Some method =>
      match Py.call (method logo_everywhere (keyed_worker source)) with
      | Py.Returned out value =>
          Some (value, List.length (List.filter is_candidate out))
      | Py.Raised _ _ => None
      end
  | None => None
  end.

(** the columns of the unique key of [logo_cache] *)
Definition cache_key (row : Database.CacheRow) : string * string * string :=
  (Database.c_company_name row, Database.c_source row,
   Database.c_format_type row).

(** the rows a key (company, source, format) names, read off the columns *)
Definition under_key (company src fmt : string) (row : Database.CacheRow)
  : bool :=
  let '(c, s, f) := cache_key row in
  String.eqb c company && String.eqb s src && String.eqb f fmt.

(** what the schema asks of a table: the unique key occurs once, the primary
    key occurs once, and no id is above the table's [AUTOINCREMENT]
    counter *)
Definition table_ok {A K} (key : A -> K) (id : A -> Z) (seq : Z)
    (rows : list A) : Prop :=
  NoDup (map key rows) /\ NoDup (map id rows)
  /\ Forall (fun row => id row <= seq) rows.

Definition well_formed (db : Database.t) : Prop :=
  table_ok cache_key Database.c_id (Database.seq_logo_cache db)
    (Database.logo_cache db)
  /\ table_ok Database.h_company_name Database.h_id
       (Database.seq_search_history db) (Database.search_history db)
  /\ table_ok Database.f_company_name Database.f_id
       (Database.seq_favorites db) (Database.favorites db).

(** what of a candidate the cache keeps: not the file path and the
    metadata, and the score as the column stores it *)
Definition persisted (r : LogoResult) : LogoResult :=
  {| company_name := company_name r; image_data := image_data r;
     image_url := image_url r; source := source r;
     format_type := format_type r; width := width r; height := height r;
     file_path := None; score := Database.stored_score (score r);
     metadata := [] |}.

(** the rows of the cache that [get_from_cache] selects *)
Definition fresh_for (now : Z) (company : string) (max_age_days : Z)
    (row : Database.CacheRow) : bool :=
  String.eqb (Database.c_company_name row) company
  && Database.younger_than now max_age_days (Database.c_timestamp row).

(** the rows of a company stamped after a moment *)
Definition stamped_after (moment : Z) (company : string)
    (row : Database.CacheRow) : bool :=
  String.eqb (Database.c_company_name row) company
  && (moment <? Database.c_timestamp row).


Definition time_desc {A} (time : A -> Z) (a b : A) : Prop := time b <= time a.


(** history triples in descending order of time *)
Definition by_time_desc (a b : string * Z * Z) : Prop :=
  snd (fst b) <= snd (fst a).

(** a block whose signals all satisfy [P], however it is started *)
Definition emits {A} (P : LogoSearchWorker.Signal -> Prop)
    (m : LogoSearchWorker.M A) : Prop :=
  forall s, Forall P (fst (fst (m s))).

(** a block that ends without an exception, however it is started *)
Definition never_raises {A} (m : LogoSearchWorker.M A) : Prop :=
  forall s msg, snd (m s) <> Py.Raises msg.

(** the formats the adapters declare *)
Definition known_format (fmt : string) : Prop :=
  fmt = "png" \/ fmt = "svg" \/ fmt = "jpg".

(** the score an adapter gives a candidate: a float (the quotient of
    CompanyWebsite), or an int from 0 to 20 *)
Definition adapter_score (s : Q) : Prop :=
  Qden s <> 1%positive \/ 0 <= Qnum s <= 20.

(** a candidate as a worker for [self] sends it from the adapter of the
    source [src]: made out for the worker's company, with image data, the
    adapter's name, a known format and the two metadata entries of
    [add_result]; without a size, and with a score that is a float or an
    int at most 30 above the base quality of the worker's source *)
Definition tagged (w : World) (self : LogoSearchWorker.t) (src : string)
    (x : LogoSearchWorker.Signal) : Prop :=
  match x with
  | LogoSearchWorker.search_result r =>
      company_name r = LogoSearchWorker.w_company_name self
      /\ (exists data, image_data r = Some data)
      /\ source r = Some src
      /\ (exists fmt, format_type r = Some fmt /\ known_format fmt)
      /\ file_path r = None
      /\ metadata r
         = [("source", name (LogoSearchWorker.w_source self));
            ("found_time", now_iso w)]
      /\ width r = None /\ height r = None
      /\ (Qden (score r) <> 1%positive
          \/ 0 <= Qnum (score r)
                  - base_quality (LogoSearchWorker.w_source self) <= 30)
  | _ => True
  end.

(** a signal that the cache accepts, if it is a candidate *)
Definition cacheable (x : LogoSearchWorker.Signal) : Prop :=
  match x with
  | LogoSearchWorker.search_result r =>
      forall now db,
        snd (Database.add_to_cache now db r) = Database.Answer true
  | _ => True
  end.

(** how a block ends, whatever value it ends with *)
Inductive ending := ENormal | EReturns (b : bool) | ERaises.

Definition ending_of {A} (c : Py.completion A) : ending :=
  match c with
  | Py.Normal _ => ENormal
  | Py.Returns b => EReturns b
  | Py.Raises _ => ERaises
  end.

(** a relation between the value of [success] a block starts with, the
    signals it emits, the value of [success] it leaves and its ending *)
Definition Behaviour : Type :=
  bool -> list LogoSearchWorker.Signal -> bool -> ending -> Prop.

Definition holds {A} (R : Behaviour) (m : LogoSearchWorker.M A) : Prop :=
  forall s, match m s with (out, s', c) => R s out s' (ending_of c) end.

(** what lets a behaviour pass from statements to their sequence: silent
    steps have it, a progress message has it, and it carries over a block
    that ends normally or whose exception is handled *)
Record composable (R : Behaviour) : Prop := {
  comp_silent : forall s, R s [] s ENormal /\ R s [] s ERaises;
  comp_progress :
    forall s msg, R s [LogoSearchWorker.progress_update msg] s ENormal;
  comp_seq :
    forall s o1 s1 o2 s2 e,
      R s o1 s1 ENormal -> R s1 o2 s2 e -> R s (o1 ++ o2)%list s2 e;
  comp_handle :
    forall s o1 s1 o2 s2 e,
      R s o1 s1 ERaises -> R s1 o2 s2 e -> R s (o1 ++ o2)%list s2 e
}.

Definition has_candidate (out : list LogoSearchWorker.Signal) : bool :=
  existsb is_candidate out.

(** [success] is not set, and [True] not returned, without a candidate *)
Definition truthful : Behaviour :=
  fun s out s' e =>
    (s' = true -> s = true \/ has_candidate out = true)
    /\ (e = EReturns true -> s = true \/ has_candidate out = true).

(** [success] is set once a candidate is out, and stays set; there is no
    [return] *)
Definition sticky : Behaviour :=
  fun s out s' e =>
    (s = true \/ has_candidate out = true -> s' = true)
    /\ forall b, e <> EReturns b.

(** a candidate is followed by [return True] *)
Definition final : Behaviour :=
  fun s out s' e => has_candidate out = true -> e = EReturns true.

(** a world in which the image search answers with one good link and one
    entry that is no object *)
Definition half_broken : World :=
  {| http_get := fun _ url => Some {| status_code := 200; content := url |};
     json_of := fun _ =>
       Some (PDict [("items",
                     PList [PDict [("link",
                                    PStr "https://static.acme.com/logo.png")];
                            PInt 5])]);
     find_all_img := fun _ => [];
     tldextract := fun _ => ("acme", "com");
     quote := fun s => s;
     int_of_str := fun _ => None;
     str_of := fun _ => "";
     now_iso := "2024-01-01T00:00:00" |}.

(** the candidates among the signals of a manager, in order *)
Fixpoint payloads (trace : list LogoSearchManager.Signal) : list LogoResult :=
  match trace with
  | [] => []
  | LogoSearchManager.search_result r :: rest => r :: payloads rest
  | _ :: rest => payloads rest
  end.

(** a trace in which every completion carries the candidates emitted before
    it ([seen] are those emitted before the trace) and the flag that tells
    whether there are any *)
Fixpoint consistent (seen : list LogoResult)
    (trace : list LogoSearchManager.Signal) : Prop :=
  match trace with
  | [] => True
  | LogoSearchManager.search_result r :: rest =>
      consistent (seen ++ [r]) rest
  | LogoSearchManager.search_complete success rs :: rest =>
      rs = seen /\ success = (0 <? LogoSearchManager.len rs)
      /\ consistent seen rest
  | LogoSearchManager.progress_update _ :: rest => consistent seen rest
  end.

(** the invariant of the manager's signals: the candidates emitted are the
    results, and the trace is consistent *)
Definition streamed (m : LogoSearchManager.t) : Prop :=
  payloads (LogoSearchManager.emitted m) = LogoSearchManager.results m
  /\ consistent [] (LogoSearchManager.emitted m).

(** the sources the manager has started a worker for, in order *)
Definition started (m : LogoSearchManager.t) : list Source :=
  map (fun th => LogoSearchWorker.w_source (LogoSearchManager.worker th))
    (LogoSearchManager.workers m).

(** a registry of one source *)
Definition clearbit_only : list Source :=
  [{| name := "Clearbit"; priority := 8; base_quality := 75;
      enabled := true |}].

(** the manager of a search over [clearbit_only] whose one worker has
    reported that it found nothing *)
Definition drained_acme : LogoSearchManager.t :=
  let m :=
    LogoSearchManager.start_search clearbit_only 0
      (LogoSearchManager.init "Acme" no_settings Database.init_db) in
  match LogoSearchManager.deliver 5 m (LogoSearchManager.Complete 0 false) with
  | Some m' => m'
  | None => m
  end.

(* ================================================================== *)
(** * Properties of the domain generator *)
(* ================================================================== *)

Section DomainGenerator.

Lemma flushed_word_nonempty (c : ascii) (word : list ascii) :
  string_of_list_ascii (rev (c :: word)) <> "".
Proof.
  simpl. destruct (rev word) as [|x xs]; simpl; discriminate.
Qed.

(** the words [split] returns are never empty, so [part[0]] exists for
    every part *)
Lemma split_aux_words_nonempty (s : string) :
  forall word w, In w (PyStr.split_aux word s) -> w <> "".
Proof.
  induction s as [|c s IH]; intros word w Hin.
  - destruct word as [|x word]; simpl in Hin.
    + contradiction.
    + destruct Hin as [<-|[]]. apply flushed_word_nonempty.
  - simpl in Hin. destruct (PyStr.isspace c).
    + destruct word as [|x word].
      * eapply IH; eassumption.
      * destruct Hin as [<-|Hin].
        -- apply flushed_word_nonempty.
        -- eapply IH; eassumption.
    + eapply IH; eassumption.
Qed.

Lemma split_words_nonempty (s w : string) :
  In w (PyStr.split s) -> w <> "".
Proof. apply split_aux_words_nonempty. Qed.

Lemma in_list_set (l : list string) (x : string) :
  In x (PyStr.list_set l) <-> In x l.
Proof. apply nodup_In. Qed.



End DomainGenerator.



(** C7. On [Acme Inc] the generator strips the legal suffix [ inc] before it
    builds base names: the only base name is [acme], the set holds
    [acme.com], [acme.org], [acme.io], [acme.co], [acme.net] and the name as
    given, and nothing that starts with [acme-inc] or [acmeinc].  On
    [Google Cloud] the set holds the crossings of [googlecloud],
    [google-cloud], [gcloud] and [gc] with the TLDs, and [google.com], which
    no base name yields: it comes from the branch for well-known
    companies. *)
Theorem generate_company_domains_examples :
  clean_company_name "Acme Inc" = "acme"
  /\ base_names (name_parts_of "Acme Inc") = ["acme"; "acme"]
  /\ (forall d, In d (generate_company_domains "Acme Inc") <->
                In d ["acme.com"; "acme.org"; "acme.io"; "acme.co"; "acme.net";
                      "Acme Inc"])
  /\ (forall d, In d (generate_company_domains "Acme Inc") ->
                PyStr.startswith d "acme-inc" = false
                /\ PyStr.startswith d "acmeinc" = false)
  /\ base_names (name_parts_of "Google Cloud")
     = ["googlecloud"; "google-cloud"; "gcloud"; "gc"]
  /\ (forall d, In d (add_tlds (base_names (name_parts_of "Google Cloud"))) ->
                In d (generate_company_domains "Google Cloud"))
  /\ special_cases (clean_company_name "Google Cloud") = ["google.com"]
  /\ In "google.com" (generate_company_domains "Google Cloud")
  /\ ~ In "google.com" (add_tlds (base_names (name_parts_of "Google Cloud"))).
Proof.
  assert (Hacme : generate_company_domains "Acme Inc"
                  = ["acme.com"; "acme.org"; "acme.io"; "acme.co"; "acme.net";
                     "Acme Inc"]) by (vm_compute; reflexivity).
  split; [vm_compute; reflexivity|]. split; [vm_compute; reflexivity|]. split.
  { intros d. rewrite Hacme. tauto. }
  split.
  { intros d Hd. rewrite Hacme in Hd. simpl in Hd.
    repeat (destruct Hd as [<-|Hd]; [split; vm_compute; reflexivity|]).
    contradiction. }
  split; [vm_compute; reflexivity|]. split.
  { intros d. unfold generate_company_domains, name_parts_of, domain_candidates.
    generalize (clean_company_name "Google Cloud"). intros clean_name.
    cbv zeta. generalize (special_cases clean_name). intros special Hd.
    apply in_list_set, in_or_app. left. exact Hd. }
  split; [vm_compute; reflexivity|]. split.
  { vm_compute. tauto. }
  vm_compute. intros H.
  repeat (destruct H as [H|H]; [discriminate H|]). exact H.
Qed.

(* ================================================================== *)
(** * Properties of the cache store *)
(* ================================================================== *)

Section CacheStore.

Import Database.

Lemma under_key_refl (row : CacheRow) :
  under_key (c_company_name row) (c_source row) (c_format_type row) row
  = true.
Proof.
  unfold under_key, cache_key. rewrite !String.eqb_refl. reflexivity.
Qed.

(** after the rows that satisfy [f] are deleted, none of them is left, and
    the others are all there *)
Lemma deleted_are_gone {A} (f : A -> bool) (rows : list A) :
  List.filter f (List.filter (fun row => negb (f row)) rows) = [].
Proof.
  induction rows as [|row rows IH]; simpl; [reflexivity|].
  destruct (f row) eqn:E; simpl.
  - exact IH.
  - rewrite E. exact IH.
Qed.

Lemma others_are_kept {A} (f : A -> bool) (rows : list A) :
  List.filter (fun row => negb (f row))
    (List.filter (fun row => negb (f row)) rows)
  = List.filter (fun row => negb (f row)) rows.
Proof.
  induction rows as [|row rows IH]; simpl; [reflexivity|].
  destruct (f row) eqn:E; simpl.
  - exact IH.
  - rewrite E. simpl. rewrite IH. reflexivity.
Qed.

(** one write of a candidate that binds: it succeeds, leaves exactly one row
    under the key, the one it wrote, and every row under another key as it
    was *)
Lemma add_to_cache_row (now : Z) (db : t) (r : LogoResult)
    (src fmt : string) :
  binds r = true -> source r = Some src -> format_type r = Some fmt ->
  snd (add_to_cache now db r) = Answer true
  /\ (exists row,
        List.filter (under_key (company_name r) src fmt)
          (logo_cache (fst (add_to_cache now db r))) = [row]
        /\ c_image_data row = image_data r
        /\ result_of_row row = persisted r
        /\ c_timestamp row = now)
  /\ List.filter (fun row => negb (under_key (company_name r) src fmt row))
       (logo_cache (fst (add_to_cache now db r)))
     = List.filter (fun row => negb (under_key (company_name r) src fmt row))
         (logo_cache db).
Proof.
  intros Hb Hs Hf. unfold add_to_cache. rewrite Hb, Hs, Hf.
  cbn [negb fst snd logo_cache with_logo_cache].
  rewrite !filter_app.
  rewrite (deleted_are_gone (same_key (company_name r) src fmt)).
  rewrite (others_are_kept (same_key (company_name r) src fmt)).
  cbn [List.filter c_company_name c_source c_format_type app].
  pose proof (under_key_refl
                {| c_id := seq_logo_cache db + 1;
                   c_company_name := company_name r;
                   c_source := src; c_format_type := fmt;
                   c_image_data := image_data r;
                   c_image_url := image_url r;
                   c_width := width r; c_height := height r;
                   c_score := stored_score (score r);
                   c_timestamp := now |}) as Hkey.
  cbn [c_company_name c_source c_format_type] in Hkey. rewrite Hkey.
  split; [reflexivity|]. split.
  - eexists. split; [reflexivity|].
    split; [reflexivity|]. split; [|reflexivity].
    unfold result_of_row, persisted. cbn. rewrite Hs, Hf. reflexivity.
  - cbn [negb]. rewrite app_nil_r. reflexivity.
Qed.

End CacheStore.

(** C5. [add_to_cache] is an upsert on the key (company_name, source,
    format_type).  When two candidates with the same key, whose numbers
    SQLite can store, are written one after the other, both writes succeed
    and the cache then holds exactly one row under that key: it carries the
    image data, and every other attribute the cache keeps, of the second
    candidate, and the time of the second write.  After the first write
    alone the single row under the key carries the first candidate's data
    and the time of the first write: every write stamps the row with the
    current time.  The rows under every other key are, after each of the
    writes, the rows that were there before, in the same order. *)
Theorem add_to_cache_upsert
    (now1 now2 : Z) (db : Database.t) (r1 r2 : LogoResult) (src fmt : string) :
  source r1 = Some src -> format_type r1 = Some fmt ->
  source r2 = Some src -> format_type r2 = Some fmt ->
  company_name r2 = company_name r1 ->
  Database.binds r1 = true -> Database.binds r2 = true ->
  let key := under_key (company_name r1) src fmt in
  let others := fun row => negb (key row) in
  let first := Database.add_to_cache now1 db r1 in
  let second := Database.add_to_cache now2 (fst first) r2 in
  snd first = Database.Answer true /\ snd second = Database.Answer true
  /\ (exists row,
        List.filter key (Database.logo_cache (fst first)) = [row]
        /\ Database.c_image_data row = image_data r1
        /\ Database.result_of_row row = persisted r1
        /\ Database.c_timestamp row = now1)
  /\ (exists row,
        List.filter key (Database.logo_cache (fst second)) = [row]
        /\ Database.c_image_data row = image_data r2
        /\ Database.result_of_row row = persisted r2
        /\ Database.c_timestamp row = now2)
  /\ List.filter others (Database.logo_cache (fst first))
     = List.filter others (Database.logo_cache db)
  /\ List.filter others (Database.logo_cache (fst second))
     = List.filter others (Database.logo_cache db).
Proof.
  intros Hs1 Hf1 Hs2 Hf2 Hc Hb1 Hb2. cbv zeta.
  destruct (add_to_cache_row now1 db r1 src fmt Hb1 Hs1 Hf1)
    as (Hok1 & Hrow1 & Hrest1).
  destruct (add_to_cache_row now2 (fst (Database.add_to_cache now1 db r1))
              r2 src fmt Hb2 Hs2 Hf2) as (Hok2 & Hrow2 & Hrest2).
  rewrite Hc in Hrow2, Hrest2.
  split; [exact Hok1|]. split; [exact Hok2|].
  split; [exact Hrow1|]. split; [exact Hrow2|].
  split; [exact Hrest1|]. rewrite Hrest2. exact Hrest1.
Qed.

Lemma add_to_cache_upsert_witness :
  exists row,
    List.filter (under_key "Acme" "Clearbit" "png")
      (Database.logo_cache
         (fst (Database.add_to_cache 20
                 (fst (Database.add_to_cache 10 Database.init_db
                         (LogoSearchWorker.new_result "Acme" "first" "u"
                            "Clearbit" "png" 5)))
                 (LogoSearchWorker.new_result "Acme" "second" "u"
                    "Clearbit" "png" 5))))
    = [row]
    /\ Database.c_image_data row = Some "second"
    /\ Database.result_of_row row
       = persisted
           (LogoSearchWorker.new_result "Acme" "second" "u" "Clearbit" "png" 5)
    /\ Database.c_timestamp row = 20.
Proof.
  exact (proj1 (proj2 (proj2 (proj2
    (add_to_cache_upsert 10 20 Database.init_db
       (LogoSearchWorker.new_result "Acme" "first" "u" "Clearbit" "png" 5)
       (LogoSearchWorker.new_result "Acme" "second" "u" "Clearbit" "png" 5)
       "Clearbit" "png" eq_refl eq_refl eq_refl eq_refl eq_refl
       eq_refl eq_refl))))).
Defined.

(** C9. [clear_cache] writes to [logo_cache] only: with or without a
    maximum age, every row of [search_history] and of [favorites] is as it
    was, and so are the id counters of the two tables. *)
Theorem clear_cache_frame
    (now : Z) (db : Database.t) (max_age_days : option Z) :
  let db' := fst (Database.clear_cache now db max_age_days) in
  Database.search_history db' = Database.search_history db
  /\ Database.favorites db' = Database.favorites db
  /\ Database.seq_search_history db' = Database.seq_search_history db
  /\ Database.seq_favorites db' = Database.seq_favorites db.
Proof.
  destruct max_age_days as [days|]; simpl; repeat split; reflexivity.
Qed.

(* ================================================================== *)
(** * Properties of the scorer *)
(* ================================================================== *)

(** C6. The result [add_result] emits has the score the adapter gave it,
    plus the base quality of the worker's source, plus 10 exactly when its
    format is [svg]; the other attributes of the candidate that the cache
    keys on are untouched.  A candidate of initial score 10 and format
    [svg], from a source of base quality 80, ends with the score 100. *)
Theorem add_result_score
    (w : World) (self : LogoSearchWorker.t) (r : LogoResult) :
  let r' := LogoSearchWorker.scored self (now_iso w) r in
  Py.signals (LogoSearchWorker.add_result w self r)
  = [LogoSearchWorker.search_result r']
  /\ (score r' == score r + inject_Z (base_quality (LogoSearchWorker.w_source self))
                  + (if is_svg r then 10 else 0))%Q
  /\ format_type r' = format_type r
  /\ (base_quality (LogoSearchWorker.w_source self) = 80 ->
      format_type r = Some "svg" -> score r = 10%Q -> score r' = 100%Q).
Proof.
  cbv zeta. split; [reflexivity|].
  unfold LogoSearchWorker.scored, is_svg.
  cbn [format_type set_score set_metadata score].
  destruct (format_type r) as [fmt|] eqn:Hfmt.
  - destruct (String.eqb fmt "svg") eqn:Hsvg;
      cbn [format_type set_score set_metadata score].
    + split; [reflexivity|]. split; [exact Hfmt|].
      intros Hq _ Hs. rewrite Hq, Hs. reflexivity.
    + split; [symmetry; apply Qplus_0_r|]. split; [exact Hfmt|].
      intros _ Heq. injection Heq as ->. discriminate Hsvg.
  - cbn [format_type set_score set_metadata score].
    split; [symmetry; apply Qplus_0_r|]. split; [exact Hfmt|].
    intros _ Heq. discriminate Heq.
Qed.

Lemma add_result_score_witness :
  score
    (LogoSearchWorker.scored
       (worker_for {| name := "SimpleIcons"; priority := 5;
                      base_quality := 80; enabled := true |})
       (now_iso (serving ""))
       (LogoSearchWorker.new_result "Acme" "<svg/>" "u" "SimpleIcons" "svg" 10))
  = 100%Q.
Proof.
  exact (proj2 (proj2 (proj2
    (add_result_score (serving "")
       (worker_for {| name := "SimpleIcons"; priority := 5;
                      base_quality := 80; enabled := true |})
       (LogoSearchWorker.new_result "Acme" "<svg/>" "u" "SimpleIcons" "svg" 10))))
    eq_refl eq_refl eq_refl).
Defined.

(* ================================================================== *)
(** * Properties of the worker *)
(* ================================================================== *)

Section Quiet.

Import LogoSearchWorker.

Lemma quiet_ret {A} (a : A) : quiet (Py.ret a).
Proof. intros s. reflexivity. Qed.

Lemma quiet_raise {A} (msg : string) : quiet (@Py.raise Signal A msg).
Proof. intros s. reflexivity. Qed.

Lemma quiet_return {A} (b : bool) : quiet (@Py.return_ Signal A b).
Proof. intros s. reflexivity. Qed.

Lemma quiet_set_success (b : bool) : quiet (@Py.set_success Signal b).
Proof. intros s. reflexivity. Qed.

Lemma quiet_get_success : quiet (@Py.get_success Signal).
Proof. intros s. reflexivity. Qed.

Lemma quiet_emit (x : Signal) : is_completion x = false -> quiet (Py.emit x).
Proof. intros H s. simpl. rewrite H. reflexivity. Qed.

Lemma quiet_bind {A B} (m : M A) (k : A -> M B) :
  quiet m -> (forall a, quiet (k a)) -> quiet (Py.bind m k).
Proof.
  intros Hm Hk s. unfold Py.bind. specialize (Hm s).
  destruct (m s) as [[out s'] [a|b|msg]]; simpl in *; try assumption.
  specialize (Hk a s'). destruct (k a s') as [[out' s''] c]. simpl in *.
  rewrite filter_app, Hm, Hk. reflexivity.
Qed.

Lemma quiet_try_with (body : M unit) (handler : string -> M unit) :
  quiet body -> (forall msg, quiet (handler msg)) ->
  quiet (Py.try_with body handler).
Proof.
  intros Hb Hh s. unfold Py.try_with. specialize (Hb s).
  destruct (body s) as [[out s'] [a|b|msg]]; simpl in *; try assumption.
  specialize (Hh msg s'). destruct (handler msg s') as [[out' s''] c].
  simpl in *. rewrite filter_app, Hb, Hh. reflexivity.
Qed.

Lemma quiet_try (body : M unit) : quiet body -> quiet (Py.try_ body).
Proof.
  intros Hb. apply quiet_try_with; [assumption|]. intros _. apply quiet_ret.
Qed.

Lemma quiet_try_only (cls : string) (body : M unit) :
  quiet body -> quiet (Py.try_only cls body).
Proof.
  intros Hb. apply quiet_try_with; [assumption|]. intros msg.
  destruct (String.eqb msg cls); [apply quiet_ret | apply quiet_raise].
Qed.

Lemma quiet_try_default {A} (cls : string) (body : M A) (default : A) :
  quiet body -> quiet (Py.try_default cls body default).
Proof.
  intros Hb s. unfold Py.try_default. specialize (Hb s).
  destruct (body s) as [[out s'] [a|b|msg]]; simpl in *; try assumption.
  destruct (String.eqb msg cls); assumption.
Qed.

Lemma quiet_when (b : bool) (body : M unit) :
  quiet body -> quiet (Py.when b body).
Proof. intros Hb. destruct b; [assumption | apply quiet_ret]. Qed.

Lemma quiet_for {A} (l : list A) (body : A -> M unit) :
  (forall x, quiet (body x)) -> quiet (Py.for_ l body).
Proof.
  intros Hb. induction l as [|x l IH]; simpl.
  - apply quiet_ret.
  - apply quiet_bind; [apply Hb | intros _; exact IH].
Qed.

Lemma quiet_filter_m {A} (keep : A -> M bool) (l : list A) :
  (forall x, quiet (keep x)) -> quiet (Py.filter_m keep l).
Proof.
  intros Hk. induction l as [|x l IH]; simpl.
  - apply quiet_ret.
  - apply quiet_bind; [apply Hk | intros b].
    apply quiet_bind; [exact IH | intros rest; apply quiet_ret].
Qed.

Lemma quiet_or_raise {A} (msg : string) (o : option A) :
  quiet (@Py.or_raise Signal A msg o).
Proof. destruct o; [apply quiet_ret | apply quiet_raise]. Qed.

Lemma quiet_invoke (body : M bool) : quiet body -> quiet (Py.invoke body).
Proof.
  intros Hb s. unfold Py.invoke, Py.call. specialize (Hb false).
  destruct (body false) as [[out s'] [a|b|msg]]; simpl in *; assumption.
Qed.

End Quiet.

Create HintDb quiet.

#[export] Hint Resolve quiet_ret quiet_raise quiet_return quiet_set_success
  quiet_get_success quiet_or_raise : quiet.

(** one step of a proof that a block is quiet: the block is taken apart
    along its statements, and a value a branch depends on is destructed *)
Ltac quiet_step :=
  match goal with
  | |- quiet (Py.bind _ _) => apply quiet_bind; [|intros ?]
  | |- quiet (Py.for_ _ _) => apply quiet_for; intros ?
  | |- quiet (Py.filter_m _ _) => apply quiet_filter_m; intros ?
  | |- quiet (Py.try_with _ _) => apply quiet_try_with; [|intros ?]
  | |- quiet (Py.try_ _) => apply quiet_try
  | |- quiet (Py.try_only _ _) => apply quiet_try_only
  | |- quiet (Py.try_default _ _ _) => apply quiet_try_default
  | |- quiet (Py.when _ _) => apply quiet_when
  | |- quiet (Py.invoke _) => apply quiet_invoke
  | |- quiet (Py.emit _) => apply quiet_emit; reflexivity
  | |- quiet (match ?x with _ => _ end) => destruct x
  | |- quiet _ => solve [auto with quiet]
  | |- quiet _ => progress auto with quiet
  end.

Ltac quiet_tac := repeat quiet_step.

Section Adapters.

Import LogoSearchWorker.

Variables (w : World) (self : t).

Lemma quiet_py_get v key default : quiet (@Py.get Signal v key default).
Proof. unfold Py.get. quiet_tac. Qed.

Lemma quiet_py_getitem v key : quiet (@Py.getitem Signal v key).
Proof. unfold Py.getitem. quiet_tac. Qed.

Lemma quiet_py_in key v : quiet (@Py.in_ Signal key v).
Proof. unfold Py.in_. quiet_tac. Qed.

Lemma quiet_py_len v : quiet (@Py.len Signal v).
Proof. unfold Py.len. quiet_tac. Qed.

Lemma quiet_py_iter v : quiet (@Py.iter Signal v).
Proof. unfold Py.iter. quiet_tac. Qed.

Lemma quiet_py_slice_to n v : quiet (@Py.slice_to Signal n v).
Proof. unfold Py.slice_to. quiet_tac. Qed.

Lemma quiet_py_as_str msg v : quiet (@Py.as_str Signal msg v).
Proof. unfold Py.as_str. quiet_tac. Qed.

Hint Resolve quiet_py_get quiet_py_getitem quiet_py_in quiet_py_len
  quiet_py_iter quiet_py_slice_to quiet_py_as_str : quiet.

Lemma quiet_add_result r : quiet (add_result w self r).
Proof. unfold add_result. quiet_tac. Qed.

Lemma quiet_session_get headers url : quiet (session_get w headers url).
Proof. unfold session_get. quiet_tac. Qed.

Lemma quiet_json response : quiet (json w response).
Proof. unfold json. quiet_tac. Qed.

Hint Resolve quiet_add_result quiet_session_get quiet_json : quiet.

Lemma quiet_has_nonempty key v : quiet (has_nonempty key v).
Proof. unfold has_nonempty. quiet_tac. Qed.

Lemma quiet_is_logo_image img : quiet (is_logo_image img).
Proof. unfold is_logo_image. quiet_tac. Qed.

Lemma quiet_fetch_format kind wanted base message fmt :
  quiet (fetch_format w self kind wanted base message fmt).
Proof. unfold fetch_format. quiet_tac. Qed.

Hint Resolve quiet_has_nonempty quiet_is_logo_image quiet_fetch_format
  : quiet.

Lemma quiet_process_brand_data png_score svg_score origin brand_data :
  quiet (process_brand_data w self png_score svg_score origin brand_data).
Proof. unfold process_brand_data. quiet_tac. Qed.

Lemma quiet_mentions_logo a : quiet (mentions_logo a).
Proof. unfold mentions_logo. quiet_tac. Qed.

Lemma quiet_to_int a : quiet (to_int w a).
Proof. unfold to_int. quiet_tac. Qed.

Hint Resolve quiet_process_brand_data quiet_mentions_logo quiet_to_int
  : quiet.

Lemma quiet_img_score img : quiet (img_score w img).
Proof. unfold img_score. quiet_tac. Qed.

Hint Resolve quiet_img_score : quiet.

Lemma quiet_collect_candidates imgs : quiet (collect_candidates w imgs).
Proof. induction imgs as [|img imgs IH]; simpl; quiet_tac. Qed.

Lemma quiet_download_item key source_name message item :
  quiet (download_item w self key source_name message item).
Proof. unfold download_item. quiet_tac. Qed.

Hint Resolve quiet_collect_candidates quiet_download_item : quiet.

Lemma quiet_search_simpleicons : quiet (search_simpleicons w self).
Proof. unfold search_simpleicons. quiet_tac. Qed.

Lemma quiet_search_brandfetch : quiet (search_brandfetch w self).
Proof. unfold search_brandfetch. quiet_tac. Qed.

Lemma quiet_search_clearbit : quiet (search_clearbit w self).
Proof. unfold search_clearbit. quiet_tac. Qed.

Lemma quiet_search_wikipedia : quiet (search_wikipedia w self).
Proof. unfold search_wikipedia. quiet_tac. Qed.

Lemma quiet_search_companywebsite : quiet (search_companywebsite w self).
Proof. unfold search_companywebsite. quiet_tac. Qed.

Lemma quiet_search_googlesearch : quiet (search_googlesearch w self).
Proof. unfold search_googlesearch. quiet_tac. Qed.

Lemma quiet_search_bingsearch : quiet (search_bingsearch w self).
Proof. unfold search_bingsearch. quiet_tac. Qed.

Lemma quiet_search_duckduckgo : quiet (search_duckduckgo w self).
Proof. unfold search_duckduckgo. quiet_tac. Qed.

Lemma quiet_search_branddb : quiet (search_branddb w self).
Proof. apply quiet_ret. Qed.

Lemma quiet_search_socialmedia : quiet (search_socialmedia w self).
Proof. apply quiet_ret. Qed.

Lemma quiet_search_vectordb : quiet (search_vectordb w self).
Proof. apply quiet_ret. Qed.

Lemma getattr_in methods method_name method :
  getattr methods method_name = Some method ->
  In (method_name, method) methods.
Proof.
  induction methods as [|[n m] methods IH]; simpl; [discriminate|].
  destruct (String.eqb n method_name) eqn:E.
  - intros [= <-]. apply String.eqb_eq in E. subst. left. reflexivity.
  - intros H. right. apply IH, H.
Qed.

(** no method of the worker class emits a completion signal *)
Lemma quiet_search_methods method_name method :
  getattr search_methods method_name = Some method -> quiet (method w self).
Proof.
  intros H. apply getattr_in in H. unfold search_methods in H. simpl in H.
  repeat (destruct H as [[= _ <-]|H];
          [auto using quiet_search_simpleicons, quiet_search_brandfetch,
             quiet_search_clearbit, quiet_search_wikipedia,
             quiet_search_branddb, quiet_search_companywebsite,
             quiet_search_socialmedia, quiet_search_googlesearch,
             quiet_search_bingsearch, quiet_search_duckduckgo,
             quiet_search_vectordb; fail|]).
  contradiction.
Qed.

End Adapters.

Section Run.

Import LogoSearchWorker.

(** the signals of [run], case by case *)
Lemma run_with_trace methods (w : World) (self : t) (s : bool) :
  let source_name := name (w_source self) in
  run_with methods w self s
  = ((searching source_name
      :: match getattr methods (method_name_of (w_source self)) with
         | Some method =>
             match Py.call (method w self) with
             | Py.Returned out value =>
                 out ++ [search_complete source_name value]
             | Py.Raised out e =>
                 out ++ [error_report source_name e;
                         search_complete source_name false]
             end
         | None =>
             [not_implemented source_name; search_complete source_name false]
         end)%list, s, Py.Normal tt).
Proof.
  cbv zeta. unfold run_with, method_name_of.
  destruct (getattr methods ("search_" ++ PyStr.lower (name (w_source self))))
    as [method|]; [|reflexivity].
  unfold Py.bind, Py.try_with, Py.invoke, Py.emit.
  destruct (Py.call (method w self)) as [out value|out e]; reflexivity.
Qed.

Lemma filter_completion_last (out : list Signal) (x : Signal) :
  List.filter is_completion out = [] -> is_completion x = true ->
  List.filter is_completion (out ++ [x]) = [x].
Proof.
  intros Hout Hx. rewrite filter_app, Hout. simpl. rewrite Hx. reflexivity.
Qed.

Lemma call_quiet (body : M bool) :
  quiet body ->
  match Py.call body with
  | Py.Returned out _ => List.filter is_completion out = []
  | Py.Raised out _ => List.filter is_completion out = []
  end.
Proof.
  intros Hq. unfold Py.call. specialize (Hq false).
  destruct (body false) as [[out s'] [a|b|msg]]; exact Hq.
Qed.

(** a run of the worker class of the program emits one completion signal
    and no more *)
Lemma run_one_completion (w : World) (self : t) :
  exists success,
    List.filter is_completion (Py.signals (run w self))
    = [search_complete (name (w_source self)) success].
Proof.
  unfold Py.signals, run. rewrite run_with_trace. cbv zeta.
  destruct (getattr search_methods (method_name_of (w_source self)))
    as [method|] eqn:Hget;
    cbn [fst List.filter is_completion searching].
  - pose proof (call_quiet _ (quiet_search_methods w self _ _ Hget)) as Hq.
    destruct (Py.call (method w self)) as [out value|out e].
    + exists value. apply filter_completion_last; [exact Hq | reflexivity].
    + exists false. rewrite filter_app, Hq. reflexivity.
  - exists false. reflexivity.
Qed.

End Run.

(** C4. [run] never lets an exception out, whatever the search methods of
    the worker class do: it ends normally and its last signal is the
    completion of its source.  When the method it dispatched to raised, the
    signals are those the method had emitted, then the error report, then
    the completion with [success = False]: nothing of the method follows the
    error.  When the method returned, the completion carries its value; when
    there is no such method, [success] is false.  With the methods of the
    program, a run emits exactly one completion signal.  The manager handles
    a completion in the same way whether [success] is true or false, so a
    failed source holds up no other. *)
Theorem run_isolates_failures
    (methods : list (string * LogoSearchWorker.Method)) (w : World)
    (self : LogoSearchWorker.t) (s : bool) :
  let source_name := name (LogoSearchWorker.w_source self) in
  (exists out success,
     LogoSearchWorker.run_with methods w self s
     = ((searching source_name
         :: out ++ [LogoSearchWorker.search_complete source_name success])%list,
        s, Py.Normal tt)
     /\ (forall method,
           LogoSearchWorker.getattr methods
             (method_name_of (LogoSearchWorker.w_source self)) = Some method ->
           match Py.call (method w self) with
           | Py.Raised emitted e =>
               out = (emitted ++ [error_report source_name e])%list
               /\ success = false
           | Py.Returned emitted value => out = emitted /\ success = value
           end)
     /\ (LogoSearchWorker.getattr methods
           (method_name_of (LogoSearchWorker.w_source self)) = None ->
         out = [not_implemented source_name] /\ success = false))
  /\ (exists success,
        List.filter is_completion (Py.signals (LogoSearchWorker.run w self))
        = [LogoSearchWorker.search_complete source_name success])
  /\ (forall now m success,
        LogoSearchManager.handle_search_complete now m source_name success
        = LogoSearchManager.handle_search_complete now m source_name false).
Proof.
  cbv zeta. split; [|split].
  - rewrite run_with_trace. cbv zeta.
    destruct (LogoSearchWorker.getattr methods
                (method_name_of (LogoSearchWorker.w_source self)))
      as [method|].
    + destruct (Py.call (method w self)) as [out value|out e] eqn:Hcall.
      * exists out, value. split; [reflexivity|]. split; [|discriminate].
        intros method' [= <-]. rewrite Hcall. split; reflexivity.
      * exists (out ++ [error_report (name (LogoSearchWorker.w_source self)) e])%list,
          false.
        split; [rewrite <- app_assoc; reflexivity|]. split; [|discriminate].
        intros method' [= <-]. rewrite Hcall. split; reflexivity.
    + exists [not_implemented (name (LogoSearchWorker.w_source self))], false.
      split; [reflexivity|]. split; [discriminate|]. intros _.
      split; reflexivity.
  - apply run_one_completion.
  - reflexivity.
Qed.

Lemma run_isolates_failures_witness :
  LogoSearchWorker.run_with failing_methods (serving "") (worker_for acme_source)
    false
  = ([searching "Acme";
      LogoSearchWorker.search_result
        (LogoSearchWorker.scored (worker_for acme_source)
           "2024-01-01T00:00:00"
           (LogoSearchWorker.new_result "Acme" "data" "u" "Acme" "png" 5));
      error_report "Acme" "boom";
      LogoSearchWorker.search_complete "Acme" false],
     false, Py.Normal tt).
Proof.
  destruct (run_isolates_failures failing_methods (serving "")
              (worker_for acme_source) false)
    as [(out & success & Hrun & Hmethod & _) _].
  specialize (Hmethod _ eq_refl). cbv in Hmethod.
  destruct Hmethod as [-> ->]. exact Hrun.
Defined.

(* ================================================================== *)
(** * Properties of the orchestrator *)
(* ================================================================== *)

Section Workers.

Import LogoSearchManager.

Lemma running_are_pending (ws : list Thread) :
  (List.length (List.filter is_running ws)
   <= List.length (List.filter pending ws))%nat.
Proof.
  induction ws as [|[wk [| |]] ws IH]; simpl; lia.
Qed.

Lemma terminate_keeps_pending (ws : list Thread) :
  List.length (List.filter pending (terminate_running ws))
  = List.length (List.filter pending ws).
Proof.
  induction ws as [|[wk [| |]] ws IH]; simpl; rewrite ?IH; reflexivity.
Qed.

Lemma terminate_stops_all (ws : list Thread) :
  List.filter is_running (terminate_running ws) = [].
Proof.
  induction ws as [|[wk [| |]] ws IH]; simpl; exact IH || reflexivity.
Qed.

(** handling a completion takes one worker out of the pending ones *)
Lemma finish_one_less (ws : list Thread) :
  forall i th,
    nth_error ws i = Some th -> pending th = true ->
    S (List.length (List.filter pending (finish i ws)))
    = List.length (List.filter pending ws).
Proof.
  induction ws as [|x ws IH]; intros [|i] th Hnth Hp; simpl in *;
    try discriminate.
  - injection Hnth as ->. rewrite Hp. reflexivity.
  - destruct (pending x); simpl; erewrite IH; eauto.
Qed.

(** ** [start_workers] *)

Lemma start_workers_from_counted (bound : Z) (queue : list Source) :
  forall m, counted bound m -> counted bound (start_workers_from queue m).
Proof.
  induction queue as [|source rest IH]; intros m (Hmax & Hcount & Hle);
    simpl.
  - repeat split; assumption.
  - destruct (active_workers m <? max_concurrent m) eqn:Hlt.
    + apply IH. apply Z.ltb_lt in Hlt. repeat split; simpl.
      * assumption.
      * rewrite filter_app, length_app. simpl. lia.
      * lia.
    + repeat split; assumption.
Qed.

(** [start_workers] raises the counter to the bound at most; it never
    lowers it, nor raises a counter that is at the bound or above *)
Lemma start_workers_from_bound (queue : list Source) :
  forall m,
    active_workers m <= active_workers (start_workers_from queue m)
    /\ active_workers (start_workers_from queue m)
       <= Z.max (active_workers m) (max_concurrent m)
    /\ max_concurrent (start_workers_from queue m) = max_concurrent m.
Proof.
  induction queue as [|source rest IH]; intros m; simpl.
  - repeat split; lia.
  - destruct (active_workers m <? max_concurrent m) eqn:Hlt; simpl.
    + apply Z.ltb_lt in Hlt.
      destruct (IH (start_worker (with_queue m rest) source))
        as (Hlow & Hhigh & Hmax).
      simpl in *. repeat split; lia.
    + repeat split; lia.
Qed.

(** what [start_workers] leaves alone *)
Lemma start_workers_from_frame (queue : list Source) :
  forall m,
    let m' := start_workers_from queue m in
    emitted m' = emitted m /\ db m' = db m /\ results m' = results m
    /\ m_company_name m' = m_company_name m
    /\ m_settings m' = m_settings m.
Proof.
  induction queue as [|source rest IH]; intros m; simpl.
  - repeat split.
  - destruct (active_workers m <? max_concurrent m); simpl.
    + apply (IH (start_worker (with_queue m rest) source)).
    + repeat split.
Qed.

Lemma replay_counted (bound : Z) (cache_results : list LogoResult) :
  forall m, counted bound m -> counted bound (replay m cache_results).
Proof.
  unfold replay.
  induction cache_results as [|r rs IH]; intros m Hm; simpl; [exact Hm|].
  apply IH. exact Hm.
Qed.

Lemma start_search_counted (bound : Z) (registry : list Source) (now : Z)
    (m : t) :
  counted bound m -> counted bound (start_search registry now m).
Proof.
  intros Hm. unfold start_search.
  destruct (Database.get_from_cache now (db m) (m_company_name m)
              (get (cache_expiry_days (m_settings m)) 30)) as [|r rs].
  - apply start_workers_from_counted. exact Hm.
  - match goal with
    | |- counted _ (if ?b then _ else _) => destruct b
    end.
    + apply (replay_counted bound (r :: rs)). exact Hm.
    + apply start_workers_from_counted.
      apply (replay_counted bound (r :: rs)). exact Hm.
Qed.

Lemma handle_search_result_counted (bound : Z) (now : Z) (m : t)
    (result : LogoResult) :
  counted bound m -> counted bound (handle_search_result now m result).
Proof.
  intros (Hmax & Hcount & Hle). unfold handle_search_result.
  match goal with
  | |- counted _ (if ?b then _ else _) => destruct b
  end; repeat split; simpl; try assumption.
  rewrite terminate_keeps_pending. exact Hcount.
Qed.

Lemma deliver_counted (bound : Z) (now : Z) (m m' : t) (e : Event) :
  counted bound m -> deliver now m e = Some m' -> counted bound m'.
Proof.
  intros Hm. destruct e as [i result|i success]; simpl;
    destruct (nth_error (workers m) i) as [th|] eqn:Hnth; try discriminate;
    destruct (pending th) eqn:Hp; try discriminate; intros [= <-].
  - apply handle_search_result_counted. exact Hm.
  - destruct Hm as (Hmax & Hcount & Hle).
    pose proof (finish_one_less _ _ _ Hnth Hp) as Hfin.
    unfold handle_search_complete.
    match goal with
    | |- counted _ (if ?b then _ else _) =>
        destruct b;
        [ match goal with
          | |- counted _ (emit _ (with_db ?x _)) =>
              assert (Hx : counted bound x); [|exact Hx]
          end
        | ]
    end;
      (apply start_workers_from_counted; repeat split; simpl;
       [assumption | lia | lia]).
Qed.

Lemma reachable_counted (registry : list Source) (m0 m : t) :
  counted (max_concurrent m0) m0 ->
  reachable registry m0 m -> counted (max_concurrent m0) m.
Proof.
  intros H0 Hreach. induction Hreach as [|now|now e m m' _ IH Hd].
  - exact H0.
  - apply start_search_counted. exact H0.
  - eapply deliver_counted; eassumption.
Qed.

End Workers.

(** C3. In every state the manager can reach, the workers whose thread
    runs are at most [active_workers], which counts the workers whose
    completion is still to be handled, and [active_workers] is at most
    [max_concurrent], the configured [concurrent_searches] (3 when the key
    is absent), as long as that setting is not negative.  [start_workers],
    called when the search starts and after each completion, raises the
    counter to [max_concurrent] at most, however long the queue is. *)
Theorem concurrency_bound
    (registry : list Source) (company : string) (settings : Settings)
    (database : Database.t) (m : LogoSearchManager.t) :
  0 <= get (concurrent_searches settings) 3 ->
  LogoSearchManager.reachable registry
    (LogoSearchManager.init company settings database) m ->
  Z.of_nat (List.length (LogoSearchManager.running m))
  <= LogoSearchManager.active_workers m
  /\ LogoSearchManager.active_workers m <= LogoSearchManager.max_concurrent m
  /\ LogoSearchManager.max_concurrent m = get (concurrent_searches settings) 3
  /\ (forall m',
        LogoSearchManager.active_workers (LogoSearchManager.start_workers m')
        <= Z.max (LogoSearchManager.active_workers m')
             (LogoSearchManager.max_concurrent m')).
Proof.
  intros Hbound Hreach.
  assert (H0 : counted
                 (LogoSearchManager.max_concurrent
                    (LogoSearchManager.init company settings database))
                 (LogoSearchManager.init company settings database)).
  { split; [reflexivity | split; [reflexivity | exact Hbound]]. }
  destruct (reachable_counted registry _ m H0 Hreach) as (Hmax & Hcount & Hle).
  simpl in Hmax, Hle.
  repeat split.
  - rewrite Hcount. apply inj_le. apply running_are_pending.
  - rewrite Hmax. exact Hle.
  - exact Hmax.
  - intros m'.
    apply (start_workers_from_bound (LogoSearchManager.search_queue m') m').
Qed.

Lemma concurrency_bound_witness :
  Z.of_nat
    (List.length
       (LogoSearchManager.running
          (LogoSearchManager.start_search LOGO_SOURCES 0
             (LogoSearchManager.init "Acme" no_settings Database.init_db))))
  <= 3.
Proof.
  assert (Hbound : 0 <= get (concurrent_searches no_settings) 3)
    by (vm_compute; discriminate).
  destruct (concurrency_bound LOGO_SOURCES "Acme" no_settings Database.init_db
              _ Hbound
              (LogoSearchManager.reach_start LOGO_SOURCES
                 (LogoSearchManager.init "Acme" no_settings Database.init_db) 0))
    as (Hrun & Hact & Hmax & _).
  rewrite Hmax in Hact. exact (Z.le_trans _ _ _ Hrun Hact).
Defined.

Section Completion.

Import LogoSearchManager.

Lemma deliver_without_workers (now : Z) (m : t) (e : Event) :
  workers m = [] -> deliver now m e = None.
Proof.
  intros Hw. destruct e as [[|i] r|[|i] ok]; simpl; rewrite Hw; reflexivity.
Qed.

Lemma history_entry_written (rows : list Database.HistoryRow)
    (row : Database.HistoryRow) :
  let mine r :=
    String.eqb (Database.h_company_name r) (Database.h_company_name row) in
  List.filter mine (List.filter (fun r => negb (mine r)) rows ++ [row])
  = [row].
Proof.
  cbv zeta. rewrite filter_app. simpl. rewrite String.eqb_refl.
  replace (List.filter _ (List.filter _ rows)) with (@nil Database.HistoryRow);
    [reflexivity|].
  induction rows as [|r rows IH]; simpl; [reflexivity|].
  destruct (String.eqb (Database.h_company_name r)
              (Database.h_company_name row)) eqn:E; simpl;
    rewrite ?E; exact IH.
Qed.

(** The path the method [handle_search_complete] takes when the last
    worker is done: one History Entry for the company, with the number of
    results and the time of the write, and one completion signal, whose
    flag tells whether there is a result.  On its other path it writes and
    emits nothing. *)
Lemma drained_search_completes (now : Z) (m : t) (source_name : string)
    (success : bool) :
  let m' := handle_search_complete now m source_name success in
  results m' = results m
  /\ if (active_workers m' =? 0)
        && match search_queue m' with [] => true | _ => false end
     then
       emitted m'
       = (emitted m
          ++ [search_complete (0 <? len (results m)) (results m)])%list
       /\ history_entries m'
          = [{| Database.h_id :=
                  Database.seq_search_history (db m) + 1;
                Database.h_company_name := m_company_name m;
                Database.h_timestamp := now;
                Database.h_results_count := len (results m) |}]
     else emitted m' = emitted m /\ db m' = db m.
Proof.
  cbv zeta. unfold handle_search_complete.
  set (m1 := with_workers
               (with_completed m (set_add source_name (completed_sources m)))
               (workers
                  (with_completed m
                     (set_add source_name (completed_sources m))))
               (active_workers
                  (with_completed m
                     (set_add source_name (completed_sources m))) - 1)).
  destruct (start_workers_from_frame (search_queue m1) m1)
    as (He & Hd & Hr & Hc & Hs).
  fold (start_workers m1) in He, Hd, Hr, Hc, Hs.
  destruct ((active_workers (start_workers m1) =? 0)
            && match search_queue (start_workers m1) with
               | [] => true
               | _ => false
               end) eqn:Hdone; simpl; rewrite ?Hdone.
  - split; [exact Hr|]. rewrite Hr, He, Hd, Hc. simpl. split; [reflexivity|].
    unfold history_entries. simpl. rewrite Hc. simpl.
    apply (history_entry_written (Database.search_history (db m))
             {| Database.h_id := Database.seq_search_history (db m) + 1;
                Database.h_company_name := m_company_name m;
                Database.h_timestamp := now;
                Database.h_results_count := len (results m) |}).
  - split; [exact Hr|]. split; [exact He | exact Hd].
Qed.

(** a search that starts with nothing cached and no source enabled starts
    no worker, emits no signal and writes nothing *)
Lemma start_search_idle (registry : list Source) (now : Z) (company : string)
    (settings : Settings) (database : Database.t) :
  List.filter enabled registry = [] ->
  Database.get_from_cache now database company
    (get (cache_expiry_days settings) 30) = [] ->
  let m := start_search registry now (init company settings database) in
  workers m = [] /\ emitted m = [] /\ db m = database /\ results m = []
  /\ active_workers m = 0 /\ search_queue m = [].
Proof.
  intros Hreg Hcache. cbv zeta. unfold start_search. simpl.
  rewrite Hcache, Hreg. simpl. repeat split.
Qed.

End Completion.

(** C1, on the code: two of the three paths to completion write no History
    Entry.  When the cache alone answers the search (one fresh cached logo,
    [max_results = 1], [search_all_sources = False]), [start_search] emits
    the completion with [True] and the cached result, starts no worker and
    leaves [search_history] without an entry for the company; no event can
    follow.  When the search stops at the first result a worker delivers,
    [handle_search_result] emits the completion, every worker is terminated
    and again no entry is written; a result of the second worker that was
    already on its way makes the manager emit a second completion. *)
Theorem completion_without_history :
  (LogoSearchManager.completions
     (LogoSearchManager.start_search LOGO_SOURCES 100
        (LogoSearchManager.init "Acme" first_result_only warm_db))
   = [LogoSearchManager.search_complete true
        [Database.result_of_row
           {| Database.c_id := 1; Database.c_company_name := "Acme";
              Database.c_source := "SimpleIcons";
              Database.c_format_type := "svg";
              Database.c_image_data := image_data acme_logo;
              Database.c_image_url := image_url acme_logo;
              Database.c_width := None; Database.c_height := None;
              Database.c_score := score acme_logo;
              Database.c_timestamp := 50 |}]]
   /\ LogoSearchManager.history_entries
        (LogoSearchManager.start_search LOGO_SOURCES 100
           (LogoSearchManager.init "Acme" first_result_only warm_db)) = []
   /\ LogoSearchManager.workers
        (LogoSearchManager.start_search LOGO_SOURCES 100
           (LogoSearchManager.init "Acme" first_result_only warm_db)) = []
   /\ forall now e,
        LogoSearchManager.deliver now
          (LogoSearchManager.start_search LOGO_SOURCES 100
             (LogoSearchManager.init "Acme" first_result_only warm_db)) e
        = None)
  /\ exists m1 m2,
       LogoSearchManager.deliver 101
         (LogoSearchManager.start_search LOGO_SOURCES 100
            (LogoSearchManager.init "Acme" first_result_only Database.init_db))
         (LogoSearchManager.Result 0 acme_logo) = Some m1
       /\ LogoSearchManager.completions m1
          = [LogoSearchManager.search_complete true [acme_logo]]
       /\ LogoSearchManager.history_entries m1 = []
       /\ LogoSearchManager.running m1 = []
       /\ LogoSearchManager.deliver 102 m1
            (LogoSearchManager.Result 1 acme_brand) = Some m2
       /\ LogoSearchManager.completions m2
          = [LogoSearchManager.search_complete true [acme_logo];
             LogoSearchManager.search_complete true [acme_logo; acme_brand]]
       /\ LogoSearchManager.history_entries m2 = [].
Proof.
  split.
  - split; [vm_compute; reflexivity|]. split; [vm_compute; reflexivity|].
    assert (Hw : LogoSearchManager.workers
                   (LogoSearchManager.start_search LOGO_SOURCES 100
                      (LogoSearchManager.init "Acme" first_result_only warm_db))
                 = []) by (vm_compute; reflexivity).
    split; [exact Hw|]. intros now e.
    apply deliver_without_workers. exact Hw.
  - eexists. eexists.
    split; [vm_compute; reflexivity|].
    split; [vm_compute; reflexivity|].
    split; [vm_compute; reflexivity|].
    split; [vm_compute; reflexivity|].
    split; [vm_compute; reflexivity|].
    split; vm_compute; reflexivity.
Qed.

Section NoSources.

Import LogoSearchManager.

Lemma all_disabled_none_enabled : List.filter enabled all_disabled = [].
Proof. reflexivity. Qed.

(** with no source enabled and nothing cached, the manager never leaves
    the state it was created in, but for its (empty) queue: no worker, no
    signal, no History Entry *)
Lemma idle_forever (registry : list Source) (company : string)
    (settings : Settings) (database : Database.t) (m : t) :
  List.filter enabled registry = [] ->
  (forall now,
     Database.get_from_cache now database company
       (get (cache_expiry_days settings) 30) = []) ->
  reachable registry (init company settings database) m ->
  workers m = [] /\ emitted m = [] /\ db m = database.
Proof.
  intros Hreg Hcache Hreach.
  induction Hreach as [|now|now e m m' _ IH Hd].
  - repeat split.
  - destruct (start_search_idle registry now company settings database
                Hreg (Hcache now)) as (Hw & He & Hdb & _).
    repeat split; assumption.
  - destruct IH as (Hw & _).
    rewrite (deliver_without_workers now m e Hw) in Hd. discriminate.
Qed.

End NoSources.

(** C2, on the code: with every source of the registry disabled and an
    empty store, [start_search] starts no worker, emits no signal, neither
    the completion nor any other, and writes no History Entry, for every
    company name, every settings and every time; and no event can follow:
    the search never completes. *)
Theorem search_without_sources_is_silent
    (company : string) (settings : Settings) (now : Z) :
  LogoSearchManager.emitted
    (LogoSearchManager.start_search all_disabled now
       (LogoSearchManager.init company settings Database.init_db)) = []
  /\ Database.search_history
       (LogoSearchManager.db
          (LogoSearchManager.start_search all_disabled now
             (LogoSearchManager.init company settings Database.init_db))) = []
  /\ LogoSearchManager.workers
       (LogoSearchManager.start_search all_disabled now
          (LogoSearchManager.init company settings Database.init_db)) = []
  /\ (forall now' e,
        LogoSearchManager.deliver now'
          (LogoSearchManager.start_search all_disabled now
             (LogoSearchManager.init company settings Database.init_db)) e
        = None)
  /\ (forall m,
        LogoSearchManager.reachable all_disabled
          (LogoSearchManager.init company settings Database.init_db) m ->
        LogoSearchManager.completions m = []
        /\ LogoSearchManager.history_entries m = []).
Proof.
  destruct (start_search_idle all_disabled now company settings
              Database.init_db all_disabled_none_enabled eq_refl)
    as (Hw & He & Hdb & _).
  split; [exact He|]. split; [rewrite Hdb; reflexivity|].
  split; [exact Hw|]. split.
  - intros now' e. apply deliver_without_workers. exact Hw.
  - intros m Hreach.
    destruct (idle_forever all_disabled company settings Database.init_db m
                all_disabled_none_enabled (fun _ => eq_refl) Hreach)
      as (_ & Hem & Hdbm).
    unfold LogoSearchManager.completions, LogoSearchManager.history_entries.
    rewrite Hem, Hdbm. split; reflexivity.
Qed.

Lemma search_without_sources_is_silent_witness :
  LogoSearchManager.completions
    (LogoSearchManager.start_search all_disabled 7
       (LogoSearchManager.init "Acme" no_settings Database.init_db)) = []
  /\ LogoSearchManager.history_entries
       (LogoSearchManager.start_search all_disabled 7
          (LogoSearchManager.init "Acme" no_settings Database.init_db)) = [].
Proof.
  exact (proj2 (proj2 (proj2 (proj2
    (search_without_sources_is_silent "Acme" no_settings 0))))
    _ (LogoSearchManager.reach_start all_disabled
         (LogoSearchManager.init "Acme" no_settings Database.init_db) 7)).
Defined.

Lemma generate_company_domains_examples_witness :
  In "acme.com" (generate_company_domains "Acme Inc")
  /\ PyStr.startswith "acme.com" "acme-inc" = false
  /\ In "gcloud.io" (generate_company_domains "Google Cloud").
Proof.
  destruct generate_company_domains_examples
    as (_ & _ & Hacme & Hstyle & _ & Hcloud & _).
  assert (Hin : In "acme.com" (generate_company_domains "Acme Inc")).
  { exact (proj2 (Hacme "acme.com") (or_introl eq_refl)). }
  split; [exact Hin|]. split.
  - exact (proj1 (Hstyle "acme.com" Hin)).
  - refine (Hcloud "gcloud.io" _). vm_compute. tauto.
Defined.

(* ================================================================== *)
(** * The placeholders among the adapters *)
(* ================================================================== *)

Section Placeholders.

Import LogoSearchWorker.

Lemma placeholder_of_method (source : Source) (method : Method) :
  getattr search_methods (method_name_of source) = Some method ->
  (forall w self, Py.call (method w self) = Py.Returned [] false) ->
  placeholder source.
Proof.
  intros Hget Hcall. exists method. split; [exact Hget|].
  intros w self. exists []. split; [apply Hcall | reflexivity].
Qed.

(** an adapter that finds a logo in the world [logo_everywhere] is no
    placeholder *)
Lemma finds_logo_live (source : Source) (n : nat) :
  finds_logo source = Some (true, n) -> ~ placeholder source.
Proof.
  unfold finds_logo. intros Hfinds (method & Hget & Hstub).
  rewrite Hget in Hfinds.
  destruct (Hstub logo_everywhere (keyed_worker source)) as (out & Hcall & _).
  rewrite Hcall in Hfinds. discriminate Hfinds.
Qed.

Lemma placeholder_branddb (source : Source) :
  name source = "BrandDB" -> placeholder source.
Proof.
  intros Hname. apply (placeholder_of_method source search_branddb).
  - unfold method_name_of. rewrite Hname. reflexivity.
  - reflexivity.
Qed.

Lemma placeholder_socialmedia (source : Source) :
  name source = "SocialMedia" -> placeholder source.
Proof.
  intros Hname. apply (placeholder_of_method source search_socialmedia).
  - unfold method_name_of. rewrite Hname. reflexivity.
  - reflexivity.
Qed.

Lemma placeholder_vectordb (source : Source) :
  name source = "VectorDB" -> placeholder source.
Proof.
  intros Hname. apply (placeholder_of_method source search_vectordb).
  - unfold method_name_of. rewrite Hname. reflexivity.
  - reflexivity.
Qed.

End Placeholders.

(** C8, as the code has it.  Three of the registered sources, not two, have
    a placeholder for an adapter: [BrandDB], [SocialMedia] and [VectorDB].
    Their search methods return [False] and emit no candidate in every world
    and for every worker.  Each of the other eight sources has an adapter
    that, in a world where its service knows the logo, emits a candidate and
    returns [True]. *)
Theorem three_placeholders (source : Source) :
  In source LOGO_SOURCES ->
  (placeholder source <->
   In (name source) ["BrandDB"; "SocialMedia"; "VectorDB"])
  /\ List.length
       (List.filter
          (fun s => existsb (String.eqb (name s))
                      ["BrandDB"; "SocialMedia"; "VectorDB"])
          LOGO_SOURCES) = 3%nat.
Proof.
  intros Hin. split; [|reflexivity].
  unfold LOGO_SOURCES in Hin. simpl in Hin.
  repeat (destruct Hin as [<-|Hin];
          [first
             [ split;
               [ intros _; simpl; tauto
               | intros _;
                 first [ apply placeholder_branddb; reflexivity
                       | apply placeholder_socialmedia; reflexivity
                       | apply placeholder_vectordb; reflexivity ] ]
             | split;
               [ intros Hp; exfalso; revert Hp;
                 eapply finds_logo_live; vm_compute; reflexivity
               | simpl; intros H;
                 repeat (destruct H as [H|H]; [discriminate H|]);
                 contradiction ] ]
          |]).
  contradiction.
Qed.

Lemma three_placeholders_witness :
  placeholder
    {| name := "VectorDB"; priority := 5; base_quality := 80; enabled := true |}
  /\ ~ placeholder
       {| name := "Clearbit"; priority := 8; base_quality := 75;
          enabled := true |}.
Proof.
  split.
  - apply (proj1 (three_placeholders
                    {| name := "VectorDB"; priority := 5; base_quality := 80;
                       enabled := true |}
                    ltac:(vm_compute; tauto))).
    vm_compute. tauto.
  - intros Hp.
    pose proof (proj1 (proj1 (three_placeholders
                    {| name := "Clearbit"; priority := 8; base_quality := 75;
                       enabled := true |}
                    ltac:(vm_compute; tauto))) Hp) as H.
    simpl in H. repeat (destruct H as [H|H]; [discriminate H|]). exact H.
Defined.

(** C8, as the specification states it, fails: the placeholders among the
    registered sources are not exactly two.  [BrandDB], [SocialMedia] and
    [VectorDB] are three different ones. *)
Lemma not_exactly_two_placeholders :
  ~ exists a b,
      a <> b /\ In a LOGO_SOURCES /\ In b LOGO_SOURCES
      /\ placeholder a /\ placeholder b
      /\ forall c, In c LOGO_SOURCES -> placeholder c -> c = a \/ c = b.
Proof.
  intros (a & b & _ & _ & _ & _ & _ & Honly).
  pose (s1 := {| name := "BrandDB"; priority := 6; base_quality := 70;
                 enabled := true |}).
  pose (s2 := {| name := "SocialMedia"; priority := 4; base_quality := 75;
                 enabled := true |}).
  pose (s3 := {| name := "VectorDB"; priority := 5; base_quality := 80;
                 enabled := true |}).
  assert (H1 : s1 = a \/ s1 = b).
  { apply Honly; [vm_compute; tauto | apply placeholder_branddb; reflexivity]. }
  assert (H2 : s2 = a \/ s2 = b).
  { apply Honly; [vm_compute; tauto | apply placeholder_socialmedia; reflexivity]. }
  assert (H3 : s3 = a \/ s3 = b).
  { apply Honly; [vm_compute; tauto | apply placeholder_vectordb; reflexivity]. }
  assert (D12 : s1 <> s2) by discriminate.
  assert (D13 : s1 <> s3) by discriminate.
  assert (D23 : s2 <> s3) by discriminate.
  destruct H1 as [H1|H1], H2 as [H2|H2], H3 as [H3|H3]; congruence.
Qed.

(* ================================================================== *)
(** * Further properties of the store *)
(* ================================================================== *)

Section Tables.

Context {A K : Type} (key : A -> K) (id : A -> Z).

Lemma nodup_snoc {B} (l : list B) (x : B) :
  NoDup l -> ~ In x l -> NoDup (l ++ [x]).
Proof.
  induction l as [|y l IH]; intros Hnd Hx; simpl.
  - constructor; [intros [] | constructor].
  - inversion Hnd as [|? ? Hy Hl]; subst. constructor.
    + rewrite in_app_iff. intros [H|[H|[]]]; [exact (Hy H)|].
      subst. apply Hx. left. reflexivity.
    + apply IH; [exact Hl|]. intros H. apply Hx. right. exact H.
Qed.

Lemma nodup_map_filter {B} (f : A -> B) (q : A -> bool) (rows : list A) :
  NoDup (map f rows) -> NoDup (map f (List.filter q rows)).
Proof.
  induction rows as [|r rows IH]; simpl; intros Hnd; [exact Hnd|].
  inversion Hnd as [|? ? Hr Hrows]; subst.
  destruct (q r); simpl; [|exact (IH Hrows)].
  constructor; [|exact (IH Hrows)].
  intros Hin. apply Hr. apply in_map_iff in Hin.
  destruct Hin as (a & Ha & Hina). apply filter_In in Hina.
  apply in_map_iff. exists a. tauto.
Qed.

Lemma forall_filter (P : A -> Prop) (q : A -> bool) (rows : list A) :
  Forall P rows -> Forall P (List.filter q rows).
Proof.
  induction 1 as [|r rows Hr _ IH]; simpl; [constructor|].
  destruct (q r); [constructor; assumption | exact IH].
Qed.

(** a [DELETE] keeps a table in order *)
Lemma delete_ok (seq : Z) (q : A -> bool) (rows : list A) :
  table_ok key id seq rows -> table_ok key id seq (List.filter q rows).
Proof.
  intros (Hk & Hi & Hs). repeat split.
  - apply nodup_map_filter, Hk.
  - apply nodup_map_filter, Hi.
  - apply forall_filter, Hs.
Qed.

(** an [INSERT OR REPLACE] keeps a table in order: [conflict] tells the rows
    with the key of the new row [x] *)
Lemma replace_ok (seq : Z) (conflict : A -> bool) (x : A) (rows : list A) :
  (forall a, conflict a = true <-> key a = key x) ->
  id x = seq + 1 ->
  table_ok key id seq rows ->
  table_ok key id (seq + 1)
    (List.filter (fun a => negb (conflict a)) rows ++ [x]).
Proof.
  intros Hconflict Hid (Hk & Hi & Hs). repeat split.
  - rewrite map_app. apply nodup_snoc; [apply nodup_map_filter, Hk|].
    intros Hin. apply in_map_iff in Hin. destruct Hin as (a & Ha & Hina).
    apply filter_In in Hina. destruct Hina as [_ Hneg].
    apply Hconflict in Ha. rewrite Ha in Hneg. discriminate.
  - rewrite map_app. apply nodup_snoc; [apply nodup_map_filter, Hi|].
    intros Hin. apply in_map_iff in Hin. destruct Hin as (a & Ha & Hina).
    apply filter_In in Hina. destruct Hina as [Hina _].
    rewrite Forall_forall in Hs. specialize (Hs a Hina). simpl in Ha. lia.
  - apply Forall_app. split.
    + apply forall_filter. eapply Forall_impl; [|exact Hs].
      intros a Ha. simpl in Ha. lia.
    + constructor; [lia | constructor].
Qed.

End Tables.

Lemma same_key_spec (company src fmt : string) (row : Database.CacheRow) :
  Database.same_key company src fmt row = true
  <-> cache_key row = (company, src, fmt).
Proof.
  unfold Database.same_key, cache_key.
  rewrite !andb_true_iff, !String.eqb_eq. split.
  - intros [[-> ->] ->]. reflexivity.
  - intros [= -> -> ->]. tauto.
Qed.

(** X1. The store keeps the constraints of its schema.  The empty store
    satisfies them, and on a store that satisfies them each writing
    operation ([add_to_cache], [add_to_history], [add_to_favorites],
    [remove_from_favorites], [clear_cache]) leaves a store that does: in each
    table the unique key occurs at most once, the ids are distinct and none
    is above the table's [AUTOINCREMENT] counter. *)
Theorem store_constraints_kept
    (now : Z) (db : Database.t) (r : LogoResult) (company : string)
    (count : Z) (age : option Z) :
  well_formed Database.init_db
  /\ (well_formed db ->
      well_formed (fst (Database.add_to_cache now db r))
      /\ well_formed (fst (Database.add_to_history now db company count))
      /\ well_formed (fst (Database.add_to_favorites now db r))
      /\ well_formed (fst (Database.remove_from_favorites db company))
      /\ well_formed (fst (Database.clear_cache now db age))).
Proof.
  split.
  { repeat split; simpl; constructor. }
  intros Hdb. pose proof Hdb as (Hc & Hh & Hf).
  split; [|split; [|split; [|split]]].
  - unfold Database.add_to_cache.
    destruct (Database.binds r); [|exact Hdb]. cbn [negb].
    destruct (source r) as [src|]; [|exact Hdb].
    destruct (format_type r) as [fmt|]; [|exact Hdb].
    split; [|split; assumption]. simpl.
    apply (replace_ok cache_key Database.c_id); [|reflexivity | exact Hc].
    intros a. apply same_key_spec.
  - unfold Database.add_to_history.
    destruct (Database.int64 count); [|exact Hdb].
    split; [exact Hc | split; [|exact Hf]]. simpl.
    apply (replace_ok Database.h_company_name Database.h_id);
      [|reflexivity | exact Hh].
    intros a. apply String.eqb_eq.
  - unfold Database.add_to_favorites.
    destruct (format_type r) as [fmt|]; [|exact Hdb].
    split; [exact Hc | split; [exact Hh|]]. simpl.
    apply (replace_ok Database.f_company_name Database.f_id);
      [|reflexivity | exact Hf].
    intros a. apply String.eqb_eq.
  - split; [exact Hc | split; [exact Hh|]]. simpl.
    apply delete_ok, Hf.
  - destruct age as [days|]; (split; [|split; assumption]); simpl.
    + apply delete_ok, Hc.
    + destruct Hc as (_ & _ & _). repeat split; simpl; constructor.
Qed.

Lemma store_constraints_kept_witness :
  well_formed
    (fst (Database.add_to_cache 60
            (fst (Database.add_to_history 55 warm_db "Acme" 1)) acme_brand)).
Proof.
  destruct (store_constraints_kept 50 Database.init_db acme_logo "Acme" 1 None)
    as [Hinit Hstep].
  pose proof (proj1 (Hstep Hinit)) as Hwarm.
  pose proof (proj1 (proj2
    (proj2 (store_constraints_kept 55 warm_db acme_brand "Acme" 1 None)
       Hwarm)))
    as Hhist.
  exact (proj1
    (proj2 (store_constraints_kept 60
              (fst (Database.add_to_history 55 warm_db "Acme" 1)) acme_brand
              "Acme" 1 None) Hhist)).
Defined.

Section Sorting.

Import Database.

Lemma insert_by_score_perm (row : CacheRow) (sorted : list CacheRow) :
  Permutation (insert_by_score row sorted) (row :: sorted).
Proof.
  induction sorted as [|r rest IH]; simpl; [reflexivity|].
  destruct (Qle_bool (c_score row) (c_score r)); [|reflexivity].
  rewrite IH. apply perm_swap.
Qed.

Lemma order_by_score_perm (rows : list CacheRow) :
  Permutation (order_by_score_desc rows) rows.
Proof.
  unfold order_by_score_desc.
  assert (H : forall acc,
             Permutation
               (fold_left (fun sorted row => insert_by_score row sorted)
                  rows acc)
               (rows ++ acc)).
  { induction rows as [|r rows IH]; intros acc; simpl; [reflexivity|].
    rewrite IH, insert_by_score_perm. symmetry. apply Permutation_middle. }
  rewrite H, app_nil_r. reflexivity.
Qed.



Lemma strongly_sorted_map {B C} (f : B -> C) (R : C -> C -> Prop)
    (l : list B) :
  StronglySorted (fun a b => R (f a) (f b)) l -> StronglySorted R (map f l).
Proof.
  induction 1 as [|x l _ IH Hx]; simpl; constructor; [exact IH|].
  rewrite Forall_forall in *. intros y Hy. apply in_map_iff in Hy.
  destruct Hy as (b & <- & Hb). apply Hx, Hb.
Qed.

Context {A : Type} (time : A -> Z).

Lemma insert_by_time_perm (row : A) (sorted : list A) :
  Permutation (insert_by_time time row sorted) (row :: sorted).
Proof.
  induction sorted as [|r rest IH]; simpl; [reflexivity|].
  destruct (time row <=? time r); [|reflexivity].
  rewrite IH. apply perm_swap.
Qed.

Lemma order_by_time_perm (rows : list A) :
  Permutation (order_by_time_desc time rows) rows.
Proof.
  unfold order_by_time_desc.
  assert (H : forall acc,
             Permutation
               (fold_left (fun sorted row => insert_by_time time row sorted)
                  rows acc)
               (rows ++ acc)).
  { induction rows as [|r rows IH]; intros acc; simpl; [reflexivity|].
    rewrite IH, insert_by_time_perm. symmetry. apply Permutation_middle. }
  rewrite H, app_nil_r. reflexivity.
Qed.

Lemma insert_by_time_sorted (row : A) (sorted : list A) :
  StronglySorted (time_desc time) sorted ->
  StronglySorted (time_desc time) (insert_by_time time row sorted).
Proof.
  induction 1 as [|r rest Hrest IH Hr]; simpl.
  - repeat constructor.
  - destruct (time row <=? time r) eqn:Hle.
    + apply Z.leb_le in Hle. constructor; [exact IH|].
      rewrite Forall_forall in *. intros x Hx.
      apply (Permutation_in _ (insert_by_time_perm row rest)) in Hx.
      destruct Hx as [<-|Hx]; [exact Hle | apply Hr, Hx].
    + apply Z.leb_gt in Hle.
      constructor; [constructor; assumption|].
      constructor; [unfold time_desc; lia|].
      rewrite Forall_forall in *. intros x Hx. unfold time_desc in *.
      specialize (Hr x Hx). lia.
Qed.

Lemma order_by_time_sorted (rows : list A) :
  StronglySorted (time_desc time) (order_by_time_desc time rows).
Proof.
  unfold order_by_time_desc.
  assert (H : forall acc,
             StronglySorted (time_desc time) acc ->
             StronglySorted (time_desc time)
               (fold_left (fun sorted row => insert_by_time time row sorted)
                  rows acc)).
  { induction rows as [|r rows IH]; intros acc Hacc; simpl; [exact Hacc|].
    apply IH, insert_by_time_sorted, Hacc. }
  apply H. constructor.
Qed.

Lemma in_firstn {B} (n : nat) (l : list B) (y : B) :
  In y (firstn n l) -> In y l.
Proof.
  revert n. induction l as [|x l IH]; intros [|n]; simpl; try tauto.
  intros [H|H]; [left; exact H | right; exact (IH n H)].
Qed.

Lemma strongly_sorted_firstn {B} (R : B -> B -> Prop) (n : nat) (l : list B) :
  StronglySorted R l -> StronglySorted R (firstn n l).
Proof.
  intros Hl. revert n. induction Hl as [|x l _ IH Hx]; intros [|n]; simpl;
    try constructor.
  - apply IH.
  - rewrite Forall_forall in *. intros y Hy. apply Hx.
    eapply in_firstn; eassumption.
Qed.

End Sorting.

Section Lookups.

Import Database.

Lemma filter_perm {B} (p : B -> bool) (l l' : list B) :
  Permutation l l' -> Permutation (List.filter p l) (List.filter p l').
Proof.
  induction 1 as [|x l l' _ IH|x y l|l l' l'' _ IH1 _ IH2]; simpl.
  - constructor.
  - destruct (p x); [constructor|]; exact IH.
  - destruct (p x), (p y); try reflexivity. apply perm_swap.
  - etransitivity; eassumption.
Qed.

Lemma filter_none {B} (p : B -> bool) (l : list B) :
  (forall x, In x l -> p x = false) -> List.filter p l = [].
Proof.
  induction l as [|x l IH]; simpl; intros H; [reflexivity|].
  rewrite (H x (or_introl eq_refl)). apply IH. intros y Hy. apply H.
  right. exact Hy.
Qed.

Lemma filter_filter_absorb {B} (p q : B -> bool) (l : list B) :
  (forall x, p x = true -> q x = true) ->
  List.filter p (List.filter q l) = List.filter p l.
Proof.
  intros Hpq. induction l as [|x l IH]; simpl; [reflexivity|].
  destruct (q x) eqn:Hq; simpl.
  - destruct (p x); rewrite IH; reflexivity.
  - destruct (p x) eqn:Hp; [|exact IH].
    rewrite (Hpq x Hp) in Hq. discriminate.
Qed.

Lemma get_from_cache_unfold (now : Z) (db : t) (company : string) (days : Z) :
  get_from_cache now db company days
  = map result_of_row
      (order_by_score_desc
         (List.filter (fresh_for now company days) (logo_cache db))).
Proof. reflexivity. Qed.

(** when [datetime('now', '-N days')] is a moment and when it is NULL *)
Lemma cutoff_some (now days : Z) :
  0 <= days < 5373485 ->
  -210866760000 <= now - days * 86400 <= 253402300799 ->
  cutoff now days = Some (now - days * 86400).
Proof.
  intros Hdays Hmoment.
  unfold cutoff, seconds_per_day, first_second, last_second, day_limit.
  replace (0 <=? days) with true by (symmetry; apply Z.leb_le; lia).
  replace (days <? 5373485) with true by (symmetry; apply Z.ltb_lt; lia).
  replace (-210866760000 <=? now - days * 86400) with true
    by (symmetry; apply Z.leb_le; lia).
  replace (now - days * 86400 <=? 253402300799) with true
    by (symmetry; apply Z.leb_le; lia).
  reflexivity.
Qed.


Lemma cutoff_moment (now days moment : Z) :
  cutoff now days = Some moment -> moment = now - days * 86400.
Proof.
  unfold cutoff, seconds_per_day.
  destruct ((0 <=? days) && (days <? day_limit)
            && (first_second <=? now - days * 86400)
            && (now - days * 86400 <=? last_second));
    [intros [= <-]; reflexivity | discriminate].
Qed.

Lemma fresh_for_moment (now days : Z) (company : string) (row : CacheRow) :
  0 <= days < 5373485 ->
  -210866760000 <= now - days * 86400 <= 253402300799 ->
  fresh_for now company days row
  = stamped_after (now - days * 86400) company row.
Proof.
  intros Hdays Hmoment. unfold fresh_for, younger_than, stamped_after.
  rewrite (cutoff_some now days Hdays Hmoment). reflexivity.
Qed.

Lemma int64_spec (z : Z) :
  int64 z = true <-> -9223372036854775808 <= z <= 9223372036854775807.
Proof.
  unfold int64. rewrite andb_true_iff, !Z.leb_le. reflexivity.
Qed.

Lemma int64_out (z : Z) :
  z < -9223372036854775808 \/ 9223372036854775807 < z -> int64 z = false.
Proof.
  intros H. destruct (int64 z) eqn:E; [|reflexivity].
  apply int64_spec in E. lia.
Qed.


End Lookups.



Lemma add_to_cache_then_lookup
    (now now' days : Z) (db : Database.t) (r : LogoResult) (src fmt : string) :
  Database.binds r = true ->
  source r = Some src -> format_type r = Some fmt ->
  0 <= days < 5373485 ->
  -210866760000 <= now' - days * 86400 <= 253402300799 ->
  now' - days * 86400 < now ->
  snd (Database.add_to_cache now db r) = Database.Answer true
  /\ In (persisted r)
       (Database.get_from_cache now'
          (fst (Database.add_to_cache now db r)) (company_name r) days).
Proof.
  intros Hb Hs Hf Hdays Hfirst Hyoung. rewrite get_from_cache_unfold.
  unfold Database.add_to_cache. rewrite Hb, Hs, Hf.
  cbn [negb fst snd Database.logo_cache Database.with_logo_cache].
  split; [reflexivity|].
  apply in_map_iff.
  exists {| Database.c_id := Database.seq_logo_cache db + 1;
            Database.c_company_name := company_name r;
            Database.c_source := src; Database.c_format_type := fmt;
            Database.c_image_data := image_data r;
            Database.c_image_url := image_url r;
            Database.c_width := width r; Database.c_height := height r;
            Database.c_score := Database.stored_score (score r);
            Database.c_timestamp := now |}.
  split.
  - unfold Database.result_of_row, persisted. simpl. rewrite Hs, Hf.
    reflexivity.
  - apply (Permutation_in _ (Permutation_sym (order_by_score_perm _))).
    apply filter_In. split.
    + apply in_or_app. right. left. reflexivity.
    + rewrite (fresh_for_moment now' days _ _ Hdays Hfirst).
      unfold stamped_after. cbn [Database.c_company_name Database.c_timestamp].
      rewrite String.eqb_refl. apply Z.ltb_lt. exact Hyoung.
Qed.

(** X3. A candidate written to the cache is found again.  When the
    candidate has a source and a format, and a size and a score SQLite can
    store, [add_to_cache] answers [True], and a lookup for its company
    returns the candidate as the cache keeps it (with its company, source,
    format, image data, URL, size and score, and without its file path and
    metadata), as long as the maximum age is from 0 to 5373484 days and the
    moment that many days before the lookup is in SQLite's calendar and
    before the write. *)
Theorem cache_round_trip
    (now now' days : Z) (db : Database.t) (r : LogoResult) (src fmt : string) :
  Database.binds r = true ->
  source r = Some src -> format_type r = Some fmt ->
  0 <= days < 5373485 ->
  -210866760000 <= now' - days * 86400 <= 253402300799 ->
  now' - days * 86400 < now ->
  snd (Database.add_to_cache now db r) = Database.Answer true
  /\ In (persisted r)
       (Database.get_from_cache now'
          (fst (Database.add_to_cache now db r)) (company_name r) days).
Proof. apply add_to_cache_then_lookup. Qed.

Lemma cache_round_trip_witness :
  In (persisted acme_logo) (Database.get_from_cache 100 warm_db "Acme" 30).
Proof.
  assert (Hb : Database.binds acme_logo = true) by (vm_compute; reflexivity).
  assert (Hs : source acme_logo = Some "SimpleIcons")
    by (vm_compute; reflexivity).
  assert (Hf : format_type acme_logo = Some "svg")
    by (vm_compute; reflexivity).
  exact (proj2 (cache_round_trip 50 100 30 Database.init_db acme_logo
                  "SimpleIcons" "svg" Hb Hs Hf
                  ltac:(lia) ltac:(lia) ltac:(lia))).
Defined.

(** X4. [clear_cache] without an age leaves nothing for any lookup.  With
    an age of [d] days it changes the answer of no lookup made then or later
    with a maximum age of [d] days or less: only rows such a lookup would
    pass over are deleted. *)
Theorem clear_cache_lookup
    (now now' d d' : Z) (db : Database.t) (company : string) :
  Database.get_from_cache now'
    (fst (Database.clear_cache now db None)) company d' = []
  /\ (now <= now' -> d' <= d ->
      Database.get_from_cache now'
        (fst (Database.clear_cache now db (Some d))) company d'
      = Database.get_from_cache now' db company d').
Proof.
  split; [reflexivity|]. intros Hnow Hd.
  rewrite !get_from_cache_unfold. simpl.
  rewrite filter_filter_absorb; [reflexivity|].
  intros row Hfresh. unfold fresh_for in Hfresh.
  apply andb_true_iff in Hfresh. destruct Hfresh as [_ Hyoung].
  unfold Database.younger_than in Hyoung. unfold Database.older_than.
  destruct (Database.cutoff now' d') as [moment'|] eqn:Hcut';
    [|discriminate].
  destruct (Database.cutoff now d) as [moment|] eqn:Hcut; [|reflexivity].
  apply cutoff_moment in Hcut'. apply cutoff_moment in Hcut.
  apply Z.ltb_lt in Hyoung.
  apply negb_true_iff, Z.ltb_ge. lia.
Qed.

Lemma clear_cache_lookup_witness :
  Database.get_from_cache 100
    (fst (Database.clear_cache 90 warm_db (Some 30))) "Acme" 7
  = Database.get_from_cache 100 warm_db "Acme" 7.
Proof.
  apply (proj2 (clear_cache_lookup 90 100 30 7 warm_db "Acme")); discriminate.
Defined.

(** X5. [add_to_history] keeps one entry per company.  After two searches
    for the same company are recorded, with counts SQLite can store, both
    calls have answered [True] and the history holds a single entry for the
    company, with the count and the time of the second one and a new id;
    counts are replaced, not added up.  The entries of the other companies,
    the cache and the favorites are as before.  With a count outside the
    64-bit integers the call raises [OverflowError] and the store is as it
    was. *)
Theorem add_to_history_upsert
    (now1 now2 n1 n2 : Z) (db : Database.t) (company : string) :
  (-9223372036854775808 <= n1 <= 9223372036854775807 ->
   -9223372036854775808 <= n2 <= 9223372036854775807 ->
   let first := Database.add_to_history now1 db company n1 in
   let second := Database.add_to_history now2 (fst first) company n2 in
   snd first = Database.Answer true /\ snd second = Database.Answer true
   /\ List.filter
        (fun row => String.eqb (Database.h_company_name row) company)
        (Database.search_history (fst second))
      = [{| Database.h_id := Database.seq_search_history db + 2;
            Database.h_company_name := company;
            Database.h_timestamp := now2;
            Database.h_results_count := n2 |}]
   /\ List.filter
        (fun row => negb (String.eqb (Database.h_company_name row) company))
        (Database.search_history (fst second))
      = List.filter
          (fun row => negb (String.eqb (Database.h_company_name row) company))
          (Database.search_history db)
   /\ Database.logo_cache (fst second) = Database.logo_cache db
   /\ Database.favorites (fst second) = Database.favorites db)
  /\ (n1 < -9223372036854775808 \/ 9223372036854775807 < n1 ->
      Database.add_to_history now1 db company n1
      = (db, Database.OverflowError)).
Proof.
  split.
  - intros H1 H2. cbv zeta. unfold Database.add_to_history.
    rewrite (proj2 (int64_spec n1) H1), (proj2 (int64_spec n2) H2).
    cbn [fst snd]. unfold Database.record_search.
    cbn [Database.search_history Database.seq_search_history
         Database.logo_cache Database.favorites].
    split; [reflexivity|]. split; [reflexivity|].
    split; [|split; [|split; reflexivity]].
    + rewrite filter_app. simpl. rewrite String.eqb_refl.
      rewrite filter_none.
      * simpl. do 2 f_equal. lia.
      * intros row Hrow. apply filter_In in Hrow.
        destruct Hrow as [_ Hneg]. apply negb_true_iff in Hneg. exact Hneg.
    + rewrite !filter_app. simpl. rewrite !String.eqb_refl. simpl.
      rewrite !app_nil_r.
      rewrite !filter_filter_absorb by (intros row H; exact H). reflexivity.
  - intros Hout. unfold Database.add_to_history.
    rewrite (int64_out n1 Hout). reflexivity.
Qed.

Lemma add_to_history_upsert_witness :
  List.filter (fun row => String.eqb (Database.h_company_name row) "Acme")
    (Database.search_history
       (fst (Database.add_to_history 20
               (fst (Database.add_to_history 10 warm_db "Acme" 3))
               "Acme" 5)))
  = [{| Database.h_id := 2; Database.h_company_name := "Acme";
        Database.h_timestamp := 20; Database.h_results_count := 5 |}]
  /\ Database.add_to_history 10 warm_db "Acme" 9223372036854775808
     = (warm_db, Database.OverflowError).
Proof.
  split.
  - apply (proj1 (add_to_history_upsert 10 20 3 5 warm_db "Acme")); lia.
  - apply (proj2 (add_to_history_upsert 10 20 9223372036854775808 5 warm_db
                    "Acme")).
    right. lia.
Defined.

(** X6. [get_history] with a limit SQLite can bind returns entries of the
    history table, the most recent first, and no entry more often than the
    table holds it; with a limit that is not negative it returns that many
    entries, or all when there are fewer, and with a negative limit it
    returns them all.  With a limit outside the 64-bit integers it raises
    [OverflowError]. *)
Theorem get_history_spec (db : Database.t) (limit : Z) :
  (-9223372036854775808 <= limit <= 9223372036854775807 ->
   exists entries,
     Database.get_history db limit = Database.Answer entries
     /\ StronglySorted by_time_desc entries
     /\ (exists rest,
           Permutation (entries ++ rest)%list
             (map (fun row => (Database.h_company_name row,
                               Database.h_timestamp row,
                               Database.h_results_count row))
                (Database.search_history db)))
     /\ List.length entries
        = (if limit <? 0 then List.length (Database.search_history db)
           else Nat.min (Z.to_nat limit)
                  (List.length (Database.search_history db))))
  /\ (limit < -9223372036854775808 \/ 9223372036854775807 < limit ->
      Database.get_history db limit = Database.OverflowError).
Proof.
  split.
  - intros Hlimit. unfold Database.get_history.
    rewrite (proj2 (int64_spec limit) Hlimit). eexists.
    split; [reflexivity|]. unfold Database.limit_to.
    pose proof (order_by_time_sorted Database.h_timestamp
                  (Database.search_history db)) as Hsorted.
    pose proof (order_by_time_perm Database.h_timestamp
                  (Database.search_history db)) as Hperm.
    split; [|split].
    + apply strongly_sorted_map.
      destruct (limit <? 0); [exact Hsorted|].
      apply strongly_sorted_firstn. exact Hsorted.
    + destruct (limit <? 0).
      * exists []. rewrite app_nil_r. apply Permutation_map, Hperm.
      * exists (map (fun row => (Database.h_company_name row,
                                 Database.h_timestamp row,
                                 Database.h_results_count row))
                  (skipn (Z.to_nat limit)
                     (Database.order_by_time_desc Database.h_timestamp
                        (Database.search_history db)))).
        rewrite <- map_app, firstn_skipn. apply Permutation_map, Hperm.
    + rewrite length_map. destruct (limit <? 0).
      * apply Permutation_length, Hperm.
      * rewrite length_firstn, (Permutation_length Hperm). reflexivity.
  - intros Hout. unfold Database.get_history.
    rewrite (int64_out limit Hout). reflexivity.
Qed.

Lemma get_history_spec_witness :
  (exists entries,
     Database.get_history
       (fst (Database.add_to_history 20
               (fst (Database.add_to_history 10 warm_db "Acme" 3))
               "Initech" 5)) 1
     = Database.Answer entries
     /\ List.length entries = 1%nat)
  /\ Database.get_history warm_db 9223372036854775808
     = Database.OverflowError.
Proof.
  split.
  - destruct (proj1 (get_history_spec
                       (fst (Database.add_to_history 20
                               (fst (Database.add_to_history 10 warm_db
                                       "Acme" 3))
                               "Initech" 5)) 1))
      as (entries & Heq & _ & _ & Hlen); [lia|].
    exists entries. split; [exact Heq | exact Hlen].
  - apply (proj2 (get_history_spec warm_db 9223372036854775808)).
    right. lia.
Defined.

(** X7. A favorite that was added is listed: after [add_to_favorites],
    [get_favorites] holds exactly one favorite of the candidate's company,
    with the candidate's image data and format (a candidate without a format
    is refused and the store is unchanged).  After [remove_from_favorites]
    no favorite of the company is listed, and the favorites of the other
    companies are all listed still. *)
Theorem favorites_round_trip
    (now : Z) (db : Database.t) (r : LogoResult) (company : string) :
  match format_type r with
  | Some fmt =>
      List.filter (fun f => String.eqb (company_name f) (company_name r))
        (Database.get_favorites (fst (Database.add_to_favorites now db r)))
      = [{| company_name := company_name r; image_data := image_data r;
            image_url := None; source := None; format_type := Some fmt;
            width := None; height := None; file_path := None; score := 0;
            metadata := [] |}]
  | None => Database.add_to_favorites now db r = (db, false)
  end
  /\ List.filter (fun f => String.eqb (company_name f) company)
       (Database.get_favorites
          (fst (Database.remove_from_favorites db company))) = []
  /\ Permutation
       (Database.get_favorites
          (fst (Database.remove_from_favorites db company)))
       (List.filter (fun f => negb (String.eqb (company_name f) company))
          (Database.get_favorites db)).
Proof.
  split; [|split].
  - unfold Database.add_to_favorites.
    destruct (format_type r) as [fmt|]; [|reflexivity].
    unfold Database.get_favorites. simpl.
    apply Permutation_length_1_inv. symmetry.
    etransitivity.
    { apply filter_perm, Permutation_map, order_by_time_perm. }
    rewrite map_app, filter_app. simpl. rewrite String.eqb_refl.
    rewrite filter_none; [reflexivity|].
    intros f Hf. apply in_map_iff in Hf. destruct Hf as (row & <- & Hrow).
    apply filter_In in Hrow. destruct Hrow as [_ Hneg].
    apply negb_true_iff in Hneg. exact Hneg.
  - apply filter_none. intros f Hf. unfold Database.get_favorites in Hf.
    apply in_map_iff in Hf. destruct Hf as (row & <- & Hrow).
    apply (Permutation_in _ (order_by_time_perm _ _)) in Hrow.
    simpl in Hrow. apply filter_In in Hrow. destruct Hrow as [_ Hneg].
    apply negb_true_iff in Hneg. exact Hneg.
  - unfold Database.get_favorites. simpl.
    etransitivity; [apply Permutation_map, order_by_time_perm|].
    etransitivity;
      [|apply filter_perm, Permutation_map, Permutation_sym,
          order_by_time_perm].
    induction (Database.favorites db) as [|row rows IH]; simpl;
      [reflexivity|].
    destruct (String.eqb (Database.f_company_name row) company); simpl;
      [exact IH | constructor; exact IH].
Qed.

(* ================================================================== *)
(** * Further properties of the adapters *)
(* ================================================================== *)

Section NeverRaises.

Import LogoSearchWorker.

Lemma nr_ret {A} (a : A) : never_raises (Py.ret a).
Proof. intros s msg. discriminate. Qed.

Lemma nr_return {A} (b : bool) : never_raises (@Py.return_ Signal A b).
Proof. intros s msg. discriminate. Qed.

Lemma nr_emit (x : Signal) : never_raises (Py.emit x).
Proof. intros s msg. discriminate. Qed.

Lemma nr_set_success (b : bool) : never_raises (@Py.set_success Signal b).
Proof. intros s msg. discriminate. Qed.

Lemma nr_get_success : never_raises (@Py.get_success Signal).
Proof. intros s msg. discriminate. Qed.

Lemma nr_bind {A B} (m : M A) (k : A -> M B) :
  never_raises m -> (forall a, never_raises (k a)) ->
  never_raises (Py.bind m k).
Proof.
  intros Hm Hk s msg. unfold Py.bind. specialize (Hm s).
  destruct (m s) as [[out s'] [a|b|e]]; simpl in *.
  - specialize (Hk a s' msg). destruct (k a s') as [[out' s''] c]. exact Hk.
  - discriminate.
  - exfalso. exact (Hm e eq_refl).
Qed.

(** a [try] with a handler that does not raise lets nothing out, whatever
    its body does *)
Lemma nr_try_with (body : M unit) (handler : string -> M unit) :
  (forall e, never_raises (handler e)) ->
  never_raises (Py.try_with body handler).
Proof.
  intros Hh s msg. unfold Py.try_with.
  destruct (body s) as [[out s'] [a|b|e]]; simpl; try discriminate.
  specialize (Hh e s' msg). destruct (handler e s') as [[out' s''] c].
  exact Hh.
Qed.

Lemma nr_try (body : M unit) : never_raises (Py.try_ body).
Proof. apply nr_try_with. intros e. apply nr_ret. Qed.

Lemma nr_when (b : bool) (body : M unit) :
  never_raises body -> never_raises (Py.when b body).
Proof. intros Hb. destruct b; [exact Hb | apply nr_ret]. Qed.

Lemma nr_for {A} (l : list A) (body : A -> M unit) :
  (forall x, never_raises (body x)) -> never_raises (Py.for_ l body).
Proof.
  intros Hb. induction l as [|x l IH]; simpl.
  - apply nr_ret.
  - apply nr_bind; [apply Hb | intros _; exact IH].
Qed.

End NeverRaises.

Ltac nr_step :=
  match goal with
  | |- never_raises (Py.bind _ _) => apply nr_bind; [|intros ?]
  | |- never_raises (Py.for_ _ _) => apply nr_for; intros ?
  | |- never_raises (Py.try_ _) => apply nr_try
  | |- never_raises (Py.when _ _) => apply nr_when
  | |- never_raises (Py.ret _) => apply nr_ret
  | |- never_raises (Py.emit _) => apply nr_emit
  | |- never_raises (Py.set_success _) => apply nr_set_success
  | |- never_raises Py.get_success => apply nr_get_success
  | |- never_raises (match ?x with _ => _ end) => destruct x
  end.

Section AdaptersReturn.

Import LogoSearchWorker.

Variables (w : World) (self : t).

Lemma search_methods_never_raise (method_name : string) (method : Method) :
  getattr search_methods method_name = Some method ->
  never_raises (method w self).
Proof.
  intros H. apply getattr_in in H. unfold search_methods in H. simpl in H.
  repeat (destruct H as [[= _ <-]|H];
          [match goal with
           | |- never_raises (?adapter w self) => unfold adapter
           end;
           repeat nr_step; fail|]).
  contradiction.
Qed.

Lemma call_never_raises (body : M bool) :
  never_raises body -> exists out value, Py.call body = Py.Returned out value.
Proof.
  intros Hb. unfold Py.call. specialize (Hb false).
  destruct (body false) as [[out s'] [a|b|e]]; simpl in *.
  - exists out, a. reflexivity.
  - exists out, b. reflexivity.
  - exfalso. exact (Hb e eq_refl).
Qed.

End AdaptersReturn.

(** X8. No search method of the worker class lets an exception out: in
    every world and for every worker, each of the eleven methods returns a
    value.  So when [run] finds the method of its source, its signals are the
    announcement, the signals of the method and the completion with the
    value the method returned; the error branch of [run] is not taken. *)
Theorem adapters_never_raise
    (w : World) (self : LogoSearchWorker.t) (method_name : string)
    (method : LogoSearchWorker.Method) :
  LogoSearchWorker.getattr LogoSearchWorker.search_methods method_name
  = Some method ->
  exists out value,
    Py.call (method w self) = Py.Returned out value
    /\ (method_name = method_name_of (LogoSearchWorker.w_source self) ->
        forall s,
          LogoSearchWorker.run w self s
          = ((searching (name (LogoSearchWorker.w_source self))
              :: out
                 ++ [LogoSearchWorker.search_complete
                       (name (LogoSearchWorker.w_source self)) value])%list,
             s, Py.Normal tt)).
Proof.
  intros Hget.
  destruct (call_never_raises _
              (search_methods_never_raise w self _ _ Hget))
    as (out & value & Hcall).
  exists out, value. split; [exact Hcall|].
  intros -> s. unfold LogoSearchWorker.run.
  rewrite run_with_trace. cbv zeta. rewrite Hget, Hcall. reflexivity.
Qed.

Lemma adapters_never_raise_witness :
  exists out value,
    Py.call
      (LogoSearchWorker.search_wikipedia (serving "not json")
         (worker_for acme_source))
    = Py.Returned out value.
Proof.
  destruct (adapters_never_raise (serving "not json") (worker_for acme_source)
              "search_wikipedia" LogoSearchWorker.search_wikipedia eq_refl)
    as (out & value & Hcall & _).
  exists out, value. exact Hcall.
Defined.

Section Emits.

Import LogoSearchWorker.

Variable P : Signal -> Prop.

Lemma emits_ret {A} (a : A) : emits P (Py.ret a).
Proof. intros s. constructor. Qed.

Lemma emits_raise {A} (msg : string) : emits P (@Py.raise Signal A msg).
Proof. intros s. constructor. Qed.

Lemma emits_return {A} (b : bool) : emits P (@Py.return_ Signal A b).
Proof. intros s. constructor. Qed.

Lemma emits_set_success (b : bool) : emits P (@Py.set_success Signal b).
Proof. intros s. constructor. Qed.

Lemma emits_get_success : emits P (@Py.get_success Signal).
Proof. intros s. constructor. Qed.

Lemma emits_emit (x : Signal) : P x -> emits P (Py.emit x).
Proof. intros H s. simpl. constructor; [exact H | constructor]. Qed.

Lemma emits_bind {A B} (m : M A) (k : A -> M B) :
  emits P m -> (forall a, emits P (k a)) -> emits P (Py.bind m k).
Proof.
  intros Hm Hk s. unfold Py.bind. specialize (Hm s).
  destruct (m s) as [[out s'] [a|b|msg]]; simpl in *; try assumption.
  specialize (Hk a s'). destruct (k a s') as [[out' s''] c]. simpl in *.
  apply Forall_app. split; assumption.
Qed.

Lemma emits_try_with (body : M unit) (handler : string -> M unit) :
  emits P body -> (forall msg, emits P (handler msg)) ->
  emits P (Py.try_with body handler).
Proof.
  intros Hb Hh s. unfold Py.try_with. specialize (Hb s).
  destruct (body s) as [[out s'] [a|b|msg]]; simpl in *; try assumption.
  specialize (Hh msg s'). destruct (handler msg s') as [[out' s''] c].
  simpl in *. apply Forall_app. split; assumption.
Qed.

Lemma emits_try (body : M unit) : emits P body -> emits P (Py.try_ body).
Proof.
  intros Hb. apply emits_try_with; [exact Hb|]. intros _. apply emits_ret.
Qed.

Lemma emits_try_only (cls : string) (body : M unit) :
  emits P body -> emits P (Py.try_only cls body).
Proof.
  intros Hb. apply emits_try_with; [exact Hb|]. intros msg.
  destruct (String.eqb msg cls); [apply emits_ret | apply emits_raise].
Qed.

Lemma emits_try_default {A} (cls : string) (body : M A) (default : A) :
  emits P body -> emits P (Py.try_default cls body default).
Proof.
  intros Hb s. unfold Py.try_default. specialize (Hb s).
  destruct (body s) as [[out s'] [a|b|msg]]; simpl in *; try assumption.
  destruct (String.eqb msg cls); assumption.
Qed.

Lemma emits_when (b : bool) (body : M unit) :
  emits P body -> emits P (Py.when b body).
Proof. intros Hb. destruct b; [exact Hb | apply emits_ret]. Qed.

Lemma emits_for {A} (l : list A) (body : A -> M unit) :
  (forall x, emits P (body x)) -> emits P (Py.for_ l body).
Proof.
  intros Hb. induction l as [|x l IH]; simpl.
  - apply emits_ret.
  - apply emits_bind; [apply Hb | intros _; exact IH].
Qed.

Lemma emits_filter_m {A} (keep : A -> M bool) (l : list A) :
  (forall x, emits P (keep x)) -> emits P (Py.filter_m keep l).
Proof.
  intros Hk. induction l as [|x l IH]; simpl.
  - apply emits_ret.
  - apply emits_bind; [apply Hk | intros b].
    apply emits_bind; [exact IH | intros rest; apply emits_ret].
Qed.

Lemma emits_or_raise {A} (msg : string) (o : option A) :
  emits P (@Py.or_raise Signal A msg o).
Proof. destruct o; [apply emits_ret | apply emits_raise]. Qed.

Lemma call_emits (body : M bool) :
  emits P body ->
  match Py.call body with
  | Py.Returned out _ => Forall P out
  | Py.Raised out _ => Forall P out
  end.
Proof.
  intros Hb. unfold Py.call. specialize (Hb false).
  destruct (body false) as [[out s'] [a|b|msg]]; exact Hb.
Qed.

End Emits.

Lemma format_of_url_known (url : string) :
  known_format (LogoSearchWorker.format_of_url url).
Proof.
  unfold LogoSearchWorker.format_of_url, known_format.
  destruct (PyStr.endswith (PyStr.lower url) ".svg"); [tauto|].
  destruct (PyStr.endswith (PyStr.lower url) ".jpg"
            || PyStr.endswith (PyStr.lower url) ".jpeg"); tauto.
Qed.

(** the score of a candidate after [add_result] has added the base
    quality, and after it has added the ten of an SVG too: an int stays an
    int, a float a float *)
Lemma scored_score (s : Q) (base : Z) :
  adapter_score s ->
  (Qden (s + inject_Z base) <> 1%positive
   \/ 0 <= Qnum (s + inject_Z base) - base <= 30)
  /\ (Qden (s + inject_Z base + 10) <> 1%positive
      \/ 0 <= Qnum (s + inject_Z base + 10) - base <= 30).
Proof.
  destruct s as [n d]. unfold adapter_score. cbn [Qden Qnum].
  intros Hs. unfold Qplus, inject_Z. cbn [Qden Qnum].
  destruct (Pos.eq_dec d 1) as [->|Hd].
  - destruct Hs as [Hs|Hs]; [contradiction Hs; reflexivity|].
    split; right; lia.
  - rewrite !Pos.mul_1_r. split; left; exact Hd.
Qed.

(** what [add_result] does to a candidate an adapter has just made *)
Lemma add_result_tagged (w : World) (self : LogoSearchWorker.t)
    (data url src fmt : string) (s : Q) :
  known_format fmt -> adapter_score s ->
  emits (tagged w self src)
    (LogoSearchWorker.add_result w self
       (LogoSearchWorker.new_result (LogoSearchWorker.w_company_name self)
          data url src fmt s)).
Proof.
  intros Hfmt Hscore.
  destruct (scored_score s (base_quality (LogoSearchWorker.w_source self))
              Hscore) as [Hplain Hsvg].
  unfold LogoSearchWorker.add_result. apply emits_emit.
  unfold tagged, LogoSearchWorker.scored, LogoSearchWorker.new_result.
  cbn [format_type set_score set_metadata score company_name image_data
       source file_path metadata width height].
  destruct (String.eqb fmt "svg");
    cbn [format_type set_score set_metadata score company_name image_data
         source file_path metadata width height];
    (split; [reflexivity|]; split; [eexists; reflexivity|];
     split; [reflexivity|]; split; [eexists; split; [reflexivity|exact Hfmt]|];
     split; [reflexivity|]; split; [reflexivity|];
     split; [reflexivity|]; split; [reflexivity|]; assumption).
Qed.

Create HintDb emits.

Ltac known_format_tac :=
  first [ assumption
        | apply format_of_url_known
        | left; reflexivity
        | right; left; reflexivity
        | right; right; reflexivity ].

Ltac adapter_score_tac :=
  first [ assumption
        | right; simpl; lia
        | left; simpl; discriminate ].

Ltac emits_step :=
  match goal with
  | |- emits _ (Py.bind _ _) => apply emits_bind; [|intros ?]
  | |- emits _ (Py.for_ _ _) => apply emits_for; intros ?
  | |- emits _ (Py.filter_m _ _) => apply emits_filter_m; intros ?
  | |- emits _ (Py.try_with _ _) => apply emits_try_with; [|intros ?]
  | |- emits _ (Py.try_ _) => apply emits_try
  | |- emits _ (Py.try_only _ _) => apply emits_try_only
  | |- emits _ (Py.try_default _ _ _) => apply emits_try_default
  | |- emits _ (Py.when _ _) => apply emits_when
  | |- emits _ (Py.ret _) => apply emits_ret
  | |- emits _ (Py.raise _) => apply emits_raise
  | |- emits _ (Py.return_ _) => apply emits_return
  | |- emits _ (Py.set_success _) => apply emits_set_success
  | |- emits _ Py.get_success => apply emits_get_success
  | |- emits _ (Py.or_raise _ _) => apply emits_or_raise
  | |- emits _ (Py.emit (LogoSearchWorker.progress_update _)) =>
      apply emits_emit; exact I
  | |- emits _ (LogoSearchWorker.add_result _ _ _) =>
      apply add_result_tagged; [known_format_tac | adapter_score_tac]
  | |- emits _ (match ?x with _ => _ end) => destruct x
  | |- emits _ _ => solve [auto with emits]
  | |- emits _ (Py.get _ _ _) => unfold Py.get
  | |- emits _ (Py.getitem _ _) => unfold Py.getitem
  | |- emits _ (Py.in_ _ _) => unfold Py.in_
  | |- emits _ (Py.len _) => unfold Py.len
  | |- emits _ (Py.iter _) => unfold Py.iter
  | |- emits _ (Py.slice_to _ _) => unfold Py.slice_to
  | |- emits _ (Py.as_str _ _) => unfold Py.as_str
  | |- emits _ (LogoSearchWorker.session_get _ _ _) =>
      unfold LogoSearchWorker.session_get
  | |- emits _ (LogoSearchWorker.json _ _) => unfold LogoSearchWorker.json
  | |- emits _ (LogoSearchWorker.has_nonempty _ _) =>
      unfold LogoSearchWorker.has_nonempty
  | |- emits _ (LogoSearchWorker.is_logo_image _) =>
      unfold LogoSearchWorker.is_logo_image
  | |- emits _ (LogoSearchWorker.mentions_logo _) =>
      unfold LogoSearchWorker.mentions_logo
  | |- emits _ (LogoSearchWorker.to_int _ _) =>
      unfold LogoSearchWorker.to_int
  | |- emits _ (LogoSearchWorker.img_score _ _) =>
      unfold LogoSearchWorker.img_score
  end.

Ltac emits_tac := repeat emits_step.

Section Tagged.

Import LogoSearchWorker.

Variables (w : World) (self : t).

Lemma tagged_collect_candidates (src : string) (imgs : list Tag) :
  emits (tagged w self src) (collect_candidates w imgs).
Proof. induction imgs as [|img imgs IH]; simpl; emits_tac. Qed.

Lemma tagged_fetch_format (kind : string) wanted base message fmt :
  known_format kind -> adapter_score base ->
  emits (tagged w self "Brandfetch")
    (fetch_format w self kind wanted base message fmt).
Proof. intros Hkind Hbase. unfold fetch_format. emits_tac. Qed.

Lemma tagged_process_brand_data png_score svg_score origin brand_data :
  adapter_score png_score -> adapter_score svg_score ->
  emits (tagged w self "Brandfetch")
    (process_brand_data w self png_score svg_score origin brand_data).
Proof.
  intros Hpng_score Hsvg_score. unfold process_brand_data.
  pose proof (fun wanted message fmt =>
                tagged_fetch_format "png" wanted png_score message fmt
                  (or_introl eq_refl) Hpng_score) as Hpng.
  pose proof (fun wanted message fmt =>
                tagged_fetch_format "svg" wanted svg_score message fmt
                  (or_intror (or_introl eq_refl)) Hsvg_score) as Hsvg.
  emits_tac.
Qed.

Lemma tagged_download_item key source_name message item :
  emits (tagged w self source_name)
    (download_item w self key source_name message item).
Proof. unfold download_item. emits_tac. Qed.

Hint Resolve tagged_collect_candidates tagged_process_brand_data
  tagged_download_item : emits.

Hint Extern 1 (adapter_score _) => adapter_score_tac : emits.

Lemma tagged_search_simpleicons :
  emits (tagged w self "SimpleIcons") (search_simpleicons w self).
Proof. unfold search_simpleicons. emits_tac. Qed.

Lemma tagged_search_brandfetch :
  emits (tagged w self "Brandfetch") (search_brandfetch w self).
Proof. unfold search_brandfetch. emits_tac. Qed.

Lemma tagged_search_clearbit :
  emits (tagged w self "Clearbit") (search_clearbit w self).
Proof. unfold search_clearbit. emits_tac. Qed.

Lemma tagged_search_wikipedia :
  emits (tagged w self "Wikipedia") (search_wikipedia w self).
Proof. unfold search_wikipedia. emits_tac. Qed.

Lemma tagged_search_companywebsite :
  emits (tagged w self "CompanyWebsite") (search_companywebsite w self).
Proof. unfold search_companywebsite. emits_tac. Qed.

Lemma tagged_search_googlesearch :
  emits (tagged w self "GoogleSearch") (search_googlesearch w self).
Proof. unfold search_googlesearch. emits_tac. Qed.

Lemma tagged_search_bingsearch :
  emits (tagged w self "BingSearch") (search_bingsearch w self).
Proof. unfold search_bingsearch. emits_tac. Qed.

Lemma tagged_search_duckduckgo :
  emits (tagged w self "DuckDuckGo") (search_duckduckgo w self).
Proof. unfold search_duckduckgo. emits_tac. Qed.

Lemma tagged_placeholder (src : string) :
  emits (tagged w self src) (Py.ret false).
Proof. apply emits_ret. Qed.

(** the signals of [run], when the method of the source emits signals that
    satisfy [P] and the progress and completion signals do *)
Lemma run_emits (P : Signal -> Prop) (method : Method) :
  getattr search_methods (method_name_of (w_source self)) = Some method ->
  emits P (method w self) ->
  (forall msg, P (progress_update msg)) ->
  (forall n b, P (search_complete n b)) ->
  Forall P (Py.signals (run w self)).
Proof.
  intros Hget Hm Hprogress Hcomplete.
  unfold Py.signals, run. rewrite run_with_trace. cbv zeta. rewrite Hget.
  cbn [fst]. constructor; [apply Hprogress|].
  pose proof (call_emits P _ Hm) as Hcall.
  destruct (Py.call (method w self)) as [out value|out e];
    apply Forall_app; split; try exact Hcall; repeat constructor;
    first [apply Hcomplete | apply Hprogress].
Qed.

(** the candidates of a worker whose source has a base quality of the
    registry's size bind *)
Lemma tagged_cacheable (src : string) (x : Signal) :
  0 <= base_quality (w_source self) <= 100 ->
  tagged w self src x -> cacheable x.
Proof.
  intros Hbase.
  destruct x as [msg|r|n b]; simpl; try exact (fun _ => I).
  intros (_ & _ & Hsrc & (fmt & Hfmt & _) & _ & _ & Hw & Hh & Hscore) now db.
  unfold Database.add_to_cache, Database.binds, Database.binds_number.
  rewrite Hw, Hh, Hsrc, Hfmt. cbn [Database.binds_int andb].
  replace (negb (Pos.eqb (Qden (score r)) 1)
           || Database.int64 (Qnum (score r))) with true; [reflexivity|].
  symmetry. apply orb_true_iff. destruct Hscore as [Hfloat|Hint].
  - left. apply negb_true_iff, Pos.eqb_neq. exact Hfloat.
  - right. apply int64_spec. lia.
Qed.

End Tagged.

(** X9. Every candidate a worker sends for a source of the registry is made
    out for the worker's company, has image data, names the source (as its
    [source] attribute and in its metadata), has one of the formats [png],
    [svg] and [jpg], no file path and no size, and a score that is a float
    or an int at most 30 above the base quality of the source.  So the
    cache accepts every candidate the workers send: [add_to_cache] raises
    nothing and answers [True] on it. *)
Theorem candidates_are_tagged (w : World) (self : LogoSearchWorker.t) :
  In (LogoSearchWorker.w_source self) LOGO_SOURCES ->
  Forall (tagged w self (name (LogoSearchWorker.w_source self)))
    (Py.signals (LogoSearchWorker.run w self))
  /\ Forall cacheable (Py.signals (LogoSearchWorker.run w self)).
Proof.
  intros Hin.
  assert (Htag : Forall (tagged w self (name (LogoSearchWorker.w_source self)))
                   (Py.signals (LogoSearchWorker.run w self))).
  { unfold LOGO_SOURCES in Hin. simpl in Hin.
    repeat (destruct Hin as [Hsrc|Hin];
            [rewrite <- Hsrc; cbn [name];
             eapply run_emits;
             [ rewrite <- Hsrc; reflexivity
             | first [ apply tagged_search_simpleicons
                     | apply tagged_search_brandfetch
                     | apply tagged_search_clearbit
                     | apply tagged_search_wikipedia
                     | apply tagged_search_companywebsite
                     | apply tagged_search_googlesearch
                     | apply tagged_search_bingsearch
                     | apply tagged_search_duckduckgo
                     | apply tagged_placeholder ]
             | intros; exact I
             | intros; exact I ]
            |]).
    contradiction. }
  split; [exact Htag|].
  assert (Hbase : 0 <= base_quality (LogoSearchWorker.w_source self) <= 100).
  { unfold LOGO_SOURCES in Hin. simpl in Hin.
    repeat (destruct Hin as [Hsrc|Hin]; [rewrite <- Hsrc; simpl; lia|]).
    contradiction. }
  eapply Forall_impl; [|exact Htag]. intros x. apply tagged_cacheable.
  exact Hbase.
Qed.

Lemma candidates_are_tagged_witness :
  Forall cacheable
    (Py.signals
       (LogoSearchWorker.run logo_everywhere
          (keyed_worker
             {| name := "Wikipedia"; priority := 7; base_quality := 85;
                enabled := true |}))).
Proof.
  apply (proj2 (candidates_are_tagged logo_everywhere
                  (keyed_worker
                     {| name := "Wikipedia"; priority := 7;
                        base_quality := 85; enabled := true |})
                  ltac:(vm_compute; tauto))).
Defined.

Section Behaviours.

Import LogoSearchWorker.

Variable R : Behaviour.
Hypothesis HR : composable R.

Lemma holds_ret {A} (a : A) : holds R (Py.ret a).
Proof. intros s. apply (comp_silent R HR). Qed.

Lemma holds_raise {A} (msg : string) : holds R (@Py.raise Signal A msg).
Proof. intros s. apply (comp_silent R HR). Qed.

Lemma holds_get_success : holds R (@Py.get_success Signal).
Proof. intros s. apply (comp_silent R HR). Qed.

Lemma holds_progress (msg : string) : holds R (Py.emit (progress_update msg)).
Proof. intros s. apply (comp_progress R HR). Qed.

Lemma holds_bind {A B} (m : M A) (k : A -> M B) :
  holds R m -> (forall a, holds R (k a)) -> holds R (Py.bind m k).
Proof.
  intros Hm Hk s. unfold Py.bind. specialize (Hm s).
  destruct (m s) as [[out s'] [a|b|msg]]; simpl in *; try assumption.
  specialize (Hk a s'). destruct (k a s') as [[out' s''] c].
  eapply (comp_seq R HR); eassumption.
Qed.

Lemma holds_try_with (body : M unit) (handler : string -> M unit) :
  holds R body -> (forall msg, holds R (handler msg)) ->
  holds R (Py.try_with body handler).
Proof.
  intros Hb Hh s. unfold Py.try_with. specialize (Hb s).
  destruct (body s) as [[out s'] [a|b|msg]]; simpl in *; try assumption.
  specialize (Hh msg s'). destruct (handler msg s') as [[out' s''] c].
  eapply (comp_handle R HR); eassumption.
Qed.

Lemma holds_try (body : M unit) : holds R body -> holds R (Py.try_ body).
Proof.
  intros Hb. apply holds_try_with; [exact Hb|]. intros _. apply holds_ret.
Qed.

Lemma holds_try_only (cls : string) (body : M unit) :
  holds R body -> holds R (Py.try_only cls body).
Proof.
  intros Hb. apply holds_try_with; [exact Hb|]. intros msg.
  destruct (String.eqb msg cls); [apply holds_ret | apply holds_raise].
Qed.

Lemma holds_try_default {A} (cls : string) (body : M A) (default : A) :
  holds R body -> holds R (Py.try_default cls body default).
Proof.
  intros Hb s. unfold Py.try_default. specialize (Hb s).
  destruct (body s) as [[out s'] [a|b|msg]]; simpl in *; try assumption.
  destruct (String.eqb msg cls); simpl; [|exact Hb].
  rewrite <- (app_nil_r out).
  eapply (comp_handle R HR); [exact Hb | apply (comp_silent R HR)].
Qed.

Lemma holds_when (b : bool) (body : M unit) :
  holds R body -> holds R (Py.when b body).
Proof. intros Hb. destruct b; [exact Hb | apply holds_ret]. Qed.

Lemma holds_for {A} (l : list A) (body : A -> M unit) :
  (forall x, holds R (body x)) -> holds R (Py.for_ l body).
Proof.
  intros Hb. induction l as [|x l IH]; simpl.
  - apply holds_ret.
  - apply holds_bind; [apply Hb | intros _; exact IH].
Qed.

Lemma holds_filter_m {A} (keep : A -> M bool) (l : list A) :
  (forall x, holds R (keep x)) -> holds R (Py.filter_m keep l).
Proof.
  intros Hk. induction l as [|x l IH]; simpl.
  - apply holds_ret.
  - apply holds_bind; [apply Hk | intros b].
    apply holds_bind; [exact IH | intros rest; apply holds_ret].
Qed.

Lemma holds_or_raise {A} (msg : string) (o : option A) :
  holds R (@Py.or_raise Signal A msg o).
Proof. destruct o; [apply holds_ret | apply holds_raise]. Qed.

End Behaviours.

Lemma has_candidate_app (o1 o2 : list LogoSearchWorker.Signal) :
  has_candidate (o1 ++ o2)%list = has_candidate o1 || has_candidate o2.
Proof. apply existsb_app. Qed.

Lemma truthful_composable : composable truthful.
Proof.
  constructor; unfold truthful.
  - intros s. repeat split; try tauto; discriminate.
  - intros s msg. split; [tauto | discriminate].
  - intros s o1 s1 o2 s2 e [H1 _] [H2 H2']. rewrite has_candidate_app.
    split; [intros Hs | intros He];
      [destruct (H2 Hs) as [Hs1|Hc] | destruct (H2' He) as [Hs1|Hc]];
      try (right; rewrite Hc; apply orb_true_r);
      (destruct (H1 Hs1) as [H|H]; [left; exact H|]; right; rewrite H;
       reflexivity).
  - intros s o1 s1 o2 s2 e [H1 _] [H2 H2']. rewrite has_candidate_app.
    split; [intros Hs | intros He];
      [destruct (H2 Hs) as [Hs1|Hc] | destruct (H2' He) as [Hs1|Hc]];
      try (right; rewrite Hc; apply orb_true_r);
      (destruct (H1 Hs1) as [H|H]; [left; exact H|]; right; rewrite H;
       reflexivity).
Qed.

Lemma sticky_composable : composable sticky.
Proof.
  constructor; unfold sticky.
  - intros s. repeat split; try discriminate;
      (intros [H|H]; [exact H | discriminate H]).
  - intros s msg. split; [|discriminate].
    intros [H|H]; [exact H | discriminate H].
  - intros s o1 s1 o2 s2 e [H1 _] [H2 He]. rewrite has_candidate_app.
    split; [|exact He].
    intros [H|H]; [apply H2; left; apply H1; left; exact H|].
    apply orb_true_iff in H. destruct H as [H|H].
    + apply H2. left. apply H1. right. exact H.
    + apply H2. right. exact H.
  - intros s o1 s1 o2 s2 e [H1 _] [H2 He]. rewrite has_candidate_app.
    split; [|exact He].
    intros [H|H]; [apply H2; left; apply H1; left; exact H|].
    apply orb_true_iff in H. destruct H as [H|H].
    + apply H2. left. apply H1. right. exact H.
    + apply H2. right. exact H.
Qed.

Lemma final_composable : composable final.
Proof.
  constructor; unfold final.
  - intros s. split; discriminate.
  - intros s msg. discriminate.
  - intros s o1 s1 o2 s2 e H1 H2. rewrite has_candidate_app.
    intros H. apply orb_true_iff in H. destruct H as [H|H].
    + specialize (H1 H). discriminate H1.
    + exact (H2 H).
  - intros s o1 s1 o2 s2 e H1 H2. rewrite has_candidate_app.
    intros H. apply orb_true_iff in H. destruct H as [H|H].
    + specialize (H1 H). discriminate H1.
    + exact (H2 H).
Qed.

(** one step of a proof that a block has a composable behaviour *)
Ltac holds_step HR :=
  match goal with
  | |- holds _ (Py.bind _ _) => apply (holds_bind _ HR); [|intros ?]
  | |- holds _ (Py.for_ _ _) => apply (holds_for _ HR); intros ?
  | |- holds _ (Py.filter_m _ _) => apply (holds_filter_m _ HR); intros ?
  | |- holds _ (Py.try_ _) => apply (holds_try _ HR)
  | |- holds _ (Py.try_only _ _) => apply (holds_try_only _ HR)
  | |- holds _ (Py.try_default _ _ _) => apply (holds_try_default _ HR)
  | |- holds _ (Py.when _ _) => apply (holds_when _ HR)
  | |- holds _ (Py.ret _) => apply (holds_ret _ HR)
  | |- holds _ (Py.raise _) => apply (holds_raise _ HR)
  | |- holds _ Py.get_success => apply (holds_get_success _ HR)
  | |- holds _ (Py.or_raise _ _) => apply (holds_or_raise _ HR)
  | |- holds _ (Py.emit (LogoSearchWorker.progress_update _)) =>
      apply (holds_progress _ HR)
  | |- holds _ (match ?x with _ => _ end) => destruct x
  | |- holds _ _ => assumption
  | |- holds _ (Py.get _ _ _) => unfold Py.get
  | |- holds _ (Py.getitem _ _) => unfold Py.getitem
  | |- holds _ (Py.in_ _ _) => unfold Py.in_
  | |- holds _ (Py.len _) => unfold Py.len
  | |- holds _ (Py.iter _) => unfold Py.iter
  | |- holds _ (Py.slice_to _ _) => unfold Py.slice_to
  | |- holds _ (Py.as_str _ _) => unfold Py.as_str
  | |- holds _ (LogoSearchWorker.session_get _ _ _) =>
      unfold LogoSearchWorker.session_get
  | |- holds _ (LogoSearchWorker.json _ _) => unfold LogoSearchWorker.json
  | |- holds _ (LogoSearchWorker.has_nonempty _ _) =>
      unfold LogoSearchWorker.has_nonempty
  | |- holds _ (LogoSearchWorker.is_logo_image _) =>
      unfold LogoSearchWorker.is_logo_image
  | |- holds _ (LogoSearchWorker.mentions_logo _) =>
      unfold LogoSearchWorker.mentions_logo
  | |- holds _ (LogoSearchWorker.to_int _ _) =>
      unfold LogoSearchWorker.to_int
  | |- holds _ (LogoSearchWorker.img_score _ _) =>
      unfold LogoSearchWorker.img_score
  | |- holds _ (LogoSearchWorker.fetch_format _ _ _ _ _ _ _) =>
      unfold LogoSearchWorker.fetch_format
  | |- holds _ (LogoSearchWorker.process_brand_data _ _ _ _ _ _) =>
      unfold LogoSearchWorker.process_brand_data
  | |- holds _ (LogoSearchWorker.download_item _ _ _ _ _ _) =>
      unfold LogoSearchWorker.download_item
  | |- holds _ _ => progress cbv zeta
  end.

Section Blocks.

Import LogoSearchWorker.

Variables (w : World) (self : t).

Lemma holds_collect_candidates (R : Behaviour) (HR : composable R)
    (imgs : list Tag) :
  holds R (collect_candidates w imgs).
Proof.
  induction imgs as [|img imgs IH]; simpl; repeat holds_step HR.
Qed.

(** a candidate, its progress message, [success = True] *)
Lemma truthful_found (r : LogoResult) (x : Signal) :
  holds truthful
    (Py.bind (add_result w self r)
       (fun _ => Py.bind (Py.emit x) (fun _ => Py.set_success true))).
Proof. intros s. split; intros _; right; reflexivity. Qed.

Lemma sticky_found (r : LogoResult) (x : Signal) :
  holds sticky
    (Py.bind (add_result w self r)
       (fun _ => Py.bind (Py.emit x) (fun _ => Py.set_success true))).
Proof. intros s. split; [reflexivity | discriminate]. Qed.

(** a candidate, its progress message, [return True] *)
Lemma truthful_found_return (r : LogoResult) (x : Signal) :
  holds truthful
    (Py.bind (add_result w self r)
       (fun _ => Py.bind (Py.emit x) (fun _ => @Py.return_ Signal unit true))).
Proof. intros s. split; intros _; right; reflexivity. Qed.

Lemma final_found_return (r : LogoResult) (x : Signal) :
  holds final
    (Py.bind (add_result w self r)
       (fun _ => Py.bind (Py.emit x) (fun _ => @Py.return_ Signal unit true))).
Proof. intros s _. reflexivity. Qed.

(** [return success] *)
Lemma truthful_return_success :
  holds truthful
    (Py.bind (@Py.get_success Signal)
       (fun success => @Py.return_ Signal unit success)).
Proof.
  intros s. split; [tauto|]. simpl. intros [= ->]. left. reflexivity.
Qed.

(** [success = False] *)
Lemma truthful_reset : holds truthful (@Py.set_success Signal false).
Proof. intros s. split; discriminate. Qed.

End Blocks.

Ltac truthful_tac :=
  repeat first
    [ apply truthful_found
    | apply truthful_found_return
    | apply truthful_return_success
    | apply truthful_reset
    | apply (holds_collect_candidates _ _ truthful_composable)
    | holds_step truthful_composable ].

Ltac sticky_tac :=
  repeat first
    [ apply sticky_found
    | apply (holds_collect_candidates _ _ sticky_composable)
    | holds_step sticky_composable ].

Ltac final_tac :=
  repeat first
    [ apply final_found_return
    | apply (holds_collect_candidates _ _ final_composable)
    | holds_step final_composable ].

Section Success.

Import LogoSearchWorker.

Variables (w : World) (self : t).

(** the shape of the adapters that keep a flag: [success = False], a loop,
    [return success] *)
Lemma flag_shape (loop : M unit) :
  holds truthful loop ->
  forall out,
    Py.call (Py.bind (Py.set_success false)
               (fun _ => Py.bind loop (fun _ => Py.get_success)))
    = Py.Returned out true ->
    has_candidate out = true.
Proof.
  intros Hloop out. unfold Py.call, Py.bind, Py.set_success, Py.get_success.
  specialize (Hloop false).
  destruct (loop false) as [[o s'] [[]|b|e]]; simpl in *;
    destruct Hloop as [Hs Hr]; try discriminate.
  - rewrite app_nil_r. intros [= <- ->].
    destruct (Hs eq_refl) as [H|H]; [discriminate H | exact H].
  - intros [= <- ->].
    destruct (Hr eq_refl) as [H|H]; [discriminate H | exact H].
Qed.

Lemma flag_shape_converse (loop : M unit) :
  holds sticky loop ->
  forall out value,
    Py.call (Py.bind (Py.set_success false)
               (fun _ => Py.bind loop (fun _ => Py.get_success)))
    = Py.Returned out value ->
    has_candidate out = true -> value = true.
Proof.
  intros Hloop out value.
  unfold Py.call, Py.bind, Py.set_success, Py.get_success.
  specialize (Hloop false).
  destruct (loop false) as [[o s'] [[]|b|e]]; simpl in *;
    destruct Hloop as [Hs Hr]; try discriminate.
  - rewrite app_nil_r. intros [= <- <-] Hc. apply Hs. right. exact Hc.
  - exfalso. exact (Hr b eq_refl).
Qed.

(** the shape of the adapters that answer at once: a guarded body, then
    [return False] *)
Lemma guard_shape (body : M unit) :
  holds truthful body ->
  forall out,
    Py.call (Py.bind body (fun _ => Py.ret false)) = Py.Returned out true ->
    has_candidate out = true.
Proof.
  intros Hbody out. unfold Py.call, Py.bind, Py.ret.
  specialize (Hbody false).
  destruct (body false) as [[o s'] [[]|b|e]]; simpl in *;
    destruct Hbody as [Hs Hr]; try discriminate.
  intros [= <- ->].
  destruct (Hr eq_refl) as [H|H]; [discriminate H | exact H].
Qed.

Lemma guard_shape_converse (body : M unit) :
  holds final body ->
  forall out value,
    Py.call (Py.bind body (fun _ => Py.ret false)) = Py.Returned out value ->
    has_candidate out = true -> value = true.
Proof.
  intros Hbody out value. unfold Py.call, Py.bind, Py.ret.
  specialize (Hbody false).
  destruct (body false) as [[o s'] [[]|b|e]]; simpl in *; try discriminate.
  - rewrite app_nil_r. intros [= <- <-] Hc. specialize (Hbody Hc).
    discriminate Hbody.
  - intros [= <- <-] Hc. specialize (Hbody Hc). injection Hbody as ->.
    reflexivity.
Qed.

Lemma simpleicons_truthful out :
  Py.call (search_simpleicons w self) = Py.Returned out true ->
  has_candidate out = true.
Proof. apply flag_shape. truthful_tac. Qed.

Lemma brandfetch_truthful out :
  Py.call (search_brandfetch w self) = Py.Returned out true ->
  has_candidate out = true.
Proof. apply flag_shape. truthful_tac. Qed.

Lemma clearbit_truthful out :
  Py.call (search_clearbit w self) = Py.Returned out true ->
  has_candidate out = true.
Proof. apply flag_shape. truthful_tac. Qed.

Lemma companywebsite_truthful out :
  Py.call (search_companywebsite w self) = Py.Returned out true ->
  has_candidate out = true.
Proof. apply flag_shape. truthful_tac. Qed.

Lemma wikipedia_truthful out :
  Py.call (search_wikipedia w self) = Py.Returned out true ->
  has_candidate out = true.
Proof. apply guard_shape. truthful_tac. Qed.

Lemma duckduckgo_truthful out :
  Py.call (search_duckduckgo w self) = Py.Returned out true ->
  has_candidate out = true.
Proof. apply guard_shape. truthful_tac. Qed.

Lemma googlesearch_truthful out :
  Py.call (search_googlesearch w self) = Py.Returned out true ->
  has_candidate out = true.
Proof.
  unfold search_googlesearch.
  destruct (String.eqb (get (google_api_key (w_settings self)) "") ""
            || String.eqb (get (google_cx (w_settings self)) "") "").
  - discriminate.
  - apply guard_shape. truthful_tac.
Qed.

Lemma bingsearch_truthful out :
  Py.call (search_bingsearch w self) = Py.Returned out true ->
  has_candidate out = true.
Proof.
  unfold search_bingsearch.
  destruct (String.eqb (get (bing_api_key (w_settings self)) "") "").
  - discriminate.
  - apply guard_shape. truthful_tac.
Qed.

Lemma simpleicons_complete out value :
  Py.call (search_simpleicons w self) = Py.Returned out value ->
  has_candidate out = true -> value = true.
Proof. apply flag_shape_converse. sticky_tac. Qed.

Lemma brandfetch_complete out value :
  Py.call (search_brandfetch w self) = Py.Returned out value ->
  has_candidate out = true -> value = true.
Proof. apply flag_shape_converse. sticky_tac. Qed.

Lemma clearbit_complete out value :
  Py.call (search_clearbit w self) = Py.Returned out value ->
  has_candidate out = true -> value = true.
Proof. apply flag_shape_converse. sticky_tac. Qed.

Lemma companywebsite_complete out value :
  Py.call (search_companywebsite w self) = Py.Returned out value ->
  has_candidate out = true -> value = true.
Proof. apply flag_shape_converse. sticky_tac. Qed.

Lemma wikipedia_complete out value :
  Py.call (search_wikipedia w self) = Py.Returned out value ->
  has_candidate out = true -> value = true.
Proof. apply guard_shape_converse. final_tac. Qed.

End Success.

(** X10. A search method answers [True] only when it has sent a candidate:
    for each of the eleven methods, in every world and for every worker, a
    call that returns [True] has emitted at least one [search_result]. *)
Theorem success_means_candidate
    (w : World) (self : LogoSearchWorker.t) (method_name : string)
    (method : LogoSearchWorker.Method) (out : list LogoSearchWorker.Signal) :
  LogoSearchWorker.getattr LogoSearchWorker.search_methods method_name
  = Some method ->
  Py.call (method w self) = Py.Returned out true ->
  has_candidate out = true.
Proof.
  intros H. apply getattr_in in H.
  unfold LogoSearchWorker.search_methods in H. simpl in H.
  repeat (destruct H as [[= _ <-]|H];
          [first [ apply simpleicons_truthful | apply brandfetch_truthful
                 | apply clearbit_truthful | apply wikipedia_truthful
                 | apply companywebsite_truthful
                 | apply googlesearch_truthful | apply bingsearch_truthful
                 | apply duckduckgo_truthful
                 | discriminate ]
          |]).
  contradiction.
Qed.

Lemma success_means_candidate_witness :
  exists out,
    Py.call
      (LogoSearchWorker.search_duckduckgo logo_everywhere
         (keyed_worker acme_source))
    = Py.Returned out true
    /\ has_candidate out = true.
Proof.
  eexists. split; [vm_compute; reflexivity|].
  eapply (success_means_candidate logo_everywhere (keyed_worker acme_source)
            "search_duckduckgo" LogoSearchWorker.search_duckduckgo _ eq_refl).
  vm_compute. reflexivity.
Defined.

(** X11. For the SimpleIcons, Brandfetch, Clearbit, Wikipedia and
    CompanyWebsite adapters the value returned tells exactly whether a
    candidate was sent: [True] with one or more, [False] with none.  The
    GoogleSearch adapter can send a candidate and still return [False]: it
    does when a later entry of the answer is not an object, since the
    exception leaves the loop before [return success]. *)
Theorem success_tells_candidates
    (w : World) (self : LogoSearchWorker.t) (method : LogoSearchWorker.Method)
    (out : list LogoSearchWorker.Signal) (value : bool) :
  (In method
     [LogoSearchWorker.search_simpleicons; LogoSearchWorker.search_brandfetch;
      LogoSearchWorker.search_clearbit; LogoSearchWorker.search_wikipedia;
      LogoSearchWorker.search_companywebsite] ->
   Py.call (method w self) = Py.Returned out value ->
   value = has_candidate out)
  /\ exists sent,
       Py.call
         (LogoSearchWorker.search_googlesearch half_broken
            (keyed_worker
               {| name := "GoogleSearch"; priority := 3; base_quality := 65;
                  enabled := true |}))
       = Py.Returned sent false
       /\ has_candidate sent = true.
Proof.
  split.
  - intros Hin Hcall.
    assert (Hif : value = true -> has_candidate out = true).
    { intros ->. simpl in Hin.
      repeat (destruct Hin as [<-|Hin];
              [first [ exact (simpleicons_truthful w self out Hcall)
                     | exact (brandfetch_truthful w self out Hcall)
                     | exact (clearbit_truthful w self out Hcall)
                     | exact (wikipedia_truthful w self out Hcall)
                     | exact (companywebsite_truthful w self out Hcall) ]
              |]).
      contradiction. }
    assert (Honly : has_candidate out = true -> value = true).
    { simpl in Hin.
      repeat (destruct Hin as [<-|Hin];
              [first [ exact (simpleicons_complete w self out value Hcall)
                     | exact (brandfetch_complete w self out value Hcall)
                     | exact (clearbit_complete w self out value Hcall)
                     | exact (wikipedia_complete w self out value Hcall)
                     | exact (companywebsite_complete w self out value Hcall) ]
              |]).
      contradiction. }
    destruct value, (has_candidate out); try reflexivity.
    + symmetry. apply Hif. reflexivity.
    + apply Honly. reflexivity.
  - eexists. split; vm_compute; reflexivity.
Qed.

Lemma success_tells_candidates_witness :
  exists out,
    Py.call
      (LogoSearchWorker.search_clearbit (serving "png-bytes")
         (worker_for acme_source))
    = Py.Returned out (has_candidate out).
Proof.
  assert (Hcall : exists out value,
             Py.call
               (LogoSearchWorker.search_clearbit (serving "png-bytes")
                  (worker_for acme_source))
             = Py.Returned out value)
    by (eexists; eexists; vm_compute; reflexivity).
  destruct Hcall as (out & value & Hcall). exists out.
  rewrite Hcall. f_equal.
  exact (proj1 (success_tells_candidates (serving "png-bytes")
                  (worker_for acme_source) LogoSearchWorker.search_clearbit
                  out value)
           ltac:(simpl; tauto) Hcall).
Defined.

(* ================================================================== *)
(** * Further properties of the orchestrator *)
(* ================================================================== *)

Section Traces.

Import LogoSearchManager.

Lemma payloads_app (t1 t2 : list Signal) :
  payloads (t1 ++ t2) = (payloads t1 ++ payloads t2)%list.
Proof.
  induction t1 as [|[msg|r|b rs] t1 IH]; simpl; rewrite ?IH; reflexivity.
Qed.

Lemma consistent_app (t1 t2 : list Signal) :
  forall seen,
    consistent seen (t1 ++ t2)
    <-> consistent seen t1 /\ consistent (seen ++ payloads t1) t2.
Proof.
  induction t1 as [|[msg|r|b rs] t1 IH]; intros seen; simpl.
  - rewrite app_nil_r. tauto.
  - apply IH.
  - rewrite IH, <- app_assoc. reflexivity.
  - rewrite IH. tauto.
Qed.

(** what the two properties of a trace say of a completion in it *)
Lemma consistent_completion (trace : list Signal) :
  consistent [] trace ->
  forall before success rs after,
    trace = (before ++ search_complete success rs :: after)%list ->
    rs = payloads before /\ success = (0 <? len rs).
Proof.
  intros Hc before success rs after ->.
  apply consistent_app in Hc. destruct Hc as [_ Hc]. simpl in Hc.
  destruct Hc as (-> & -> & _). split; reflexivity.
Qed.

End Traces.

Section Streaming.

Import LogoSearchManager.

(** a step that emits [new] and appends the candidates among [new] to the
    results keeps the invariant, if [new] is consistent after the results *)
Lemma streamed_step (m m' : t) (new : list Signal) :
  emitted m' = (emitted m ++ new)%list ->
  results m' = (results m ++ payloads new)%list ->
  consistent (results m) new ->
  streamed m -> streamed m'.
Proof.
  intros He Hr Hnew [Hp Hc]. split.
  - rewrite He, Hr, payloads_app, Hp. reflexivity.
  - rewrite He. apply consistent_app. split; [exact Hc|].
    simpl. rewrite Hp. exact Hnew.
Qed.

Lemma len_snoc_positive {A} (l : list A) (x : A) :
  true = (0 <? len (l ++ [x])).
Proof.
  unfold len. rewrite length_app. simpl. symmetry. apply Z.ltb_lt. lia.
Qed.

Lemma replay_spec (cache_results : list LogoResult) :
  forall m,
    emitted (replay m cache_results)
    = (emitted m ++ map search_result cache_results)%list
    /\ results (replay m cache_results) = (results m ++ cache_results)%list
    /\ db (replay m cache_results) = db m
    /\ workers (replay m cache_results) = workers m
    /\ search_queue (replay m cache_results) = search_queue m
    /\ active_workers (replay m cache_results) = active_workers m
    /\ m_company_name (replay m cache_results) = m_company_name m
    /\ m_settings (replay m cache_results) = m_settings m.
Proof.
  unfold replay.
  induction cache_results as [|r rs IH]; intros m; simpl.
  - rewrite !app_nil_r. repeat split.
  - destruct (IH (emit (search_result r) (with_results m (results m ++ [r]))))
      as (He & Hr & Hd & Hw & Hq & Ha & Hc & Hs).
    rewrite He, Hr, Hd, Hw, Hq, Ha, Hc, Hs. simpl.
    rewrite <- !app_assoc. repeat split.
Qed.

Lemma payloads_results (l : list LogoResult) :
  payloads (map search_result l) = l.
Proof. induction l as [|r l IH]; simpl; rewrite ?IH; reflexivity. Qed.

Lemma consistent_results (l : list LogoResult) :
  forall seen, consistent seen (map search_result l).
Proof. induction l as [|r l IH]; intros seen; simpl; [exact I | apply IH]. Qed.

(** the results and the signals of [start_search], by what the cache
    holds *)
Lemma start_search_spec (registry : list Source) (now : Z) (m : t) :
  let cached :=
    Database.get_from_cache now (db m) (m_company_name m)
      (get (cache_expiry_days (m_settings m)) 30) in
  results (start_search registry now m) = (results m ++ cached)%list
  /\ db (start_search registry now m) = db m
  /\ exists new,
       emitted (start_search registry now m) = (emitted m ++ new)%list
       /\ payloads new = cached
       /\ consistent (results m) new.
Proof.
  cbv zeta. unfold start_search.
  destruct (Database.get_from_cache now (db m) (m_company_name m)
              (get (cache_expiry_days (m_settings m)) 30)) as [|r rs] eqn:Hc.
  - destruct (start_workers_from_frame
                (search_queue
                   (with_queue m (search_queue m ++ List.filter enabled registry)))
                (with_queue m (search_queue m ++ List.filter enabled registry)))
      as (He & Hd & Hr & _).
    unfold start_workers. rewrite He, Hd, Hr. simpl. rewrite app_nil_r.
    split; [reflexivity|]. split; [reflexivity|].
    exists []. rewrite app_nil_r. repeat split.
  - set (announced :=
           emit (progress_update
                   ("Found " ++ decimal (len (r :: rs)) ++ " logos in cache")) m).
    destruct (replay_spec (r :: rs) announced)
      as (He & Hr & Hd & Hw & Hq & Ha & Hcn & Hs).
    set (replayed := replay announced (r :: rs)) in *.
    destruct (enough replayed (len (r :: rs))).
    + simpl. rewrite He, Hr, Hd. simpl.
      split; [reflexivity|]. split; [reflexivity|].
      eexists. split; [rewrite <- !app_assoc; reflexivity|].
      split.
      * rewrite payloads_app. simpl. rewrite payloads_app. simpl.
        rewrite payloads_results, app_nil_r. reflexivity.
      * simpl. apply (consistent_app (map search_result rs)).
        split; [apply consistent_results|]. simpl.
        rewrite payloads_results. rewrite <- app_assoc. simpl.
        split; [reflexivity|]. split; [|exact I].
        unfold len. rewrite length_app. simpl. symmetry.
        apply Z.ltb_lt. lia.
    + destruct (start_workers_from_frame
                  (search_queue
                     (with_queue replayed
                        (search_queue replayed ++ List.filter enabled registry)))
                  (with_queue replayed
                     (search_queue replayed ++ List.filter enabled registry)))
        as (He' & Hd' & Hr' & _).
      unfold start_workers. rewrite He', Hd', Hr'. simpl.
      rewrite He, Hr, Hd. simpl.
      split; [reflexivity|]. split; [reflexivity|].
      eexists. split; [rewrite <- !app_assoc; reflexivity|].
      split.
      * simpl. rewrite payloads_results. reflexivity.
      * simpl. apply consistent_results.
Qed.

Lemma start_search_streamed (registry : list Source) (now : Z) (m : t) :
  streamed m -> streamed (start_search registry now m).
Proof.
  intros Hm.
  destruct (start_search_spec registry now m) as (Hr & _ & new & He & Hp & Hc).
  apply (streamed_step m _ new); [exact He | rewrite Hp; exact Hr | exact Hc
                                 | exact Hm].
Qed.

Lemma handle_search_result_streamed (now : Z) (m : t) (r : LogoResult) :
  streamed m -> streamed (handle_search_result now m r).
Proof.
  intros Hm. unfold handle_search_result.
  match goal with
  | |- streamed (if ?b then _ else _) => destruct b
  end.
  - apply (streamed_step m _
             [search_result r; search_complete true (results m ++ [r])]);
      [simpl; rewrite <- app_assoc; reflexivity | reflexivity | | exact Hm].
    simpl. split; [reflexivity|]. split; [apply len_snoc_positive | exact I].
  - apply (streamed_step m _ [search_result r]);
      [reflexivity | reflexivity | exact I | exact Hm].
Qed.

Lemma handle_search_complete_streamed (now : Z) (m : t) (source_name : string)
    (success : bool) :
  streamed m -> streamed (handle_search_complete now m source_name success).
Proof.
  intros Hm.
  destruct (drained_search_completes now m source_name success) as [Hr Hcase].
  cbv zeta in Hr, Hcase.
  destruct ((active_workers (handle_search_complete now m source_name success)
             =? 0)
            && match
                 search_queue (handle_search_complete now m source_name success)
               with
               | [] => true
               | _ => false
               end).
  - destruct Hcase as [He _].
    apply (streamed_step m _
             [search_complete (0 <? len (results m)) (results m)]);
      [exact He | rewrite Hr, app_nil_r; reflexivity | | exact Hm].
    simpl. repeat split.
  - destruct Hcase as [He _].
    apply (streamed_step m _ []);
      [rewrite app_nil_r; exact He | rewrite Hr, app_nil_r; reflexivity
      | exact I | exact Hm].
Qed.

Lemma deliver_streamed (now : Z) (m m' : t) (e : Event) :
  streamed m -> deliver now m e = Some m' -> streamed m'.
Proof.
  intros Hm. destruct e as [i result|i success]; simpl;
    destruct (nth_error (workers m) i) as [th|]; try discriminate;
    destruct (pending th); try discriminate; intros [= <-].
  - apply handle_search_result_streamed. exact Hm.
  - apply handle_search_complete_streamed. exact Hm.
Qed.

Lemma reachable_streamed (registry : list Source) (m0 m : t) :
  streamed m0 -> reachable registry m0 m -> streamed m.
Proof.
  intros H0 Hreach. induction Hreach as [|now|now e m m' _ IH Hd].
  - exact H0.
  - apply start_search_streamed. exact H0.
  - eapply deliver_streamed; eassumption.
Qed.

End Streaming.

(** X12. In every state the manager can reach, the results it holds are
    the candidates it has emitted as [search_result] signals, in the order of
    emission, and every completion signal it has emitted carries exactly the
    candidates emitted before it, with a flag that is true when there is one
    at least and false when there is none. *)
Theorem completions_carry_results
    (registry : list Source) (company : string) (settings : Settings)
    (database : Database.t) (m : LogoSearchManager.t) :
  LogoSearchManager.reachable registry
    (LogoSearchManager.init company settings database) m ->
  payloads (LogoSearchManager.emitted m) = LogoSearchManager.results m
  /\ forall before success rs after,
       LogoSearchManager.emitted m
       = (before ++ LogoSearchManager.search_complete success rs :: after)%list ->
       rs = payloads before /\ success = (0 <? LogoSearchManager.len rs).
Proof.
  intros Hreach.
  assert (H0 : streamed (LogoSearchManager.init company settings database))
    by (split; [reflexivity | exact I]).
  destruct (reachable_streamed registry _ m H0 Hreach) as [Hp Hc].
  split; [exact Hp|]. apply consistent_completion. exact Hc.
Qed.

Lemma completions_carry_results_witness :
  payloads
    (LogoSearchManager.emitted
       (LogoSearchManager.start_search LOGO_SOURCES 100
          (LogoSearchManager.init "Acme" first_result_only warm_db)))
  = LogoSearchManager.results
      (LogoSearchManager.start_search LOGO_SOURCES 100
         (LogoSearchManager.init "Acme" first_result_only warm_db)).
Proof.
  exact (proj1 (completions_carry_results LOGO_SOURCES "Acme" first_result_only
                  warm_db _
                  (LogoSearchManager.reach_start LOGO_SOURCES
                     (LogoSearchManager.init "Acme" first_result_only warm_db)
                     100))).
Defined.

Section Scheduling.

Import LogoSearchManager.


Lemma started_terminate (ws : list Thread) :
  map (fun th => LogoSearchWorker.w_source (worker th)) (terminate_running ws)
  = map (fun th => LogoSearchWorker.w_source (worker th)) ws.
Proof.
  induction ws as [|th ws IH]; simpl; [reflexivity|].
  rewrite IH. destruct (is_running th); reflexivity.
Qed.

(** [start_workers] moves sources from the head of the queue to the end of
    the started ones, and does nothing else to the two *)
Lemma start_workers_from_sources (queue : list Source) :
  forall m,
    (started (start_workers_from queue m)
     ++ search_queue (start_workers_from queue m))%list
    = (started m ++ queue)%list.
Proof.
  induction queue as [|source rest IH]; intros m; simpl.
  - reflexivity.
  - destruct (active_workers m <? max_concurrent m); [|reflexivity].
    rewrite IH. unfold started. simpl. rewrite map_app, <- app_assoc.
    reflexivity.
Qed.

(** after [start_workers] the queue is empty or the bound is reached *)
Lemma start_workers_from_saturates (queue : list Source) :
  forall m,
    search_queue (start_workers_from queue m) = []
    \/ max_concurrent (start_workers_from queue m)
       <= active_workers (start_workers_from queue m).
Proof.
  induction queue as [|source rest IH]; intros m; simpl.
  - left. reflexivity.
  - destruct (active_workers m <? max_concurrent m) eqn:Hlt.
    + apply IH.
    + right. simpl. apply Z.ltb_ge. exact Hlt.
Qed.

(** [start_workers] starts no worker or raises the counter *)
Lemma start_workers_from_progress (queue : list Source) :
  forall m,
    workers (start_workers_from queue m) = workers m
    \/ active_workers m < active_workers (start_workers_from queue m).
Proof.
  induction queue as [|source rest IH]; intros m; simpl.
  - left. reflexivity.
  - destruct (active_workers m <? max_concurrent m); [|left; reflexivity].
    right.
    pose proof (start_workers_from_bound rest
                  (start_worker (with_queue m rest) source)) as (Hlow & _).
    simpl in Hlow. lia.
Qed.

Lemma pending_counts (ws : list Thread) :
  forall i th,
    nth_error ws i = Some th -> pending th = true ->
    (1 <= List.length (List.filter pending ws))%nat.
Proof.
  induction ws as [|x ws IH]; intros [|i] th Hnth Hp; simpl in *;
    try discriminate.
  - injection Hnth as ->. rewrite Hp. simpl. lia.
  - specialize (IH i th Hnth Hp). destruct (pending x); simpl; lia.
Qed.

Lemma handle_search_result_fields (now : Z) (m : t) (r : LogoResult) :
  let m' := handle_search_result now m r in
  active_workers m' = active_workers m
  /\ search_queue m' = search_queue m
  /\ started m' = started m
  /\ results m' = (results m ++ [r])%list
  /\ db m' = fst (Database.add_to_cache now (db m) r)
  /\ exists new, emitted m' = (emitted m ++ new)%list.
Proof.
  cbv zeta. unfold handle_search_result.
  match goal with
  | |- context [if ?b then _ else _] => destruct b
  end; simpl; repeat split;
    try (unfold started; simpl; apply started_terminate).
  - exists [search_result r; search_complete true (results m ++ [r])].
    rewrite <- app_assoc. reflexivity.
  - exists [search_result r]. reflexivity.
Qed.

Lemma handle_search_complete_fields (now : Z) (m : t) (source_name : string)
    (success : bool) :
  let m' := handle_search_complete now m source_name success in
  (started m' ++ search_queue m')%list = (started m ++ search_queue m)%list
  /\ (search_queue m' = [] \/ max_concurrent m' <= active_workers m')
  /\ max_concurrent m' = max_concurrent m.
Proof.
  cbv zeta. unfold handle_search_complete.
  set (m1 := with_workers
               (with_completed m (set_add source_name (completed_sources m)))
               (workers
                  (with_completed m
                     (set_add source_name (completed_sources m))))
               (active_workers
                  (with_completed m
                     (set_add source_name (completed_sources m))) - 1)).
  pose proof (start_workers_from_sources (search_queue m1) m1) as Hsrc.
  pose proof (start_workers_from_saturates (search_queue m1) m1) as Hsat.
  pose proof (start_workers_from_bound (search_queue m1) m1) as (_ & _ & Hmax).
  fold (start_workers m1) in Hsrc, Hsat, Hmax.
  match goal with
  | |- context [if ?b then _ else _] => destruct b
  end; (split; [exact Hsrc | split; [exact Hsat | exact Hmax]]).
Qed.

End Scheduling.



Section Draining.

Import LogoSearchManager.

Lemma start_search_progress (registry : list Source) (now : Z) (m : t) :
  workers m = [] -> active_workers m = 0 ->
  workers (start_search registry now m) = []
  \/ 0 < active_workers (start_search registry now m).
Proof.
  intros Hw Ha. unfold start_search.
  destruct (Database.get_from_cache now _ _ _) as [|r rs].
  - unfold start_workers.
    match goal with
    | |- context [start_workers_from ?q ?x] =>
        destruct (start_workers_from_progress q x) as [H|H]
    end.
    + left. rewrite H. exact Hw.
    + right. eapply Z.le_lt_trans; [|exact H]. simpl. lia.
  - match goal with
    | |- context [replay ?x ?l] =>
        destruct (replay_spec l x) as (_ & _ & _ & Hw' & _ & Ha' & _);
        set (m1 := replay x l) in *
    end.
    simpl in Hw', Ha'. rewrite Hw in Hw'. rewrite Ha in Ha'.
    destruct (enough m1 (len (r :: rs))).
    + left. exact Hw'.
    + unfold start_workers.
      match goal with
      | |- context [start_workers_from ?q ?x] =>
          destruct (start_workers_from_progress q x) as [H|H]
      end.
      * left. rewrite H. exact Hw'.
      * right. eapply Z.le_lt_trans; [|exact H]. simpl. lia.
Qed.

Lemma nothing_running (bound : Z) (m : t) :
  counted bound m -> active_workers m = 0 -> running m = [].
Proof.
  intros (_ & Hcount & _) Ha. unfold running.
  apply length_zero_iff_nil.
  pose proof (running_are_pending (workers m)). lia.
Qed.

End Draining.

(** X14. A search that has run out of work is recorded and announced: when
    at least one search may run at a time, in every state the manager can
    reach in which workers have been started and none is counted active any
    more, the queue is empty, no worker is running, the signal emitted last
    is the completion carrying all results, with success iff there is one,
    and the search history holds one entry for the company, with the number
    of results. *)
Theorem drained_search_is_recorded
    (registry : list Source) (company : string) (settings : Settings)
    (database : Database.t) (m : LogoSearchManager.t) :
  1 <= get (concurrent_searches settings) 3 ->
  LogoSearchManager.reachable registry
    (LogoSearchManager.init company settings database) m ->
  LogoSearchManager.workers m <> [] ->
  LogoSearchManager.active_workers m = 0 ->
  LogoSearchManager.search_queue m = []
  /\ LogoSearchManager.running m = []
  /\ (exists earlier,
        LogoSearchManager.emitted m
        = (earlier
           ++ [LogoSearchManager.search_complete
                 (0 <? LogoSearchManager.len (LogoSearchManager.results m))
                 (LogoSearchManager.results m)])%list)
  /\ exists row,
       LogoSearchManager.history_entries m = [row]
       /\ Database.h_results_count row
          = LogoSearchManager.len (LogoSearchManager.results m).
Proof.
  intros Hbound Hreach.
  assert (H0 : counted
                 (LogoSearchManager.max_concurrent
                    (LogoSearchManager.init company settings database))
                 (LogoSearchManager.init company settings database)).
  { split; [reflexivity | split; [reflexivity | simpl; lia]]. }
  pose proof (reachable_counted registry _ m H0 Hreach) as Hcounted.
  destruct Hreach as [|now|now e m m' Hreach Hd].
  - intros Hw. exfalso. apply Hw. reflexivity.
  - intros Hw Ha. exfalso.
    destruct (start_search_progress registry now
                (LogoSearchManager.init company settings database)
                eq_refl eq_refl) as [H|H].
    + exact (Hw H).
    + lia.
  - intros _ Ha.
    pose proof (reachable_counted registry _ m H0 Hreach)
      as (Hmax & Hcount & _).
    simpl in Hmax.
    destruct e as [i result|i success]; simpl in Hd;
      destruct (nth_error (LogoSearchManager.workers m) i) as [th|] eqn:Hnth;
      try discriminate;
      destruct (LogoSearchManager.pending th) eqn:Hp; try discriminate;
      injection Hd as <-.
    + exfalso.
      destruct (handle_search_result_fields now m result) as (Hact & _).
      rewrite Hact in Ha.
      pose proof (pending_counts _ _ _ Hnth Hp). lia.
    + remember (LogoSearchManager.with_workers m
                  (LogoSearchManager.finish i (LogoSearchManager.workers m))
                  (LogoSearchManager.active_workers m)) as mX eqn:HmX.
      remember (name (LogoSearchWorker.w_source (LogoSearchManager.worker th)))
        as source_name eqn:Hname.
      pose proof (drained_search_completes now mX source_name success)
        as (Hres & Hif).
      destruct (handle_search_complete_fields now mX source_name success)
        as (_ & Hsat & Hmax').
      assert (Hq : LogoSearchManager.search_queue
                     (LogoSearchManager.handle_search_complete now mX
                        source_name success) = []).
      { destruct Hsat as [Hq|Hle]; [exact Hq|]. exfalso.
        rewrite Hmax', Ha in Hle. rewrite HmX in Hle. simpl in Hle. lia. }
      rewrite Ha, Hq in Hif. simpl in Hif. destruct Hif as (He & Hh).
      split; [exact Hq|].
      split; [exact (nothing_running _ _ Hcounted Ha)|].
      split.
      * exists (LogoSearchManager.emitted mX). rewrite Hres. exact He.
      * eexists. split; [exact Hh|]. simpl. rewrite Hres. reflexivity.
Qed.

Lemma drained_search_is_recorded_witness :
  LogoSearchManager.search_queue drained_acme = []
  /\ LogoSearchManager.running drained_acme = []
  /\ (exists earlier,
        LogoSearchManager.emitted drained_acme
        = (earlier
           ++ [LogoSearchManager.search_complete
                 (0 <? LogoSearchManager.len
                         (LogoSearchManager.results drained_acme))
                 (LogoSearchManager.results drained_acme)])%list)
  /\ exists row,
       LogoSearchManager.history_entries drained_acme = [row]
       /\ Database.h_results_count row
          = LogoSearchManager.len (LogoSearchManager.results drained_acme).
Proof.
  apply (drained_search_is_recorded clearbit_only "Acme" no_settings
           Database.init_db drained_acme).
  - vm_compute. discriminate.
  - apply (LogoSearchManager.reach_deliver clearbit_only _ 5
             (LogoSearchManager.Complete 0 false)
             (LogoSearchManager.start_search clearbit_only 0
                (LogoSearchManager.init "Acme" no_settings Database.init_db))).
    + apply LogoSearchManager.reach_start.
    + vm_compute. reflexivity.
  - vm_compute. discriminate.
  - vm_compute. reflexivity.
Defined.

Section Replay.

Import LogoSearchManager.

Lemma in_payloads (r : LogoResult) (trace : list Signal) :
  In r (payloads trace) -> In (search_result r) trace.
Proof.
  induction trace as [|[msg|r'|success rs] trace IH]; simpl.
  - intros [].
  - intros H. right. exact (IH H).
  - intros [->|H]; [left; reflexivity | right; exact (IH H)].
  - intros H. right. exact (IH H).
Qed.

End Replay.

(** X15. What one search finds, the next search for the company replays: a
    candidate with a source and a format, and a size and a score SQLite can
    store, that the manager has handled is in its database, and a manager
    created later on that database for the candidate's company emits it at
    [start_search] and holds it among its results, as the cache keeps it.
    This is so when the cache age of the later search is from 0 to 5373484
    days and the moment that many days before that search is in SQLite's
    calendar and before the candidate was handled. *)
Theorem found_logo_is_replayed
    (registry : list Source) (now now' : Z) (m : LogoSearchManager.t)
    (settings : Settings) (r : LogoResult) (src fmt : string) :
  Database.binds r = true ->
  source r = Some src -> format_type r = Some fmt ->
  0 <= get (cache_expiry_days settings) 30 < 5373485 ->
  -210866760000 <= now' - get (cache_expiry_days settings) 30 * 86400
  <= 253402300799 ->
  now' - get (cache_expiry_days settings) 30 * 86400 < now ->
  In (persisted r)
    (LogoSearchManager.results
       (LogoSearchManager.start_search registry now'
          (LogoSearchManager.init (company_name r) settings
             (LogoSearchManager.db
                (LogoSearchManager.handle_search_result now m r)))))
  /\ In (LogoSearchManager.search_result (persisted r))
       (LogoSearchManager.emitted
          (LogoSearchManager.start_search registry now'
             (LogoSearchManager.init (company_name r) settings
                (LogoSearchManager.db
                   (LogoSearchManager.handle_search_result now m r))))).
Proof.
  intros Hb Hs Hf Hdays Hfirst Hyoung.
  destruct (handle_search_result_fields now m r) as (_ & _ & _ & _ & Hdb & _).
  rewrite Hdb.
  pose proof (proj2 (add_to_cache_then_lookup now now'
                       (get (cache_expiry_days settings) 30)
                       (LogoSearchManager.db m) r src fmt Hb Hs Hf Hdays
                       Hfirst Hyoung)) as Hin.
  destruct (start_search_spec registry now'
              (LogoSearchManager.init (company_name r) settings
                 (fst (Database.add_to_cache now (LogoSearchManager.db m) r))))
    as (Hres & _ & new & Hem & Hpay & _).
  rewrite Hres, Hem. simpl. split.
  - exact Hin.
  - apply in_payloads. rewrite Hpay. exact Hin.
Qed.

Lemma found_logo_is_replayed_witness :
  In (persisted acme_logo)
    (LogoSearchManager.results
       (LogoSearchManager.start_search LOGO_SOURCES 100
          (LogoSearchManager.init (company_name acme_logo) no_settings
             (LogoSearchManager.db
                (LogoSearchManager.handle_search_result 50
                   (LogoSearchManager.init "Acme" no_settings Database.init_db)
                   acme_logo))))).
Proof.
  assert (Hb : Database.binds acme_logo = true) by (vm_compute; reflexivity).
  assert (Hs : source acme_logo = Some "SimpleIcons")
    by (vm_compute; reflexivity).
  assert (Hf : format_type acme_logo = Some "svg")
    by (vm_compute; reflexivity).
  assert (Hdays : 0 <= get (cache_expiry_days no_settings) 30 < 5373485)
    by (vm_compute; split; [discriminate | reflexivity]).
  assert (Hfirst : -210866760000
                   <= 100 - get (cache_expiry_days no_settings) 30 * 86400
                   <= 253402300799)
    by (vm_compute; split; discriminate).
  assert (Hyoung : 100 - get (cache_expiry_days no_settings) 30 * 86400 < 50)
    by (vm_compute; reflexivity).
  exact (proj1 (found_logo_is_replayed LOGO_SOURCES 50 100
                  (LogoSearchManager.init "Acme" no_settings Database.init_db)
                  no_settings acme_logo "SimpleIcons" "svg"
                  Hb Hs Hf Hdays Hfirst Hyoung)).
Defined.
